(** * Airport solar analysis: client-side estimation, aggregation and geometry

    A shallow embedding of the TypeScript code that computes the solar
    estimate of a user-drawn building ([HomePageClient.tsx]), the example of
    the equations panel ([EquationsPanel.tsx]), the aggregation of totals over
    the visible buildings ([useHiddenBuildings.ts], [recalcTotals]) and the
    geometry of drawn polygons ([useCustomBuildings.ts]).

    JavaScript numbers are binary64 floating-point numbers.  The laws of the
    formulas are stated over exact numbers: rationals [Q] for the code that
    only adds, multiplies, divides and rounds (so that every definition
    computes), and reals [R] for the geometry, which needs [cos], [sin],
    [sqrt] and [atan2].  There the one division by a computed quantity goes
    through [JS.div], which records a division by zero as [None]; overflow
    and the rounding of each operation do not exist in these numbers.

    What the arithmetic of the estimate and of the payback does in binary64
    itself (overflow, [NaN], the rounding of each operation) is embedded a
    second time in [F64], over the primitive binary64 numbers, for the
    statements that depend on it.  [Math.sin], [Math.cos] and [Math.atan2]
    are left to the implementation by the language and have no binary64
    counterpart here.

    A write to [localStorage] can throw (storage full or unavailable) and
    both hooks swallow the exception: every operation that persists takes the
    outcome of its write as the argument [writable]. *)

From Stdlib Require Import QArith Qround Qabs ZArith List Bool Lia.
From Stdlib Require Import Reals Zfloor Psatz.
From Stdlib Require String Ascii PrimFloat.
From Stdlib Require Import Permutation Sorted.
Import ListNotations.

(** ** JavaScript numeric primitives over [Q] *)

Module JS.

Open Scope Q_scope.

(** [Math.round(x)]: the nearest integer, a tie going up. *)
Definition Math_round (x : Q) : Q := inject_Z (Qfloor (x + (1 # 2))).

(** [x || d] on a number: [d] replaces a falsy [x], that is [0]. *)
Definition or_default (x d : Q) : Q := if Qeq_bool x 0 then d else x.

(** [x / y] where [y] is computed: [None] stands for the non-finite
    outcomes ([NaN], [Infinity], [-Infinity]) of a division by zero. *)
Definition div (x y : Q) : option Q :=
  if Qeq_bool y 0 then None else Some (x / y).

(** Equality of two results up to the representation of fractions. *)
Definition num_eq (a b : option Q) : Prop :=
  match a, b with
  | Some x, Some y => x == y
  | None, None => True
  | _, _ => False
  end.

Definition is_finite (a : option Q) : Prop := a <> None.

End JS.

(** ** The solar estimate of a custom building ([HomePageClient.tsx]) *)

Module Solar.

Open Scope Q_scope.

(** The [solar] object attached to a building. *)
Record Solar := mkSolar {
  usable_area_m2 : Q;
  capacity_kw : Q;
  capacity_mw : Q;
  annual_kwh : Q;
  annual_mwh : Q;
  capacity_factor : Q;
  annual_revenue : Q;
  gross_install_cost : Q;
  itc_savings : Q;
  install_cost : Q;
  annual_om : Q;
  payback_years : option Q;
  npv_25yr : Q;
  co2_avoided_tons : Q;
  co2_avoided_lifetime_tons : Q;
  homes_powered : Q;
  lifetime_mwh : Q;
  cost_per_watt : Q;
  itc_rate : Q;
  discount_rate : Q;
  degradation_rate : Q
}.

(** A building of the list shown to the user; [solar] is absent on a record
    that carries no estimate. *)
Record Building := mkBuilding {
  area_m2 : Q;
  lat : Q;
  lon : Q;
  distance_km : Q;
  isCustom : bool;
  solar : option Solar
}.

(** The effective parameters: each URL value falls back to its default
    when it is falsy. *)
Definition cf_of (totals_capacity_factor : Q) : Q :=
  JS.or_default totals_capacity_factor 0.168.
Definition usable_of (usablePct : Z) : Q :=
  JS.or_default (inject_Z usablePct) 65 / 100.
Definition eff_of (panelEff : Z) : Q := JS.or_default (inject_Z panelEff) 200.
Definition price_of (elecPriceQ : Q) : Q := JS.or_default elecPriceQ 0.12.

Section Chain.

(** [cb.area_m2] and the four effective parameters. *)
Variables (area cf usable eff price : Q).

Definition usableArea : Q := area * usable.
Definition capacityKw : Q := usableArea * eff / 1000.
Definition annualKwh : Q := capacityKw * 8760 * cf.
Definition grossCost : Q := capacityKw * 1000 * 1.40.
Definition itcSavings : Q := grossCost * 0.30.
Definition installCost : Q := grossCost - itcSavings.
Definition annualRevenue : Q := annualKwh * price.
Definition annualOm : Q := capacityKw * 15.
Definition payback : option Q :=
  if Qlt_le_dec 0 (annualRevenue - annualOm)
  then JS.div installCost (annualRevenue - annualOm)
  else Some 999.
Definition co2Rate : Q := 0.386.

(** The object returned for one custom building. *)
Definition solarOf : Solar := {|
  usable_area_m2 := JS.Math_round usableArea;
  capacity_kw := JS.Math_round (capacityKw * 10) / 10;
  capacity_mw := JS.Math_round (capacityKw / 100) / 10;
  annual_kwh := JS.Math_round annualKwh;
  annual_mwh := JS.Math_round (annualKwh / 100) / 10;
  capacity_factor := cf;
  annual_revenue := JS.Math_round annualRevenue;
  gross_install_cost := JS.Math_round grossCost;
  itc_savings := JS.Math_round itcSavings;
  install_cost := JS.Math_round installCost;
  annual_om := JS.Math_round annualOm;
  payback_years :=
    option_map (fun p => JS.Math_round (p * 10) / 10) payback;
  npv_25yr := 0;
  co2_avoided_tons := JS.Math_round (annualKwh * co2Rate / 1000 * 10) / 10;
  co2_avoided_lifetime_tons := JS.Math_round (annualKwh * 25 * co2Rate / 1000);
  homes_powered := JS.Math_round (annualKwh / 10500);
  lifetime_mwh := JS.Math_round (annualKwh * 25 / 1000);
  cost_per_watt := 1.40;
  itc_rate := 0.30;
  discount_rate := 0.06;
  degradation_rate := 0.005
|}.

End Chain.

(** [customBuildings.map(cb => ({...cb, solar: {...}}))] for one [cb]. *)
Definition customWithSolar (totals_capacity_factor : Q) (usablePct panelEff : Z)
    (elecPriceQ : Q) (cb : Building) : Building :=
  {| area_m2 := area_m2 cb;
     lat := lat cb;
     lon := lon cb;
     distance_km := distance_km cb;
     isCustom := isCustom cb;
     solar := Some (solarOf (area_m2 cb) (cf_of totals_capacity_factor)
                      (usable_of usablePct) (eff_of panelEff)
                      (price_of elecPriceQ)) |}.

End Solar.

(** ** The worked example of the equations panel ([EquationsPanel.tsx]) *)

Module EquationsPanel.

Open Scope Q_scope.

Record Example := mkExample {
  area : Q;
  usable : Q;
  capacity : Q;
  energy : Q;
  revenue : Q;
  grossCost : Q;
  itcCredit : Q;
  netCost : Q;
  payback : option Q
}.

Definition default_costPerWatt : Q := 1.40.
Definition default_itcRate : Q := 0.30.

(** The memoised [example] for a 10,000 m2 building. *)
Definition example (usablePct panelEff elecPrice capacityFactor
    costPerWatt itcRate : Q) : Example :=
  let area := 10000 in
  let usable := area * (usablePct / 100) in
  let capacity := usable * panelEff / 1000 in
  let energy := capacity * 8760 * capacityFactor in
  let revenue := energy * elecPrice in
  let grossCost := capacity * 1000 * costPerWatt in
  let itcCredit := grossCost * itcRate in
  let netCost := grossCost - itcCredit in
  let payback := JS.div netCost revenue in
  mkExample area usable capacity energy revenue grossCost itcCredit netCost
    payback.

End EquationsPanel.

(** ** Totals over the visible buildings ([recalcTotals]) *)

Module HiddenBuildings.

Open Scope Q_scope.

(** The [totals] object of an airport result.  [capacity_factor] stands for
    the fields that [recalcTotals] does not assign and that the spread
    [...originalTotals] carries over. *)
Record Totals := mkTotals {
  capacity_factor : Q;
  building_count : Q;
  total_roof_area_m2 : Q;
  capacity_kw : Q;
  capacity_mw : Q;
  annual_mwh : Q;
  annual_revenue : Q;
  gross_install_cost : Q;
  itc_savings : Q;
  install_cost : Q;
  annual_om : Q;
  payback_years : option Q;
  npv_25yr : Q;
  co2_avoided_tons : Q;
  co2_avoided_lifetime_tons : Q;
  homes_powered : Q;
  lifetime_mwh : Q
}.

(** [b.solar?.f || 0]. *)
Definition solarField (f : Solar.Solar -> Q) (b : Solar.Building) : Q :=
  match Solar.solar b with
  | Some s => JS.or_default (f s) 0
  | None => 0
  end.

(** [buildings.reduce((s, b) => s + g(b), 0)]. *)
Definition sumOver (g : Solar.Building -> Q) (buildings : list Solar.Building) : Q :=
  fold_left (fun s b => s + g b) buildings 0.

(** [netAnnual > 0 ? installCost / netAnnual : 999]. *)
Definition paybackOf (installCost netAnnual : Q) : option Q :=
  if Qlt_le_dec 0 netAnnual then JS.div installCost netAnnual else Some 999.

Definition recalcTotals (buildings : list Solar.Building)
    (originalTotals : option Totals) : option Totals :=
  match Nat.eqb (length buildings) 0, originalTotals with
  | true, _ | _, None => originalTotals
  | false, Some ot =>
    let totalArea := sumOver (fun b => JS.or_default (Solar.area_m2 b) 0) buildings in
    let capacityKw := sumOver (solarField Solar.capacity_kw) buildings in
    let annualMwh := sumOver (solarField Solar.annual_mwh) buildings in
    let annualRevenue := sumOver (solarField Solar.annual_revenue) buildings in
    let grossCost := sumOver (solarField Solar.gross_install_cost) buildings in
    let itcSavings := sumOver (solarField Solar.itc_savings) buildings in
    let installCost := sumOver (solarField Solar.install_cost) buildings in
    let annualOm := sumOver (solarField Solar.annual_om) buildings in
    let npv := sumOver (solarField Solar.npv_25yr) buildings in
    let co2 := sumOver (solarField Solar.co2_avoided_tons) buildings in
    let co2Lifetime := sumOver (solarField Solar.co2_avoided_lifetime_tons) buildings in
    let homes := sumOver (solarField Solar.homes_powered) buildings in
    let lifetimeMwh := sumOver (solarField Solar.lifetime_mwh) buildings in
    let netAnnual := annualRevenue - annualOm in
    let payback := paybackOf installCost netAnnual in
    Some {|
      capacity_factor := capacity_factor ot;
      building_count := inject_Z (Z.of_nat (length buildings));
      total_roof_area_m2 := JS.Math_round totalArea;
      capacity_kw := JS.Math_round (capacityKw * 10) / 10;
      capacity_mw := JS.Math_round (capacityKw / 100) / 10;
      annual_mwh := JS.Math_round (annualMwh * 10) / 10;
      annual_revenue := JS.Math_round annualRevenue;
      gross_install_cost := JS.Math_round grossCost;
      itc_savings := JS.Math_round itcSavings;
      install_cost := JS.Math_round installCost;
      annual_om := JS.Math_round annualOm;
      payback_years := option_map (fun p => JS.Math_round (p * 10) / 10) payback;
      npv_25yr := JS.Math_round npv;
      co2_avoided_tons := JS.Math_round (co2 * 10) / 10;
      co2_avoided_lifetime_tons := JS.Math_round co2Lifetime;
      homes_powered := JS.Math_round homes;
      lifetime_mwh := JS.Math_round lifetimeMwh
    |}
  end.

End HiddenBuildings.

(** ** The arithmetic of the estimate and of the payback in binary64 *)

Set Warnings "-inexact-float".

Module F64.

Import PrimFloat.
Local Open Scope float_scope.

(** From [2^52] on, a binary64 number has no fractional part. *)
Definition two52 : float := 0x1p52.

(** The largest integer that is not above [x], for an [x] of magnitude below
    [2^52]: adding and subtracting [2^52] rounds [x] to a nearest integer,
    which is one too large when it is above [x]. *)
Definition floor (x : float) : float :=
  let r := if 0 <=? x then (x + two52) - two52 else (x - two52) + two52 in
  if x <? r then r - 1 else r.

(** [Math.round(x)]: the integer nearest to [x], a tie going up.  [NaN], the
    infinities, the zeros and the numbers without a fractional part are
    returned as they are, and a result of magnitude 0 has the sign of [x]. *)
Definition Math_round (x : float) : float :=
  if is_nan x || (two52 <=? abs x) || (x =? 0) then x
  else
    let f := floor x in
    let r := if 0.5 <=? x - f then f + 1 else f in
    if (r =? 0) && (x <? 0) then -0 else r.

(** [x || d] on a number: [d] replaces a falsy [x], that is [0], [-0] or
    [NaN]. *)
Definition or_default (x d : float) : float :=
  if (x =? 0) || is_nan x then d else x.

Section Chain.

(** [cb.area_m2] and the four effective parameters. *)
Variables (area cf usable eff price : float).

Definition usableArea : float := area * usable.
Definition capacityKw : float := usableArea * eff / 1000.
Definition annualKwh : float := capacityKw * 8760 * cf.
Definition grossCost : float := capacityKw * 1000 * 1.40.
Definition itcSavings : float := grossCost * 0.30.
Definition installCost : float := grossCost - itcSavings.
Definition annualRevenue : float := annualKwh * price.
Definition annualOm : float := capacityKw * 15.
Definition payback : float :=
  if 0 <? annualRevenue - annualOm
  then installCost / (annualRevenue - annualOm)
  else 999.

(** The field [payback_years] of the object returned for one custom
    building. *)
Definition payback_years : float := Math_round (payback * 10) / 10.

End Chain.

(** The fields of [b.solar] that the payback of the totals reads. *)
Record SolarFields := mkSolarFields {
  annual_revenue : float;
  install_cost : float;
  annual_om : float
}.

(** A building of the list given to [recalcTotals]; [solar] is absent on a
    record that carries no estimate. *)
Record Building := mkBuilding { solar : option SolarFields }.

(** [b.solar?.f || 0]. *)
Definition solarField (f : SolarFields -> float) (b : Building) : float :=
  match solar b with
  | Some s => or_default (f s) 0
  | None => 0
  end.

(** [buildings.reduce((s, b) => s + g(b), 0)]. *)
Definition sumOver (g : Building -> float) (buildings : list Building) : float :=
  fold_left (fun s b => s + g b) buildings 0.

(** [netAnnual > 0 ? installCost / netAnnual : 999]. *)
Definition paybackOf (installCost netAnnual : float) : float :=
  if 0 <? netAnnual then installCost / netAnnual else 999.

(** The field [payback_years] of [recalcTotals(buildings, originalTotals)];
    of [originalTotals] only its own [payback_years] is kept. *)
Definition recalcTotals_payback_years (buildings : list Building)
    (originalTotals : option float) : option float :=
  match Nat.eqb (length buildings) 0, originalTotals with
  | true, _ | _, None => originalTotals
  | false, Some _ =>
    let annualRevenue := sumOver (solarField annual_revenue) buildings in
    let installCost := sumOver (solarField install_cost) buildings in
    let annualOm := sumOver (solarField annual_om) buildings in
    let netAnnual := annualRevenue - annualOm in
    let payback := paybackOf installCost netAnnual in
    Some (Math_round (payback * 10) / 10)
  end.

(** [Math.PI]. *)
Definition Math_PI : float := 0x1.921fb54442d18p+1.

(** [Math.sin], [Math.cos], [Math.sqrt], [Math.atan2] and the square
    [x ** 2]: the language fixes their results on special arguments only
    ([NaN], the zeros, the infinities) and leaves every other result to the
    implementation, as an approximation.  [None] stands for a result that is
    not fixed; of [Math.atan2] only the case of a [NaN] argument is given. *)
Definition Math_sin (x : float) : option float :=
  if is_nan x || (x =? 0) then Some x
  else if is_infinity x then Some nan
  else None.

Definition Math_cos (x : float) : option float :=
  if is_nan x || is_infinity x then Some nan
  else if x =? 0 then Some 1
  else None.

Definition Math_sqrt (x : float) : option float :=
  if is_nan x || (x =? 0) || (x =? infinity) then Some x
  else if x <? 0 then Some nan
  else None.

Definition Math_atan2 (y x : float) : option float :=
  if is_nan y || is_nan x then Some nan else None.

Definition square (x : float) : option float :=
  if is_nan x then Some nan
  else if is_infinity x then Some infinity
  else if x =? 0 then Some 0
  else None.

(** A step that needs the result of a call. *)
Definition andThen {A B : Type} (r : option A) (k : A -> option B) : option B :=
  match r with
  | Some v => k v
  | None => None
  end.

(** [haversineKm]: [None] when the result depends on a value that the
    language leaves to the implementation. *)
Definition haversineKm (lat1 lon1 lat2 lon2 : float) : option float :=
  let R := 6371 in
  let dLat := ((lat2 - lat1) * Math_PI) / 180 in
  let dLon := ((lon2 - lon1) * Math_PI) / 180 in
  andThen (Math_sin (dLat / 2)) (fun sLat =>
  andThen (square sLat) (fun sLat2 =>
  andThen (Math_cos ((lat1 * Math_PI) / 180)) (fun c1 =>
  andThen (Math_cos ((lat2 * Math_PI) / 180)) (fun c2 =>
  andThen (Math_sin (dLon / 2)) (fun sLon =>
  andThen (square sLon) (fun sLon2 =>
  let a := sLat2 + c1 * c2 * sLon2 in
  andThen (Math_sqrt a) (fun ra =>
  andThen (Math_sqrt (1 - a)) (fun rb =>
  andThen (Math_atan2 ra rb) (fun t =>
  Some (R * 2 * t)))))))))).

End F64.

(** ** The list and totals shown to the user ([HomePageClient.tsx], [data]) *)

Module HomePage.

Local Open Scope Q_scope.

(** [buildingKey(b)]: latitude, longitude and area identify a building. *)
Definition buildingKey (b : Solar.Building) : Q * Q * Q :=
  (Solar.lat b, Solar.lon b, Solar.area_m2 b).

Definition sameKey (k k' : Q * Q * Q) : bool :=
  Qeq_bool (fst (fst k)) (fst (fst k'))
  && Qeq_bool (snd (fst k)) (snd (fst k'))
  && Qeq_bool (snd k) (snd k').

(** [isHidden(b)]: [hiddenKeys.has(buildingKey(b))]. *)
Definition isHidden (hiddenKeys : list (Q * Q * Q)) (b : Solar.Building) : bool :=
  existsb (sameKey (buildingKey b)) hiddenKeys.

(** The answer of the server: [rawData.buildings] and [rawData.totals]. *)
Record RawData := mkRawData {
  raw_buildings : list Solar.Building;
  raw_totals : option HiddenBuildings.Totals
}.

(** The memoised [data]: hidden buildings filtered out, custom buildings
    appended with their estimate, totals recalculated when either occurs.
    [hiddenKeys] is the set of hidden keys, [hiddenCount] its size. *)
Definition data (rawData : RawData) (hiddenKeys : list (Q * Q * Q))
    (customBuildings : list Solar.Building) (usablePct panelEff : Z)
    (elecPriceQ : Q) : list Solar.Building * option HiddenBuildings.Totals :=
  let hiddenCount := length hiddenKeys in
  let buildings := raw_buildings rawData in
  let buildings :=
    if (0 <? hiddenCount)%nat
    then filter (fun b => negb (isHidden hiddenKeys b)) buildings
    else buildings in
  let buildings :=
    match (0 <? length customBuildings)%nat, raw_totals rawData with
    | true, Some totals =>
      buildings
      ++ map (Solar.customWithSolar (HiddenBuildings.capacity_factor totals)
                usablePct panelEff elecPriceQ) customBuildings
    | _, _ => buildings
    end in
  let newTotals :=
    if (0 <? hiddenCount)%nat || (0 <? length customBuildings)%nat
    then HiddenBuildings.recalcTotals buildings (raw_totals rawData)
    else raw_totals rawData in
  (buildings, newTotals).

End HomePage.

(** ** One entry of [localStorage] *)

Module LocalStorage.

(** The three calls that the hooks make on their entry.  [None] stands for
    an exception: a write throws when the storage is full or unavailable
    ([writable = false]), a read when the storage is unavailable or the text
    of the entry does not parse ([readable = false]).  Otherwise the result
    is the entry after the call, or the entry read. *)
Definition setItem {V : Type} (writable : bool) (v : V) : option (option V) :=
  if writable then Some (Some v) else None.

Definition removeItem {V : Type} (writable : bool) : option (option V) :=
  if writable then Some None else None.

Definition getItem {V : Type} (readable : bool) (entry : option V)
    : option (option V) :=
  if readable then Some entry else None.

End LocalStorage.

(** ** Geometry and storage of user-drawn buildings ([useCustomBuildings.ts]) *)

Module CustomBuildings.

Local Open Scope R_scope.

Record LatLng := mkLatLng { lat : R; lng : R }.

(** A projected point, in metres. *)
Record Pt := mkPt { x : R; y : R }.

(** Reading an array out of range gives [undefined], and reading a property
    of [undefined] throws: [None] stands for that [TypeError]. *)
Definition at_index {A : Type} (a : list A) (i : nat) : option A := nth_error a i.

(** [a.map(f)] for a callback that may throw. *)
Fixpoint mapM {A B : Type} (f : A -> option B) (a : list A) : option (list B) :=
  match a with
  | [] => Some []
  | v :: rest =>
    match f v with
    | None => None
    | Some w =>
      match mapM f rest with
      | None => None
      | Some ws => Some (w :: ws)
      end
    end
  end.

(** [Math.round] on a real. *)
Definition Math_round (v : R) : R := IZR (Zfloor (v + / 2)).

(** [Math.atan2(y, x)]. *)
Definition Math_atan2 (y x : R) : R :=
  if Rlt_dec 0 x then atan (y / x)
  else if Rlt_dec x 0 then
    (if Rle_dec 0 y then atan (y / x) + PI else atan (y / x) - PI)
  else if Rlt_dec 0 y then PI / 2
  else if Rlt_dec y 0 then - (PI / 2)
  else 0.

(** [latlngs.reduce((s, p) => s + p.lat, 0) / latlngs.length]. *)
Definition meanLatOf (latlngs : list LatLng) : R :=
  fold_left (fun s p => s + lat p) latlngs 0 / INR (length latlngs).

(** Earth radius in metres. *)
Definition R_m : R := 6371000.

(** The callback of [latlngs.map]: metres relative to the first point. *)
Definition toMetres (latlngs : list LatLng) (cosLat : R) (p : LatLng) : option Pt :=
  match at_index latlngs 0 with
  | None => None
  | Some p0 =>
    Some {| x := (lng p - lng p0) * (PI / 180) * R_m * cosLat;
            y := (lat p - lat p0) * (PI / 180) * R_m |}
  end.

(** One turn of the shoelace loop. *)
Definition shoelaceStep (pts : list Pt) (acc : option R) (i : nat) : option R :=
  let j := ((i + 1) mod length pts)%nat in
  match acc, at_index pts i, at_index pts j with
  | Some area, Some pi, Some pj =>
    Some (area + x pi * y pj - x pj * y pi)
  | _, _, _ => None
  end.

Definition shoelace (pts : list Pt) : option R :=
  fold_left (shoelaceStep pts) (seq 0 (length pts)) (Some 0).

Definition calcGeodesicArea (latlngs : list LatLng) : option R :=
  if (length latlngs <? 3)%nat then Some 0 else
  let meanLat := meanLatOf latlngs in
  let cosLat := cos (meanLat * PI / 180) in
  match mapM (toMetres latlngs cosLat) latlngs with
  | None => None
  | Some pts =>
    match shoelace pts with
    | None => None
    | Some area => Some (Rabs (area / 2))
    end
  end.

(** Earth radius in kilometres. *)
Definition R_km : R := 6371.

Definition haversineA (lat1 lon1 lat2 lon2 : R) : R :=
  let dLat := (lat2 - lat1) * PI / 180 in
  let dLon := (lon2 - lon1) * PI / 180 in
  sin (dLat / 2) ^ 2
  + cos (lat1 * PI / 180) * cos (lat2 * PI / 180) * sin (dLon / 2) ^ 2.

Definition haversineKm (lat1 lon1 lat2 lon2 : R) : R :=
  let a := haversineA lat1 lon1 lat2 lon2 in
  R_km * 2 * Math_atan2 (sqrt a) (sqrt (1 - a)).

(** A GeoJSON polygon: [coordinates] is a list of rings of [[lng, lat]]. *)
Record Geometry := mkGeometry { coordinates : list (list (R * R)) }.

Definition same_position (a b : R * R) : bool :=
  (if Req_dec_T (fst a) (fst b) then true else false)
  && (if Req_dec_T (snd a) (snd b) then true else false).

Definition latlngsToGeoJSON (latlngs : list LatLng) : Geometry :=
  let ring := map (fun p => (lng p, lat p)) latlngs in
  let ring' :=
    match ring with
    | [] => ring
    | first :: _ =>
      if same_position first (last ring first) then ring
      else ring ++ [(fst first, snd first)]
    end in
  {| coordinates := [ring'] |}.

Definition centroid (latlngs : list LatLng) : LatLng :=
  {| lat := fold_left (fun s p => s + lat p) latlngs 0 / INR (length latlngs);
     lng := fold_left (fun s p => s + lng p) latlngs 0 / INR (length latlngs) |}.

(** The fields [lat] and [lon] of a custom building are named [cb_lat] and
    [cb_lon] here, [isCustom] is [cb_isCustom]. *)
Record CustomBuilding := mkCustomBuilding {
  id : String.string;
  geometry : Geometry;
  area_m2 : R;
  cb_lat : R;
  cb_lon : R;
  distance_km : R;
  cb_isCustom : bool;
  label : option String.string
}.

(** The state of the hook: the React state [buildings] and the entry
    [custom_buildings_<airport>] of [localStorage]. *)
Record Store := mkStore {
  buildings : list CustomBuilding;
  stored : option (list CustomBuilding)
}.

(** [persist(items)]: the entry after the call.  The [catch] swallows the
    exception of a failed write, and the entry stays as it was. *)
Definition persist (writable : bool) (entry : option (list CustomBuilding))
    (items : list CustomBuilding) : option (list CustomBuilding) :=
  match (if (0 <? length items)%nat
         then LocalStorage.setItem writable items
         else LocalStorage.removeItem writable) with
  | Some entry' => entry'
  | None => entry
  end.

(** What a call does: it throws, or it returns a value and leaves a state. *)
Inductive Outcome (A : Type) :=
| Threw
| Returned (value : A) (st : Store).
Arguments Threw {A}.
Arguments Returned {A} value st.

(** [addBuilding(latlngs, label)]; [newId] is the identifier drawn from the
    clock and the random generator, [writable] the outcome of the write that
    [persist] attempts. *)
Definition addBuilding (airportCenter : R * R) (newId : String.string)
    (writable : bool) (st : Store) (latlngs : list LatLng)
    (lbl : option String.string)
    : Outcome (option CustomBuilding) :=
  if (length latlngs <? 3)%nat then Returned None st else
  match calcGeodesicArea latlngs with
  | None => Threw
  | Some area =>
    if Rlt_dec area 1 then Returned None st else
    let center := centroid latlngs in
    let dist := haversineKm (fst airportCenter) (snd airportCenter)
                  (lat center) (lng center) in
    let building := {|
      id := newId;
      geometry := latlngsToGeoJSON latlngs;
      area_m2 := Math_round area;
      cb_lat := Math_round (lat center * 10000) / 10000;
      cb_lon := Math_round (lng center * 10000) / 10000;
      distance_km := Math_round (dist * 100) / 100;
      cb_isCustom := true;
      label := lbl |} in
    let next := buildings st ++ [building] in
    Returned (Some building)
      {| buildings := next; stored := persist writable (stored st) next |}
  end.

End CustomBuildings.

(** ** Hiding buildings ([useHiddenBuildings]) *)

Module UseHiddenBuildings.

Local Open Scope Q_scope.

(** A key of the set: the string [`${lat}_${lon}_${area_m2}`], which is the
    same for two buildings exactly when the three numbers are equal. *)
Definition Key : Type := (Q * Q * Q)%type.

(** A [Set<string>] keeps its elements in insertion order: [has], [add] and
    [delete]. *)
Definition has (keys : list Key) (k : Key) : bool :=
  existsb (HomePage.sameKey k) keys.

Definition add (keys : list Key) (k : Key) : list Key :=
  if has keys k then keys else keys ++ [k].

Definition delete (keys : list Key) (k : Key) : list Key :=
  filter (fun k' => negb (HomePage.sameKey k k')) keys.

(** [new Set(array)]. *)
Definition ofList (l : list Key) : list Key := fold_left add l [].

(** The state of the hook: [hiddenKeys] and the entry
    [hidden_buildings_<airport>] of [localStorage], which holds
    [Array.from(keys)]. *)
Record State := mkState {
  hiddenKeys : list Key;
  stored : option (list Key)
}.

(** [persist(keys)]: the entry after the call.  The [catch] swallows the
    exception of a failed write, and the entry stays as it was. *)
Definition persist (writable : bool) (entry : option (list Key))
    (keys : list Key) : option (list Key) :=
  match (if (0 <? length keys)%nat
         then LocalStorage.setItem writable keys
         else LocalStorage.removeItem writable) with
  | Some entry' => entry'
  | None => entry
  end.

(** The effect that loads the set when the airport changes: the set is
    empty when there is no entry and when reading it throws. *)
Definition load (readable : bool) (entry : option (list Key)) : list Key :=
  match LocalStorage.getItem readable entry with
  | Some (Some l) => ofList l
  | Some None => []
  | None => []
  end.

(** The four operations; [writable] is the outcome of the write that
    [persist] attempts. *)
Definition hideBuilding (writable : bool) (st : State)
    (building : Solar.Building) : State :=
  let next := add (hiddenKeys st) (HomePage.buildingKey building) in
  {| hiddenKeys := next; stored := persist writable (stored st) next |}.

Definition hideMultiple (writable : bool) (st : State)
    (buildings : list Solar.Building) : State :=
  let next :=
    fold_left (fun acc b => add acc (HomePage.buildingKey b)) buildings
      (hiddenKeys st) in
  {| hiddenKeys := next; stored := persist writable (stored st) next |}.

Definition restoreBuilding (writable : bool) (st : State) (key : Key) : State :=
  let next := delete (hiddenKeys st) key in
  {| hiddenKeys := next; stored := persist writable (stored st) next |}.

Definition restoreAll (writable : bool) (st : State) : State :=
  {| hiddenKeys := []; stored := persist writable (stored st) [] |}.

Definition isHidden (st : State) (building : Solar.Building) : bool :=
  has (hiddenKeys st) (HomePage.buildingKey building).

Definition hiddenCount (st : State) : nat := length (hiddenKeys st).

End UseHiddenBuildings.

(** ** Removing and reloading custom buildings ([useCustomBuildings]) *)

Module UseCustomBuildings.

Import CustomBuildings.

(** The effect that loads the list when the airport changes: the list is
    empty when there is no entry and when reading it throws. *)
Definition load (readable : bool) (entry : option (list CustomBuilding))
    : list CustomBuilding :=
  match LocalStorage.getItem readable entry with
  | Some (Some items) => items
  | Some None => []
  | None => []
  end.

(** [writable] is the outcome of the write that [persist] attempts. *)
Definition removeBuilding (writable : bool) (st : Store) (id : String.string)
    : Store :=
  let next :=
    filter (fun b => negb (String.eqb (CustomBuildings.id b) id)) (buildings st) in
  {| buildings := next; stored := persist writable (stored st) next |}.

Definition removeAll (writable : bool) (st : Store) : Store :=
  {| buildings := []; stored := persist writable (stored st) [] |}.

Definition customCount (st : Store) : nat := length (buildings st).

End UseCustomBuildings.

(** ** Drawing a building on the map ([BuildingMap.tsx]) *)

Module Drawing.

Import CustomBuildings.

Inductive DrawMode := none | polygon | rectangle.

(** [drawMode] and [drawPoints] of the map component, and the first corner
    that the drawing handler keeps in [rectStartRef] while it is mounted. *)
Record DrawState := mkDrawState {
  drawMode : DrawMode;
  drawPoints : list LatLng;
  rectStart : option LatLng
}.

Inductive Event :=
| DrawShape                  (* the toolbar button "Draw Shape" *)
| DrawRectangle              (* the toolbar button "Draw Rectangle" *)
| Click (latlng : LatLng)    (* a click on the map *)
| KeyEnter
| KeyEscape
| Done                       (* the button "Done" *)
| Cancel.                    (* the button "Cancel" *)

(** The four corners of the rectangle between two clicks. *)
Definition rectangleCorners (start end_ : LatLng) : list LatLng :=
  [ {| lat := lat start; lng := lng start |};
    {| lat := lat start; lng := lng end_ |};
    {| lat := lat end_; lng := lng end_ |};
    {| lat := lat end_; lng := lng start |} ].

(** [handleDrawComplete(directPoints)]: the second component is the list
    handed to [onDrawComplete], if any.  Leaving the drawing mode unmounts
    the handler, which drops its first corner. *)
Definition handleDrawComplete (st : DrawState) (directPoints : option (list LatLng))
    : DrawState * option (list LatLng) :=
  let pts := match directPoints with
             | Some direct => direct
             | None => drawPoints st
             end in
  let sent :=
    if (3 <=? length pts)%nat
    then Some (map (fun p => {| lat := lat p; lng := lng p |}) pts)
    else None in
  ({| drawMode := none; drawPoints := []; rectStart := None |}, sent).

Definition handleDrawCancel (st : DrawState) : DrawState :=
  {| drawMode := none; drawPoints := []; rectStart := None |}.

(** What one event does.  The toolbar buttons exist only while nothing is
    drawn; the handler of clicks and keys and the buttons "Done" and "Cancel"
    only while something is; "Done" is disabled below three points. *)
Definition step (st : DrawState) (ev : Event) : DrawState * option (list LatLng) :=
  match drawMode st, ev with
  | none, DrawShape =>
    ({| drawMode := polygon; drawPoints := drawPoints st; rectStart := None |}, None)
  | none, DrawRectangle =>
    ({| drawMode := rectangle; drawPoints := drawPoints st; rectStart := None |}, None)
  | none, _ => (st, None)
  | polygon, Click latlng =>
    ({| drawMode := polygon; drawPoints := drawPoints st ++ [latlng];
        rectStart := rectStart st |}, None)
  | rectangle, Click latlng =>
    match rectStart st with
    | None =>
      ({| drawMode := rectangle; drawPoints := [latlng];
          rectStart := Some latlng |}, None)
    | Some start =>
      handleDrawComplete
        {| drawMode := rectangle; drawPoints := drawPoints st; rectStart := None |}
        (Some (rectangleCorners start latlng))
    end
  | polygon, KeyEnter =>
    if (3 <=? length (drawPoints st))%nat then handleDrawComplete st None
    else (st, None)
  | rectangle, KeyEnter => (st, None)
  | polygon, Done =>
    if (length (drawPoints st) <? 3)%nat then (st, None)
    else handleDrawComplete st None
  | rectangle, Done => (st, None)
  | _, KeyEscape | _, Cancel => (handleDrawCancel st, None)
  | _, DrawShape | _, DrawRectangle => (st, None)
  end.

(** The page hands a completed drawing to [addBuilding], without a label. *)
Definition handleDrawCompletePage (airportCenter : R * R) (newId : String.string)
    (writable : bool) (store : Store) (latlngs : list LatLng)
    : Outcome (option CustomBuilding) :=
  addBuilding airportCenter newId writable store latlngs None.

End Drawing.

(** ** The panel of selected buildings ([BuildingDetailPanel], which the
    sources hold in the file [ComparisonChart.tsx], lines 165 to 192) *)

Module BuildingDetailPanel.

Local Open Scope Q_scope.

(** The combined figures of a selection of more than one building. *)
Record Combined := mkCombined {
  count : nat;
  area_m2 : Q;
  usable_area_m2 : Q;
  capacity_kw : Q;
  annual_mwh : Q;
  annual_revenue : Q;
  gross_install_cost : Q;
  itc_savings : Q;
  install_cost : Q;
  annual_om : Q;
  co2_avoided_tons : Q;
  co2_avoided_lifetime_tons : Q;
  homes_powered : Q;
  lifetime_mwh : Q
}.

(** [combined]: [null] unless more than one building is selected. *)
Definition combined (buildings : list Solar.Building) : option Combined :=
  if (1 <? length buildings)%nat then
    Some {|
      count := length buildings;
      area_m2 :=
        HiddenBuildings.sumOver (fun b => JS.or_default (Solar.area_m2 b) 0) buildings;
      usable_area_m2 :=
        HiddenBuildings.sumOver (HiddenBuildings.solarField Solar.usable_area_m2) buildings;
      capacity_kw :=
        HiddenBuildings.sumOver (HiddenBuildings.solarField Solar.capacity_kw) buildings;
      annual_mwh :=
        HiddenBuildings.sumOver (HiddenBuildings.solarField Solar.annual_mwh) buildings;
      annual_revenue :=
        HiddenBuildings.sumOver (HiddenBuildings.solarField Solar.annual_revenue) buildings;
      gross_install_cost :=
        HiddenBuildings.sumOver (HiddenBuildings.solarField Solar.gross_install_cost) buildings;
      itc_savings :=
        HiddenBuildings.sumOver (HiddenBuildings.solarField Solar.itc_savings) buildings;
      install_cost :=
        HiddenBuildings.sumOver (HiddenBuildings.solarField Solar.install_cost) buildings;
      annual_om :=
        HiddenBuildings.sumOver (HiddenBuildings.solarField Solar.annual_om) buildings;
      co2_avoided_tons :=
        HiddenBuildings.sumOver (HiddenBuildings.solarField Solar.co2_avoided_tons) buildings;
      co2_avoided_lifetime_tons :=
        HiddenBuildings.sumOver
          (HiddenBuildings.solarField Solar.co2_avoided_lifetime_tons) buildings;
      homes_powered :=
        HiddenBuildings.sumOver (HiddenBuildings.solarField Solar.homes_powered) buildings;
      lifetime_mwh :=
        HiddenBuildings.sumOver (HiddenBuildings.solarField Solar.lifetime_mwh) buildings
    |}
  else None.

(** [netRevenue > 0 ? combined.install_cost / netRevenue : 999]. *)
Definition payback (c : Combined) : option Q :=
  let netRevenue := annual_revenue c - annual_om c in
  if Qlt_le_dec 0 netRevenue then JS.div (install_cost c) netRevenue
  else Some 999.

End BuildingDetailPanel.

(** ** Selecting buildings ([SingleAirportView]) *)

Module Selection.

(** [selectedKeys]: [new Set(selectedBuildings.map(b => bKey(b)))]. *)
Definition selectedKeys (selectedBuildings : list Solar.Building)
    : list UseHiddenBuildings.Key :=
  UseHiddenBuildings.ofList (map HomePage.buildingKey selectedBuildings).

(** The updater of [handleToggleSelect]. *)
Definition handleToggleSelect (prev : list Solar.Building)
    (building : Solar.Building) : list Solar.Building :=
  let key := HomePage.buildingKey building in
  let exists_ := existsb (fun b => HomePage.sameKey (HomePage.buildingKey b) key) prev in
  if exists_
  then filter (fun b => negb (HomePage.sameKey (HomePage.buildingKey b) key)) prev
  else prev ++ [building].

(** The updater of [handleSelectPage]. *)
Definition handleSelectPage (prev : list Solar.Building)
    (buildings : list Solar.Building) (selected : bool) : list Solar.Building :=
  let pageKeys := UseHiddenBuildings.ofList (map HomePage.buildingKey buildings) in
  if selected then
    let existingKeys := UseHiddenBuildings.ofList (map HomePage.buildingKey prev) in
    let toAdd :=
      filter (fun b => negb (UseHiddenBuildings.has existingKeys
                               (HomePage.buildingKey b))) buildings in
    prev ++ toAdd
  else
    filter (fun b => negb (UseHiddenBuildings.has pageKeys
                             (HomePage.buildingKey b))) prev.

End Selection.

(** ** The table of buildings ([DataTable]) *)

Module DataTable.

Local Open Scope Q_scope.

Inductive SortField :=
| f_area_m2 | f_distance_km | f_capacity_kw | f_annual_mwh | f_annual_revenue
| f_payback_years.

Inductive SortDirection := asc | desc.

Definition PAGE_SIZE : Z := 25.

(** The value that the comparator reads.  A payback that is absent or not a
    number is falsy, so it reads as 999. *)
Definition sortValue (sortField : SortField) (a : Solar.Building) : Q :=
  match sortField with
  | f_area_m2 => Solar.area_m2 a
  | f_distance_km => Solar.distance_km a
  | f_capacity_kw => HiddenBuildings.solarField Solar.capacity_kw a
  | f_annual_mwh => HiddenBuildings.solarField Solar.annual_mwh a
  | f_annual_revenue => HiddenBuildings.solarField Solar.annual_revenue a
  | f_payback_years =>
    match Solar.solar a with
    | Some s =>
      match Solar.payback_years s with
      | Some v => JS.or_default v 999
      | None => 999
      end
    | None => 999
    end
  end.

(** The comparator: [sortDirection === 'asc' ? aVal - bVal : bVal - aVal]. *)
Definition compare (sortField : SortField) (sortDirection : SortDirection)
    (a b : Solar.Building) : Q :=
  let aVal := sortValue sortField a in
  let bVal := sortValue sortField b in
  match sortDirection with
  | asc => aVal - bVal
  | desc => bVal - aVal
  end.

(** [Array.prototype.sort] is a stable sort: an element goes before the first
    element that the comparator does not put before it. *)
Fixpoint insert (cmp : Solar.Building -> Solar.Building -> Q)
    (v : Solar.Building) (sorted : list Solar.Building) : list Solar.Building :=
  match sorted with
  | [] => [v]
  | w :: rest =>
    if Qle_bool (cmp v w) 0 then v :: w :: rest else w :: insert cmp v rest
  end.

Definition sort (cmp : Solar.Building -> Solar.Building -> Q)
    (a : list Solar.Building) : list Solar.Building :=
  fold_right (insert cmp) [] a.

Definition sortedBuildings (buildings : list Solar.Building)
    (sortField : SortField) (sortDirection : SortDirection) : list Solar.Building :=
  sort (compare sortField sortDirection) buildings.

(** [a.slice(start, end)]: a negative index counts from the end. *)
Definition slice {A : Type} (a : list A) (start end_ : Z) : list A :=
  let len := Z.of_nat (length a) in
  let rel i := if (i <? 0)%Z then Z.max (len + i) 0 else Z.min i len in
  let from := rel start in
  let to := rel end_ in
  firstn (Z.to_nat (to - from)) (skipn (Z.to_nat from) a).

(** [Math.ceil(sortedBuildings.length / PAGE_SIZE)]. *)
Definition totalPages (sorted : list Solar.Building) : Z :=
  Qceiling (inject_Z (Z.of_nat (length sorted)) / inject_Z PAGE_SIZE).

Definition pagedBuildings (sorted : list Solar.Building) (page : Z)
    : list Solar.Building :=
  slice sorted (page * PAGE_SIZE) ((page + 1) * PAGE_SIZE).

(** The state of the table. *)
Record TableState := mkTableState {
  sortField : SortField;
  sortDirection : SortDirection;
  page : Z
}.

Definition sortField_eqb (f g : SortField) : bool :=
  match f, g with
  | f_area_m2, f_area_m2 | f_distance_km, f_distance_km
  | f_capacity_kw, f_capacity_kw | f_annual_mwh, f_annual_mwh
  | f_annual_revenue, f_annual_revenue | f_payback_years, f_payback_years => true
  | _, _ => false
  end.

Definition handleSort (st : TableState) (field : SortField) : TableState :=
  if sortField_eqb field (sortField st) then
    {| sortField := sortField st;
       sortDirection := match sortDirection st with asc => desc | desc => asc end;
       page := 0 |}
  else {| sortField := field; sortDirection := desc; page := 0 |}.

(** The buttons "previous" and "next". *)
Definition previousPage (p : Z) : Z := Z.max 0 (p - 1).
Definition nextPage (total p : Z) : Z := Z.min (total - 1) (p + 1).

(** The page that the [i]-th numbered button leads to. *)
Definition pageNum (total page i : Z) : Z :=
  if (total <=? 7)%Z then i
  else if (page <? 4)%Z then i
  else if (total - 4 <? page)%Z then total - 7 + i
  else page - 3 + i.

(** The numbered buttons: [Array.from({ length: Math.min(totalPages, 7) })]. *)
Definition pageButtons (total page : Z) : list Z :=
  map (fun i => pageNum total page (Z.of_nat i))
    (seq 0 (Z.to_nat (Z.min total 7))).

(** The state of the checkbox of the page, when selection is enabled. *)
Definition pageAllSelected (paged : list Solar.Building)
    (selectedKeys : list UseHiddenBuildings.Key) : bool :=
  (0 <? length paged)%nat
  && forallb (fun b => UseHiddenBuildings.has selectedKeys
                         (HomePage.buildingKey b)) paged.

Definition pageSomeSelected (paged : list Solar.Building)
    (selectedKeys : list UseHiddenBuildings.Key) : bool :=
  existsb (fun b => UseHiddenBuildings.has selectedKeys
                      (HomePage.buildingKey b)) paged
  && negb (pageAllSelected paged selectedKeys).

End DataTable.

(** ** The airports to compare ([HomePageClient.tsx], [MultiSelect]) *)

Module CompareCodes.

Import String Ascii.
Local Open Scope string_scope.

(** [s.split(',')]. *)
Fixpoint split (s : string) : list string :=
  match s with
  | EmptyString => [EmptyString]
  | String c rest =>
    if Ascii.eqb c ","%char then EmptyString :: split rest
    else match split rest with
         | piece :: pieces => String c piece :: pieces
         | [] => [String c EmptyString]
         end
  end.

(** [arr.join(',')]. *)
Fixpoint join (arr : list string) : string :=
  match arr with
  | [] => EmptyString
  | [c] => c
  | c :: rest => c ++ String ","%char (join rest)
  end.

Section Codes.

(** [c.trim().toUpperCase()], as the string library does it. *)
Variable normalize : string -> string.

(** [compareArray]: the codes of the URL parameter [compare]. *)
Definition compareArray (compareCodes : string) : list string :=
  if String.eqb compareCodes EmptyString then []
  else map normalize
         (filter (fun c => negb (String.eqb c EmptyString)) (split compareCodes)).

(** [setCompareArray(arr)]: the new value of the URL parameter. *)
Definition setCompareArray (arr : list string) : string := join arr.

End Codes.

End CompareCodes.

Module MultiSelect.

Record Option_ := mkOption { value : String.string; label : String.string }.

(** [values.includes(v)]. *)
Definition includes (values : list String.string) (v : String.string) : bool :=
  existsb (String.eqb v) values.

Section Component.

(** [label.toLowerCase().includes(search.toLowerCase())], as the string
    library does it. *)
Variable containsIgnoringCase : String.string -> String.string -> bool.

Definition filteredOptions (options : list Option_) (search : String.string)
    (values : list String.string) : list Option_ :=
  filter (fun o => containsIgnoringCase (label o) search
                   && negb (includes values (value o))) options.

End Component.

(** The handlers give the list passed to [onChange], if [onChange] is
    called. *)
Definition handleAdd (values : list String.string) (max : nat)
    (v : String.string) : option (list String.string) :=
  if (length values <? max)%nat then Some (values ++ [v]) else None.

Definition handleRemove (values : list String.string) (v : String.string)
    : option (list String.string) :=
  Some (filter (fun w => negb (String.eqb w v)) values).

(** [handleKeyDown] on the key Backspace: [values.slice(0, -1)]. *)
Definition handleBackspace (values : list String.string) (search : String.string)
    : option (list String.string) :=
  if String.eqb search String.EmptyString && (0 <? length values)%nat
  then Some (removelast values) else None.

(** The values after a handler ran: those passed to [onChange], or the old
    ones. *)
Definition after (values : list String.string)
    (change : option (list String.string)) : list String.string :=
  match change with
  | Some next => next
  | None => values
  end.

End MultiSelect.

(** ** Predicates used to state the properties *)

Module Props.

Local Open Scope Q_scope.

(** Every metric of an estimate is zero and the payback is the sentinel. *)
Definition all_zero_metrics (s : Solar.Solar) : Prop :=
  Solar.usable_area_m2 s == 0 /\ Solar.capacity_kw s == 0 /\
  Solar.capacity_mw s == 0 /\ Solar.annual_kwh s == 0 /\
  Solar.annual_mwh s == 0 /\ Solar.annual_revenue s == 0 /\
  Solar.gross_install_cost s == 0 /\ Solar.itc_savings s == 0 /\
  Solar.install_cost s == 0 /\ Solar.annual_om s == 0 /\
  Solar.npv_25yr s == 0 /\ Solar.co2_avoided_tons s == 0 /\
  Solar.co2_avoided_lifetime_tons s == 0 /\ Solar.homes_powered s == 0 /\
  Solar.lifetime_mwh s == 0 /\
  JS.num_eq (Solar.payback_years s) (Some 999).

(** Rounding to one decimal, as the output does: [Math.round(v * 10) / 10]. *)
Definition round1 (v : Q) : Q := JS.Math_round (v * 10) / 10.

(** Two totals agree on every field that [recalcTotals] assigns. *)
Definition same_aggregates (t u : HiddenBuildings.Totals) : Prop :=
  HiddenBuildings.building_count t = HiddenBuildings.building_count u /\
  HiddenBuildings.total_roof_area_m2 t = HiddenBuildings.total_roof_area_m2 u /\
  HiddenBuildings.capacity_kw t = HiddenBuildings.capacity_kw u /\
  HiddenBuildings.capacity_mw t = HiddenBuildings.capacity_mw u /\
  HiddenBuildings.annual_mwh t = HiddenBuildings.annual_mwh u /\
  HiddenBuildings.annual_revenue t = HiddenBuildings.annual_revenue u /\
  HiddenBuildings.gross_install_cost t = HiddenBuildings.gross_install_cost u /\
  HiddenBuildings.itc_savings t = HiddenBuildings.itc_savings u /\
  HiddenBuildings.install_cost t = HiddenBuildings.install_cost u /\
  HiddenBuildings.annual_om t = HiddenBuildings.annual_om u /\
  HiddenBuildings.payback_years t = HiddenBuildings.payback_years u /\
  HiddenBuildings.npv_25yr t = HiddenBuildings.npv_25yr u /\
  HiddenBuildings.co2_avoided_tons t = HiddenBuildings.co2_avoided_tons u /\
  HiddenBuildings.co2_avoided_lifetime_tons t
    = HiddenBuildings.co2_avoided_lifetime_tons u /\
  HiddenBuildings.homes_powered t = HiddenBuildings.homes_powered u /\
  HiddenBuildings.lifetime_mwh t = HiddenBuildings.lifetime_mwh u.

(** A building as the server sends it: the estimate carries the net present
    value that the server computed. *)
Definition with_npv (v : Q) (b : Solar.Building) : Solar.Building :=
  {| Solar.area_m2 := Solar.area_m2 b;
     Solar.lat := Solar.lat b;
     Solar.lon := Solar.lon b;
     Solar.distance_km := Solar.distance_km b;
     Solar.isCustom := false;
     Solar.solar :=
       option_map (fun s =>
         {| Solar.usable_area_m2 := Solar.usable_area_m2 s;
            Solar.capacity_kw := Solar.capacity_kw s;
            Solar.capacity_mw := Solar.capacity_mw s;
            Solar.annual_kwh := Solar.annual_kwh s;
            Solar.annual_mwh := Solar.annual_mwh s;
            Solar.capacity_factor := Solar.capacity_factor s;
            Solar.annual_revenue := Solar.annual_revenue s;
            Solar.gross_install_cost := Solar.gross_install_cost s;
            Solar.itc_savings := Solar.itc_savings s;
            Solar.install_cost := Solar.install_cost s;
            Solar.annual_om := Solar.annual_om s;
            Solar.payback_years := Solar.payback_years s;
            Solar.npv_25yr := v;
            Solar.co2_avoided_tons := Solar.co2_avoided_tons s;
            Solar.co2_avoided_lifetime_tons := Solar.co2_avoided_lifetime_tons s;
            Solar.homes_powered := Solar.homes_powered s;
            Solar.lifetime_mwh := Solar.lifetime_mwh s;
            Solar.cost_per_watt := Solar.cost_per_watt s;
            Solar.itc_rate := Solar.itc_rate s;
            Solar.discount_rate := Solar.discount_rate s;
            Solar.degradation_rate := Solar.degradation_rate s |})
         (Solar.solar b) |}.

(** Sample data: a drawn building of 10,000 m2, its estimate with the
    default parameters, and totals as a server could send them for a
    larger set of buildings. *)
Definition drawn10000 : Solar.Building :=
  {| Solar.area_m2 := 10000; Solar.lat := 33.64; Solar.lon := -84.43;
     Solar.distance_km := 1.2; Solar.isCustom := true; Solar.solar := None |}.
Definition estimated10000 : Solar.Building :=
  Solar.customWithSolar 0.168 65 200 0.12 drawn10000.
Definition sampleTotals : HiddenBuildings.Totals :=
  {| HiddenBuildings.capacity_factor := 0.168;
     HiddenBuildings.building_count := 2;
     HiddenBuildings.total_roof_area_m2 := 20000;
     HiddenBuildings.capacity_kw := 2600;
     HiddenBuildings.capacity_mw := 2.6;
     HiddenBuildings.annual_mwh := 3826.4;
     HiddenBuildings.annual_revenue := 459164;
     HiddenBuildings.gross_install_cost := 3640000;
     HiddenBuildings.itc_savings := 1092000;
     HiddenBuildings.install_cost := 2548000;
     HiddenBuildings.annual_om := 39000;
     HiddenBuildings.payback_years := Some 6.1;
     HiddenBuildings.npv_25yr := 2600000;
     HiddenBuildings.co2_avoided_tons := 1477;
     HiddenBuildings.co2_avoided_lifetime_tons := 36924;
     HiddenBuildings.homes_powered := 364;
     HiddenBuildings.lifetime_mwh := 95658 |}.

(** An answer of the server with two buildings (at one position) and the
    totals over them. *)
Definition rawSample : HomePage.RawData :=
  {| HomePage.raw_buildings := [with_npv 1300000 estimated10000;
                                with_npv 1300000 estimated10000];
     HomePage.raw_totals := Some sampleTotals |}.

End Props.

(** ** Auxiliary notions for the geometry *)

Module GeoProps.

Local Open Scope R_scope.
Import CustomBuildings.

Definition origin : Pt := {| x := 0; y := 0 |}.

(** The projection of [toMetres] once the first point [p0] is known. *)
Definition project (p0 : LatLng) (cosLat : R) (p : LatLng) : Pt :=
  {| x := (lng p - lng p0) * (PI / 180) * R_m * cosLat;
     y := (lat p - lat p0) * (PI / 180) * R_m |}.

(** One turn of the shoelace loop when both reads are in range. *)
Definition crossStep (pts : list Pt) (area : R) (i : nat) : R :=
  let pi := nth i pts origin in
  let pj := nth ((i + 1) mod length pts) pts origin in
  area + x pi * y pj - x pj * y pi.

Definition shoelaceSum (pts : list Pt) : R :=
  fold_left (crossStep pts) (seq 0 (length pts)) 0.

(** All vertices moved by the same offset in latitude and longitude. *)
Definition translate (dlat dlng : R) (latlngs : list LatLng) : list LatLng :=
  map (fun p => {| lat := lat p + dlat; lng := lng p + dlng |}) latlngs.

(** The area that the shoelace formula gives when the projection does not
    shrink the longitudes (the cosine of the mean latitude taken as 1). *)
Definition unitArea (latlngs : list LatLng) : R :=
  Rabs (shoelaceSum
          (map (project (hd {| lat := 0; lng := 0 |} latlngs) 1) latlngs) / 2).

(** At most two distinct points occur in the list. *)
Definition fewer_than_3_distinct (latlngs : list LatLng) : Prop :=
  exists a b : LatLng, forall p, In p latlngs -> p = a \/ p = b.

(** A triangle of building scale astride the equator, about 111 m wide and
    222 m high. *)
Definition triangle : list LatLng :=
  [ {| lat := - (1 / 1000); lng := 0 |};
    {| lat := 0; lng := 1 / 1000 |};
    {| lat := 1 / 1000; lng := 0 |} ].

End GeoProps.

(** ** Auxiliary notions for the hooks *)

Module HookProps.

(** No two keys of the list are the same key. *)
Fixpoint distinctKeys (keys : list UseHiddenBuildings.Key) : Prop :=
  match keys with
  | [] => True
  | k :: rest => UseHiddenBuildings.has rest k = false /\ distinctKeys rest
  end.

(** A state of the hidden-buildings hook with two hidden buildings. *)
Definition twoHidden : UseHiddenBuildings.State :=
  {| UseHiddenBuildings.hiddenKeys := [(1, 2, 3); (4, 5, 6)]%Q;
     UseHiddenBuildings.stored := Some [(1, 2, 3); (4, 5, 6)]%Q |}.

End HookProps.

(** ** Auxiliary notions for the texts *)

Module TextProps.

(** The string holds no comma. *)
Fixpoint commaFree (s : String.string) : bool :=
  match s with
  | String.EmptyString => true
  | String.String c rest => negb (Ascii.eqb c (Ascii.Ascii false false true true false true false false))
                            && commaFree rest
  end.

(** A code that the URL parameter gives back as it is: not empty, without a
    comma, and left alone by [normalize]. *)
Definition plainCode (normalize : String.string -> String.string)
    (c : String.string) : Prop :=
  c <> String.EmptyString /\ commaFree c = true /\ normalize c = c.

(** Two airport codes, ATL and JFK, and the option that offers JFK. *)
Definition ATL : String.string :=
  String.String (Ascii.Ascii true false false false false false true false)
    (String.String (Ascii.Ascii false false true false true false true false)
       (String.String (Ascii.Ascii false false true true false false true false)
          String.EmptyString)).
Definition JFK : String.string :=
  String.String (Ascii.Ascii false true false true false false true false)
    (String.String (Ascii.Ascii false true true false false false true false)
       (String.String (Ascii.Ascii true true false true false false true false)
          String.EmptyString)).
Definition optionJFK : MultiSelect.Option_ :=
  {| MultiSelect.value := JFK; MultiSelect.label := JFK |}.

End TextProps.

(** ** Auxiliary notions for the order of the vertices *)

Module PolygonProps.

Local Open Scope R_scope.
Import CustomBuildings.

(** The same polygon drawn from its second vertex. *)
Definition rot1 {A : Type} (l : list A) : list A :=
  match l with
  | [] => []
  | p :: rest => rest ++ [p]
  end.

(** The vertices followed by the first one again. *)
Definition closedPath {A : Type} (l : list A) : list A :=
  match l with
  | [] => []
  | p :: rest => p :: rest ++ [p]
  end.

Definition cross (p q : Pt) : R := x p * y q - x q * y p.

(** The sum of the cross products along a path. *)
Fixpoint pathSum (path : list Pt) : R :=
  match path with
  | [] => 0
  | a :: rest =>
    match rest with
    | [] => 0
    | b :: _ => cross a b + pathSum rest
    end
  end.

Definition shift (v p : Pt) : Pt := {| x := x p - x v; y := y p - y v |}.

End PolygonProps.

(** * Properties *)

(** ** Rounding and defaults *)

(** Division by a numeral becomes multiplication by its inverse, so that
    linear arithmetic applies. *)
Ltac q_consts :=
  unfold Qdiv in *;
  repeat match goal with
  | |- context [Qinv (?n # ?d)] =>
    let v := eval vm_compute in (Qinv (n # d)) in
    progress change (Qinv (n # d)) with v
  end.

Section JSFacts.

Local Open Scope Q_scope.

Lemma or_default_zero (v : Q) : JS.or_default v 0 == v.
Proof.
  unfold JS.or_default. destruct (Qeq_bool v 0) eqn:E.
  - apply Qeq_bool_iff in E. symmetry. exact E.
  - reflexivity.
Qed.

Lemma or_default_nonzero (v d : Q) : ~ v == 0 -> JS.or_default v d = v.
Proof.
  intros H. unfold JS.or_default. destruct (Qeq_bool v 0) eqn:E.
  - apply Qeq_bool_iff in E. contradiction.
  - reflexivity.
Qed.


Lemma Math_round_eq (a b : Q) : a == b -> JS.Math_round a = JS.Math_round b.
Proof.
  intros H. unfold JS.Math_round. f_equal. apply Qfloor_comp. rewrite H. reflexivity.
Qed.

Lemma div_nonzero (a b : Q) : ~ b == 0 -> JS.div a b = Some (a / b).
Proof.
  intros H. unfold JS.div. destruct (Qeq_bool b 0) eqn:E.
  - apply Qeq_bool_iff in E. contradiction.
  - reflexivity.
Qed.

Lemma div_pos (a b : Q) : 0 < b -> JS.div a b = Some (a / b).
Proof. intros H. apply div_nonzero. lra. Qed.

End JSFacts.

(** ** The estimate of one building *)

Section SolarFacts.

Local Open Scope Q_scope.
Import Solar.


(** A parameter that is not 0 is used as it is. *)
Lemma effective_parameters (tcf : Q) (usablePct panelEff : Z) (elecPriceQ : Q) :
  ~ tcf == 0 -> usablePct <> 0%Z -> panelEff <> 0%Z -> ~ elecPriceQ == 0 ->
  cf_of tcf = tcf /\ usable_of usablePct = inject_Z usablePct / 100 /\
  eff_of panelEff = inject_Z panelEff /\ price_of elecPriceQ = elecPriceQ.
Proof.
  intros Hc Hu He Hp. unfold cf_of, usable_of, eff_of, price_of.
  assert (Z0 : forall z : Z, z <> 0%Z -> ~ inject_Z z == 0).
  { intros z Hz E. apply Hz. unfold Qeq, inject_Z in E. cbn in E. lia. }
  rewrite !or_default_nonzero by auto. repeat split; reflexivity.
Qed.

(** C1: for every building area, capacity factor and parameter setting, the
    quantities computed for a custom building follow the formula chain
    exactly, before any rounding: usable area, capacity, first-year energy,
    gross cost, tax credit, net install cost, revenue and O&M; the reported
    fields are roundings of these; and the example of the equations panel
    follows the same chain for a 10,000 m2 roof. *)
Theorem solar_formula_chain (area_m2 capacity_factor usable_fraction
    panel_efficiency_w_m2 electricity_price_usd_kwh : Q) :
  let usable_area := area_m2 * usable_fraction in
  let capacity_kw' := usable_area * panel_efficiency_w_m2 / 1000 in
  let annual_kwh_yr1 := capacity_kw' * 8760 * capacity_factor in
  let gross_cost := capacity_kw' * 1000 * 1.40 in
  let itc_savings' := gross_cost * 0.30 in
  let install_cost' := gross_cost - itc_savings' in
  let annual_revenue' := annual_kwh_yr1 * electricity_price_usd_kwh in
  let annual_om' := capacity_kw' * 15 in
  let s := solarOf area_m2 capacity_factor usable_fraction
             panel_efficiency_w_m2 electricity_price_usd_kwh in
  (usableArea area_m2 usable_fraction = usable_area /\
   capacityKw area_m2 usable_fraction panel_efficiency_w_m2 = capacity_kw' /\
   annualKwh area_m2 capacity_factor usable_fraction panel_efficiency_w_m2
     = annual_kwh_yr1 /\
   grossCost area_m2 usable_fraction panel_efficiency_w_m2 = gross_cost /\
   itcSavings area_m2 usable_fraction panel_efficiency_w_m2 = itc_savings' /\
   installCost area_m2 usable_fraction panel_efficiency_w_m2 = install_cost' /\
   annualRevenue area_m2 capacity_factor usable_fraction panel_efficiency_w_m2
     electricity_price_usd_kwh = annual_revenue' /\
   annualOm area_m2 usable_fraction panel_efficiency_w_m2 = annual_om') /\
  (usable_area_m2 s = JS.Math_round usable_area /\
   capacity_kw s = Props.round1 capacity_kw' /\
   annual_kwh s = JS.Math_round annual_kwh_yr1 /\
   gross_install_cost s = JS.Math_round gross_cost /\
   itc_savings s = JS.Math_round itc_savings' /\
   install_cost s = JS.Math_round install_cost' /\
   annual_revenue s = JS.Math_round annual_revenue' /\
   annual_om s = JS.Math_round annual_om') /\
  (forall (tcf : Q) (usablePct panelEff : Z) (elecPriceQ : Q) (cb : Building),
     solar (customWithSolar tcf usablePct panelEff elecPriceQ cb)
     = Some (solarOf (Solar.area_m2 cb) (cf_of tcf) (usable_of usablePct)
               (eff_of panelEff) (price_of elecPriceQ))) /\
  (forall usablePct : Q,
     let e := EquationsPanel.example usablePct panel_efficiency_w_m2
                electricity_price_usd_kwh capacity_factor
                EquationsPanel.default_costPerWatt
                EquationsPanel.default_itcRate in
     let u := usablePct / 100 in
     EquationsPanel.usable e = usableArea 10000 u /\
     EquationsPanel.capacity e = capacityKw 10000 u panel_efficiency_w_m2 /\
     EquationsPanel.energy e
       = annualKwh 10000 capacity_factor u panel_efficiency_w_m2 /\
     EquationsPanel.revenue e
       = annualRevenue 10000 capacity_factor u panel_efficiency_w_m2
           electricity_price_usd_kwh /\
     EquationsPanel.grossCost e = grossCost 10000 u panel_efficiency_w_m2 /\
     EquationsPanel.itcCredit e = itcSavings 10000 u panel_efficiency_w_m2 /\
     EquationsPanel.netCost e = installCost 10000 u panel_efficiency_w_m2).
Proof.
  cbv zeta. split; [|split; [|split]].
  - repeat split; reflexivity.
  - repeat split; reflexivity.
  - intros. reflexivity.
  - intros. repeat split; reflexivity.
Qed.

(** The spec's scenario on the code: 10,000 m2 at 65%, 200 W/m2, capacity
    factor 0.158 and 0.12 USD/kWh. *)
Example solar_scenario_10000 :
  let s := solarOf 10000 0.158 0.65 200 0.12 in
  usableArea 10000 0.65 == 6500 /\
  capacityKw 10000 0.65 200 == 1300 /\
  annualKwh 10000 0.158 0.65 200 == 1799304 /\
  grossCost 10000 0.65 200 == 1820000 /\
  itcSavings 10000 0.65 200 == 546000 /\
  installCost 10000 0.65 200 == 1274000 /\
  annualOm 10000 0.65 200 == 19500 /\
  annual_revenue s == 215916 /\
  JS.num_eq (payback_years s) (Some 6.5).
Proof. vm_compute. repeat split; reflexivity. Qed.

End SolarFacts.

(** ** Degenerate inputs of the estimate *)

Section DegenerateInput.

Local Open Scope Q_scope.
Import Solar.

Variables (cf usable eff price : Q).

Lemma capacityKw_zero_area (area : Q) :
  area == 0 -> capacityKw area usable eff == 0.
Proof. intros H. unfold capacityKw, usableArea. rewrite H. field. Qed.

Lemma annualKwh_zero_area (area : Q) :
  area == 0 -> annualKwh area cf usable eff == 0.
Proof.
  intros H. unfold annualKwh. rewrite (capacityKw_zero_area area H). ring.
Qed.

Lemma payback_zero_area (area : Q) :
  area == 0 -> payback area cf usable eff price = Some 999.
Proof.
  intros H. unfold payback.
  destruct (Qlt_le_dec 0 _) as [L | L]; [exfalso | reflexivity].
  unfold annualRevenue, annualOm in L.
  rewrite (annualKwh_zero_area area H), (capacityKw_zero_area area H) in L.
  revert L. q_consts. lra.
Qed.

(** C4, as the code has it: a building of area 0 gets the value 0 for every
    metric and the sentinel 999 as payback, whatever the capacity factor
    and the parameters; the estimate is a total function, so nothing is
    raised. *)
Theorem zero_area_all_zero (area : Q) :
  area == 0 -> Props.all_zero_metrics (solarOf area cf usable eff price).
Proof.
  intros H.
  pose proof (capacityKw_zero_area area H) as Hc.
  pose proof (annualKwh_zero_area area H) as Hk.
  unfold Props.all_zero_metrics, solarOf; cbn [usable_area_m2 capacity_kw
    capacity_mw annual_kwh annual_mwh annual_revenue gross_install_cost
    itc_savings install_cost annual_om npv_25yr co2_avoided_tons
    co2_avoided_lifetime_tons homes_powered lifetime_mwh payback_years].
  rewrite (payback_zero_area area H).
  repeat split;
    try match goal with
    | |- context [JS.Math_round ?e] =>
      rewrite (Math_round_eq e 0)
        by (unfold installCost, itcSavings, grossCost, annualRevenue,
              annualOm, usableArea, co2Rate;
            try rewrite Hk; try rewrite Hc; try rewrite H; field)
    end; vm_compute; reflexivity.
Qed.

End DegenerateInput.

(** Witness of [zero_area_all_zero]: the building of area 0 with the default
    parameters. *)
Lemma zero_area_all_zero_witness :
  (0 == 0)%Q /\ Props.all_zero_metrics (Solar.solarOf 0 0.168 0.65 200 0.12).
Proof.
  split; [reflexivity | apply (zero_area_all_zero 0.168 0.65 200 0.12 0); reflexivity].
Defined.

(** C4 as stated fails: a negative area gives negative metrics, a negative
    capacity factor leaves capacity and costs positive, and a capacity factor
    of 0 in the totals is replaced by the default 0.168. *)
Lemma degenerate_input_counterexample :
  ((-1000 <= 0)%Q /\
   ~ Props.all_zero_metrics (Solar.solarOf (-1000) 0.168 0.65 200 0.12)) /\
  ((-0.168 <= 0)%Q /\
   ~ Props.all_zero_metrics (Solar.solarOf 1000 (-0.168) 0.65 200 0.12)) /\
  ((0 <= 0)%Q /\
   ~ Props.all_zero_metrics (Solar.solarOf 1000 (Solar.cf_of 0) 0.65 200 0.12)).
Proof.
  repeat split; try (vm_compute; discriminate);
    intros (_ & H & _); vm_compute in H; discriminate.
Qed.

(** ** Monotonicity in the usable fraction *)

Section Monotonicity.

Local Open Scope Q_scope.
Import Solar.




End Monotonicity.



(** ** Totals over a list of buildings *)

Section TotalsFacts.

Local Open Scope Q_scope.
Import HiddenBuildings.

Lemma paybackOf_pos (installCost netAnnual : Q) :
  0 < netAnnual -> paybackOf installCost netAnnual = Some (installCost / netAnnual).
Proof.
  intros H. unfold paybackOf. destruct (Qlt_le_dec 0 netAnnual) as [L | L].
  - apply div_pos. assumption.
  - exfalso. lra.
Qed.

Lemma paybackOf_nonpos (installCost netAnnual : Q) :
  netAnnual <= 0 -> paybackOf installCost netAnnual = Some 999.
Proof.
  intros H. unfold paybackOf. destruct (Qlt_le_dec 0 netAnnual) as [L | L].
  - exfalso. lra.
  - reflexivity.
Qed.

Lemma paybackOf_finite (installCost netAnnual : Q) :
  JS.is_finite (paybackOf installCost netAnnual).
Proof.
  destruct (Qlt_le_dec 0 netAnnual) as [L | L].
  - rewrite paybackOf_pos by assumption. discriminate.
  - rewrite paybackOf_nonpos by assumption. discriminate.
Qed.

(** On a list that is not empty, [recalcTotals] builds new totals. *)
Lemma recalcTotals_nonempty (buildings : list Solar.Building) (ot : Totals) :
  buildings <> [] ->
  exists t, recalcTotals buildings (Some ot) = Some t /\
    capacity_factor t = capacity_factor ot /\
    building_count t = inject_Z (Z.of_nat (length buildings)) /\
    capacity_kw t
      = Props.round1 (sumOver (solarField Solar.capacity_kw) buildings) /\
    install_cost t
      = JS.Math_round (sumOver (solarField Solar.install_cost) buildings) /\
    annual_revenue t
      = JS.Math_round (sumOver (solarField Solar.annual_revenue) buildings) /\
    annual_om t
      = JS.Math_round (sumOver (solarField Solar.annual_om) buildings) /\
    payback_years t
      = option_map Props.round1
          (paybackOf (sumOver (solarField Solar.install_cost) buildings)
             (sumOver (solarField Solar.annual_revenue) buildings
              - sumOver (solarField Solar.annual_om) buildings)) /\
    npv_25yr t = JS.Math_round (sumOver (solarField Solar.npv_25yr) buildings).
Proof.
  intros Hne. destruct buildings as [| b rest]; [contradiction|].
  unfold recalcTotals. cbn [length Nat.eqb].
  eexists. split; [reflexivity|]. repeat split; reflexivity.
Qed.

(** On a list that is not empty, the assigned fields do not depend on the
    original totals. *)
Lemma recalcTotals_aggregates_independent (buildings : list Solar.Building)
    (ot1 ot2 : Totals) :
  buildings <> [] ->
  exists t1 t2,
    recalcTotals buildings (Some ot1) = Some t1 /\
    recalcTotals buildings (Some ot2) = Some t2 /\
    Props.same_aggregates t1 t2.
Proof.
  intros Hne. destruct buildings as [| b rest]; [contradiction|].
  unfold recalcTotals. cbn [length Nat.eqb].
  eexists. eexists. split; [reflexivity|]. split; [reflexivity|].
  unfold Props.same_aggregates. repeat split; reflexivity.
Qed.

(** C2, as the code has it: on a list of buildings that is not empty, the
    payback of the totals is derived again from the summed install cost,
    the summed revenue and the summed O&M, and the net present value of
    the totals is the rounded sum of the buildings' [npv_25yr]. *)
Theorem totals_payback_rederived_npv_summed (buildings : list Solar.Building)
    (ot : Totals) :
  buildings <> [] ->
  exists t, recalcTotals buildings (Some ot) = Some t /\
    payback_years t
      = option_map Props.round1
          (paybackOf (sumOver (solarField Solar.install_cost) buildings)
             (sumOver (solarField Solar.annual_revenue) buildings
              - sumOver (solarField Solar.annual_om) buildings)) /\
    npv_25yr t = JS.Math_round (sumOver (solarField Solar.npv_25yr) buildings).
Proof.
  intros Hne.
  destruct (recalcTotals_nonempty buildings ot Hne)
    as (t & Ht & _ & _ & _ & _ & _ & _ & Hp & Hn).
  exists t. auto.
Qed.

(** C5 on the code: for the empty list, [recalcTotals] hands back the
    original totals, those of the full set, unchanged. *)
Theorem recalcTotals_empty_returns_original (originalTotals : option Totals) :
  recalcTotals [] originalTotals = originalTotals.
Proof. destruct originalTotals; reflexivity. Qed.

End TotalsFacts.

(** Witness of [totals_payback_rederived_npv_summed]: two drawn buildings of
    10,000 m2; the payback of the totals is 6.1 years, not the sum 12.2. *)
Lemma totals_payback_rederived_npv_summed_witness :
  exists t,
    HiddenBuildings.recalcTotals [Props.estimated10000; Props.estimated10000]
      (Some Props.sampleTotals) = Some t /\
    JS.num_eq (HiddenBuildings.payback_years t) (Some 6.1) /\
    (HiddenBuildings.npv_25yr t == 0)%Q.
Proof.
  destruct (totals_payback_rederived_npv_summed
              [Props.estimated10000; Props.estimated10000] Props.sampleTotals)
    as (t & Ht & Hp & Hn); [discriminate|].
  exists t. split; [exact Ht|]. rewrite Hp, Hn. split; vm_compute; reflexivity.
Defined.

(** C2 as stated fails for the net present value: two lists with the same
    install cost, revenue and O&M but different per-building [npv_25yr] get
    different [npv_25yr] in the totals, each the sum of the buildings'. *)
Lemma totals_npv_counterexample :
  exists t t',
    HiddenBuildings.recalcTotals [Props.estimated10000]
      (Some Props.sampleTotals) = Some t /\
    HiddenBuildings.recalcTotals [Props.with_npv 1500000 Props.estimated10000]
      (Some Props.sampleTotals) = Some t' /\
    HiddenBuildings.install_cost t = HiddenBuildings.install_cost t' /\
    HiddenBuildings.annual_revenue t = HiddenBuildings.annual_revenue t' /\
    HiddenBuildings.annual_om t = HiddenBuildings.annual_om t' /\
    (HiddenBuildings.npv_25yr t == 0)%Q /\
    (HiddenBuildings.npv_25yr t' == 1500000)%Q /\
    ~ (HiddenBuildings.npv_25yr t == HiddenBuildings.npv_25yr t')%Q.
Proof.
  eexists. eexists. split; [reflexivity|]. split; [reflexivity|].
  repeat split; try (vm_compute; reflexivity).
  intros H. vm_compute in H. discriminate.
Qed.

(** The failing input of C5: with every building hidden, the list shown is
    empty and the totals shown are still those of the two buildings of the
    full set. *)
Example recalcTotals_all_hidden :
  HomePage.data Props.rawSample
    [HomePage.buildingKey Props.estimated10000] [] 65 200 0.12
  = ([], Some Props.sampleTotals) /\
  HiddenBuildings.recalcTotals [] (Some Props.sampleTotals)
  = Some Props.sampleTotals /\
  HiddenBuildings.building_count Props.sampleTotals = 2%Q.
Proof. repeat split; reflexivity. Qed.

(** ** The payback rule *)

Section Payback.

Local Open Scope Q_scope.

Lemma round1_999 : Props.round1 999 == 999.
Proof. vm_compute. reflexivity. Qed.

(** In exact arithmetic, where nothing overflows: the payback is
    [install_cost / (annual_revenue - annual_om)] when that difference is
    positive and the sentinel 999 otherwise, the division is only reached
    with a positive divisor, and the reported field is that value rounded to
    one decimal.  The same rule gives the payback of the totals aggregated
    over a list of buildings that is not empty, from the summed install
    cost, revenue and O&M. *)
Lemma payback_rule_exact (area cf usable eff price : Q)
    (buildings : list Solar.Building) (ot : HiddenBuildings.Totals) :
  buildings <> [] ->
  (let install_cost := Solar.installCost area usable eff in
   let net := Solar.annualRevenue area cf usable eff price
              - Solar.annualOm area usable eff in
   let s := Solar.solarOf area cf usable eff price in
   (0 < net -> Solar.payback area cf usable eff price = Some (install_cost / net)) /\
   (~ 0 < net -> Solar.payback area cf usable eff price = Some 999) /\
   JS.is_finite (Solar.payback area cf usable eff price) /\
   Solar.payback_years s
     = option_map Props.round1 (Solar.payback area cf usable eff price) /\
   JS.is_finite (Solar.payback_years s) /\
   (~ 0 < net -> JS.num_eq (Solar.payback_years s) (Some 999))) /\
  (exists t, HiddenBuildings.recalcTotals buildings (Some ot) = Some t /\
     let install_cost :=
       HiddenBuildings.sumOver (HiddenBuildings.solarField Solar.install_cost)
         buildings in
     let net :=
       HiddenBuildings.sumOver (HiddenBuildings.solarField Solar.annual_revenue)
         buildings
       - HiddenBuildings.sumOver (HiddenBuildings.solarField Solar.annual_om)
           buildings in
     (0 < net ->
      HiddenBuildings.payback_years t = Some (Props.round1 (install_cost / net))) /\
     (~ 0 < net -> JS.num_eq (HiddenBuildings.payback_years t) (Some 999)) /\
     JS.is_finite (HiddenBuildings.payback_years t)).
Proof.
  intros Hne. split.
  - cbv zeta.
    assert (P : forall i n, HiddenBuildings.paybackOf i n
                            = if Qlt_le_dec 0 n then JS.div i n else Some 999)
      by reflexivity.
    change (Solar.payback area cf usable eff price)
      with (HiddenBuildings.paybackOf (Solar.installCost area usable eff)
              (Solar.annualRevenue area cf usable eff price
               - Solar.annualOm area usable eff)).
    cbn [Solar.solarOf Solar.payback_years].
    change (Solar.payback area cf usable eff price)
      with (HiddenBuildings.paybackOf (Solar.installCost area usable eff)
              (Solar.annualRevenue area cf usable eff price
               - Solar.annualOm area usable eff)).
    set (i := Solar.installCost area usable eff).
    set (n := Solar.annualRevenue area cf usable eff price
              - Solar.annualOm area usable eff).
    repeat split.
    + intros H. apply paybackOf_pos. exact H.
    + intros H. apply paybackOf_nonpos. lra.
    + apply paybackOf_finite.
    + destruct (Qlt_le_dec 0 n) as [L | L].
      * rewrite paybackOf_pos by assumption. discriminate.
      * rewrite paybackOf_nonpos by assumption. discriminate.
    + intros H. rewrite paybackOf_nonpos by lra. exact round1_999.
  - destruct (recalcTotals_nonempty buildings ot Hne)
      as (t & Ht & _ & _ & _ & _ & _ & _ & Hp & _).
    exists t. split; [exact Ht|]. cbv zeta. rewrite Hp. repeat split.
    + intros H. rewrite paybackOf_pos by assumption. reflexivity.
    + intros H. rewrite paybackOf_nonpos by lra. exact round1_999.
    + destruct (Qlt_le_dec 0
        (HiddenBuildings.sumOver (HiddenBuildings.solarField Solar.annual_revenue)
           buildings
         - HiddenBuildings.sumOver (HiddenBuildings.solarField Solar.annual_om)
             buildings)) as [L | L].
      * rewrite paybackOf_pos by assumption. discriminate.
      * rewrite paybackOf_nonpos by assumption. discriminate.
Qed.

End Payback.

(** ** Overflow in binary64: the payback and the distance *)

Section Binary64Facts.

Import PrimFloat.
Local Open Scope float_scope.

(** [Math.round] on binary64 numbers: ties go up, also below zero; the
    largest number below one half goes down; numbers without a fractional
    part, the infinities and [NaN] are left alone. *)
Example Math_round_binary64 :
  map F64.Math_round
    [2.5; -2.5; 0.5; -0.5; 1.5; -1.5; 0.49999999999999994; 3.7; -3.7;
     4503599627370495.5; -4503599627370495.5; 4503599627370497;
     infinity; neg_infinity; nan]
  = [3; -2; 1; -0; 2; -1; 0; 4; -4;
     4503599627370496; -4503599627370495; 4503599627370497;
     infinity; neg_infinity; nan].
Proof. vm_compute. reflexivity. Qed.

(** The sums of [recalcTotals] are binary64 sums taken in the order of the
    list: the same three revenues give 4.4999999999999991 in one order and
    4.5 in another, which [Math.round] turns into 4 and 5. *)
Example sumOver_order_binary64 :
  let b v := {| F64.solar := Some {| F64.annual_revenue := v;
                                     F64.install_cost := 0;
                                     F64.annual_om := 0 |} |} in
  F64.Math_round
    (F64.sumOver (F64.solarField F64.annual_revenue) [b 0.1; b 4.3; b 0.1]) = 4 /\
  F64.Math_round
    (F64.sumOver (F64.solarField F64.annual_revenue) [b 0.1; b 0.1; b 4.3]) = 5.
Proof. split; vm_compute; reflexivity. Qed.

(** The sentinel is reported as it is. *)
Lemma sentinel_reported : F64.Math_round (999 * 10) / 10 = 999.
Proof. vm_compute. reflexivity. Qed.

(** C3, as the code has it, in binary64: for every input of the
    per-building estimate, the payback is
    [install_cost / (annual_revenue - annual_om)] when that difference is
    above 0, and the sentinel 999 when it is not (zero, negative or [NaN]);
    the reported field is that value rounded to one decimal, and the
    sentinel is reported as 999.  The same rule gives the payback of the
    totals aggregated over a list of buildings that is not empty, from the
    summed install cost, revenue and O&M. *)
Theorem payback_sentinel_rule (area cf usable eff price : float)
    (buildings : list F64.Building) (ot : float) :
  buildings <> [] ->
  (let install_cost := F64.installCost area usable eff in
   let net := F64.annualRevenue area cf usable eff price
              - F64.annualOm area usable eff in
   ((0 <? net) = true ->
    F64.payback area cf usable eff price = install_cost / net /\
    F64.payback_years area cf usable eff price
    = F64.Math_round (install_cost / net * 10) / 10) /\
   ((0 <? net) = false ->
    F64.payback area cf usable eff price = 999 /\
    F64.payback_years area cf usable eff price = 999)) /\
  (let install_cost := F64.sumOver (F64.solarField F64.install_cost) buildings in
   let net := F64.sumOver (F64.solarField F64.annual_revenue) buildings
              - F64.sumOver (F64.solarField F64.annual_om) buildings in
   ((0 <? net) = true ->
    F64.recalcTotals_payback_years buildings (Some ot)
    = Some (F64.Math_round (install_cost / net * 10) / 10)) /\
   ((0 <? net) = false ->
    F64.recalcTotals_payback_years buildings (Some ot) = Some 999)).
Proof.
  intros Hne. cbv zeta. split; split; intros H.
  - unfold F64.payback_years, F64.payback. rewrite H. split; reflexivity.
  - unfold F64.payback_years, F64.payback. rewrite H.
    split; [reflexivity | exact sentinel_reported].
  - destruct buildings as [| b bs]; [contradiction|].
    unfold F64.recalcTotals_payback_years. cbn [length Nat.eqb].
    unfold F64.paybackOf. rewrite H. reflexivity.
  - destruct buildings as [| b bs]; [contradiction|].
    unfold F64.recalcTotals_payback_years. cbn [length Nat.eqb].
    unfold F64.paybackOf. rewrite H. rewrite sentinel_reported. reflexivity.
Qed.

(** Witness of [payback_sentinel_rule]: the 10,000 m2 building at a price
    of 0.01 USD/kWh, which does not cover the O&M, alone and as the one
    building of a list; and an area of 1e308 m2, for which the revenue and
    the O&M are both infinite and their difference is [NaN]. *)
Lemma payback_sentinel_rule_witness :
  F64.payback_years 10000 0.168 0.65 200 0.01 = 999 /\
  F64.recalcTotals_payback_years
    [ {| F64.solar := Some {| F64.annual_revenue := 19132;
                              F64.install_cost := 1274000;
                              F64.annual_om := 19500 |} |} ] (Some 6.1)
  = Some 999 /\
  is_nan (F64.annualRevenue 1e308 0.168 0.65 200 0.12
          - F64.annualOm 1e308 0.65 200) = true /\
  F64.payback_years 1e308 0.168 0.65 200 0.12 = 999.
Proof.
  destruct (payback_sentinel_rule 10000 0.168 0.65 200 0.01
              [ {| F64.solar := Some {| F64.annual_revenue := 19132;
                                        F64.install_cost := 1274000;
                                        F64.annual_om := 19500 |} |} ]
              6.1) as ((_ & B) & (_ & T)); [discriminate|].
  destruct (payback_sentinel_rule 1e308 0.168 0.65 200 0.12
              [ {| F64.solar := None |} ] 6.1) as ((_ & N) & _); [discriminate|].
  split; [|split; [|split]].
  - apply B. vm_compute. reflexivity.
  - apply T. vm_compute. reflexivity.
  - vm_compute. reflexivity.
  - apply N. vm_compute. reflexivity.
Defined.

(** C3 as stated fails where the binary64 computation overflows: for an
    area of 1e306 m2 with the default parameters the gross cost and its tax
    credit are both infinite, the install cost is their difference [NaN],
    the revenue less the O&M is infinite and so above 0, and the payback
    reported is [NaN], not a number and not the sentinel. *)
Lemma payback_nan_counterexample :
  (0 <? F64.annualRevenue 1e306 0.168 0.65 200 0.12
        - F64.annualOm 1e306 0.65 200) = true /\
  is_nan (F64.installCost 1e306 0.65 200) = true /\
  is_nan (F64.payback 1e306 0.168 0.65 200 0.12) = true /\
  is_nan (F64.payback_years 1e306 0.168 0.65 200 0.12) = true /\
  F64.payback_years 1e306 0.168 0.65 200 0.12 <> 999.
Proof.
  repeat split; try (vm_compute; reflexivity).
  vm_compute. discriminate.
Qed.


End Binary64Facts.

(** ** The area of a drawn polygon *)

Section AreaFacts.

Local Open Scope R_scope.
Import CustomBuildings GeoProps.

Lemma mapM_toMetres (p0 : LatLng) (rest : list LatLng) (cosLat : R)
    (l : list LatLng) :
  mapM (toMetres (p0 :: rest) cosLat) l = Some (map (project p0 cosLat) l).
Proof.
  induction l as [| p l IH]; [reflexivity|].
  cbn [mapM map]. rewrite IH. reflexivity.
Qed.

Lemma mod_succ_lt (i n : nat) : (i < n)%nat -> ((i + 1) mod n < n)%nat.
Proof. intros H. apply Nat.mod_upper_bound. lia. Qed.

Lemma shoelace_fold (pts : list Pt) (idx : list nat) (a : R) :
  (forall i, In i idx -> (i < length pts)%nat) ->
  fold_left (shoelaceStep pts) idx (Some a)
  = Some (fold_left (crossStep pts) idx a).
Proof.
  revert a. induction idx as [| i idx IH]; intros a Hin; [reflexivity|].
  cbn [fold_left].
  assert (Hi : (i < length pts)%nat) by (apply Hin; left; reflexivity).
  pose proof (mod_succ_lt i (length pts) Hi) as Hj.
  unfold shoelaceStep at 2. unfold at_index.
  rewrite (nth_error_nth' pts origin Hi), (nth_error_nth' pts origin Hj).
  apply IH. intros k Hk. apply Hin. right. exact Hk.
Qed.

Lemma shoelace_total (pts : list Pt) : shoelace pts = Some (shoelaceSum pts).
Proof.
  unfold shoelace, shoelaceSum. apply shoelace_fold.
  intros i Hi. apply in_seq in Hi. lia.
Qed.

(** The area in closed form: the function never throws. *)
Lemma calcGeodesicArea_eq (latlngs : list LatLng) :
  calcGeodesicArea latlngs
  = if (length latlngs <? 3)%nat then Some 0
    else Some (Rabs (shoelaceSum
                 (map (project (hd {| lat := 0; lng := 0 |} latlngs)
                         (cos (meanLatOf latlngs * PI / 180))) latlngs) / 2)).
Proof.
  unfold calcGeodesicArea. destruct (length latlngs <? 3)%nat eqn:E; [reflexivity|].
  destruct latlngs as [| p0 rest]; [discriminate|].
  rewrite mapM_toMetres, shoelace_total. reflexivity.
Qed.

Lemma crossStep_fold_degenerate (pts : list Pt) (d : Pt) (idx : list nat) (a : R) :
  (forall q, In q pts -> q = origin \/ q = d) ->
  (forall i, In i idx -> (i < length pts)%nat) ->
  fold_left (crossStep pts) idx a = a.
Proof.
  intros Hpts. revert a. induction idx as [| i idx IH]; intros a Hin; [reflexivity|].
  cbn [fold_left].
  assert (Hi : (i < length pts)%nat) by (apply Hin; left; reflexivity).
  pose proof (mod_succ_lt i (length pts) Hi) as Hj.
  rewrite IH by (intros k Hk; apply Hin; right; exact Hk).
  unfold crossStep.
  destruct (Hpts _ (nth_In pts origin Hi)) as [Ei | Ei];
    destruct (Hpts _ (nth_In pts origin Hj)) as [Ej | Ej];
    rewrite Ei, Ej; unfold origin; cbn [x y]; ring.
Qed.

Lemma project_self (p0 : LatLng) (c : R) : project p0 c p0 = origin.
Proof. unfold project, origin. f_equal; ring. Qed.

Lemma degenerate_area (latlngs : list LatLng) :
  fewer_than_3_distinct latlngs -> calcGeodesicArea latlngs = Some 0.
Proof.
  intros (a & b & Hab). rewrite calcGeodesicArea_eq.
  destruct (length latlngs <? 3)%nat eqn:E; [reflexivity|].
  destruct latlngs as [| p0 rest]; [discriminate|].
  cbn [hd]. set (c := cos _). f_equal.
  assert (Hp0 : p0 = a \/ p0 = b) by (apply Hab; left; reflexivity).
  assert (Hdeg : exists d, forall q,
             In q (map (project p0 c) (p0 :: rest)) -> q = origin \/ q = d).
  { destruct Hp0 as [-> | ->].
    - exists (project a c b). intros q Hq. apply in_map_iff in Hq.
      destruct Hq as (p & <- & Hp). destruct (Hab p Hp) as [-> | ->].
      + left. apply project_self.
      + right. reflexivity.
    - exists (project b c a). intros q Hq. apply in_map_iff in Hq.
      destruct Hq as (p & <- & Hp). destruct (Hab p Hp) as [-> | ->].
      + right. reflexivity.
      + left. apply project_self. }
  destruct Hdeg as (d & Hd).
  unfold shoelaceSum. rewrite (crossStep_fold_degenerate _ d) by
    (try exact Hd; intros i Hi; apply in_seq in Hi; lia).
  replace (0 / 2) with 0 by field. apply Rabs_R0.
Qed.

(** C6: the area of a polygon with fewer than three distinct points is 0,
    in particular that of a list of fewer than three points and of the
    empty list; and on every list of vertices the function returns a
    number, without throwing. *)
Theorem calcGeodesicArea_degenerate :
  (forall latlngs, fewer_than_3_distinct latlngs ->
     calcGeodesicArea latlngs = Some 0) /\
  (forall latlngs, (length latlngs < 3)%nat ->
     calcGeodesicArea latlngs = Some 0) /\
  calcGeodesicArea [] = Some 0 /\
  (forall latlngs, exists area,
     calcGeodesicArea latlngs = Some area /\ 0 <= area).
Proof.
  split; [exact degenerate_area|]. split; [|split].
  - intros latlngs H. unfold calcGeodesicArea.
    apply Nat.ltb_lt in H. rewrite H. reflexivity.
  - reflexivity.
  - intros latlngs. rewrite calcGeodesicArea_eq.
    destruct (length latlngs <? 3)%nat.
    + exists 0. split; [reflexivity | lra].
    + eexists. split; [reflexivity | apply Rabs_pos].
Qed.

End AreaFacts.

(** ** Translating a polygon *)

Section TranslationFacts.

Local Open Scope R_scope.
Import CustomBuildings GeoProps.

Lemma nth_map_lt {A B : Type} (f : A -> B) (l : list A) (i : nat) (d : B) (d' : A) :
  (i < length l)%nat -> nth i (map f l) d = f (nth i l d').
Proof.
  intros H. rewrite (nth_indep (map f l) d (f d')) by (rewrite length_map; exact H).
  apply map_nth.
Qed.

Lemma crossStep_fold_scaled (p0 : LatLng) (c : R) (l : list LatLng)
    (idx : list nat) (a : R) :
  (forall i, In i idx -> (i < length l)%nat) ->
  fold_left (crossStep (map (project p0 c) l)) idx (c * a)
  = c * fold_left (crossStep (map (project p0 1) l)) idx a.
Proof.
  revert a. induction idx as [| i idx IH]; intros a Hin; [reflexivity|].
  cbn [fold_left].
  assert (Hi : (i < length l)%nat) by (apply Hin; left; reflexivity).
  pose proof (mod_succ_lt i (length l) Hi) as Hj.
  rewrite <- IH by (intros k Hk; apply Hin; right; exact Hk).
  f_equal. unfold crossStep. rewrite !length_map.
  rewrite !(nth_map_lt _ l _ origin p0) by assumption.
  unfold project; cbn [x y]. ring.
Qed.

Lemma shoelaceSum_scaled (p0 : LatLng) (c : R) (l : list LatLng) :
  shoelaceSum (map (project p0 c) l) = c * shoelaceSum (map (project p0 1) l).
Proof.
  unfold shoelaceSum. rewrite !length_map.
  replace 0 with (c * 0) at 1 by ring.
  apply crossStep_fold_scaled. intros i Hi. apply in_seq in Hi. lia.
Qed.

(** The area is the unit area shrunk by the cosine of the mean latitude. *)
Lemma calcGeodesicArea_scaled (latlngs : list LatLng) :
  calcGeodesicArea latlngs
  = if (length latlngs <? 3)%nat then Some 0
    else Some (Rabs (cos (meanLatOf latlngs * PI / 180)) * unitArea latlngs).
Proof.
  rewrite calcGeodesicArea_eq. destruct (length latlngs <? 3)%nat; [reflexivity|].
  f_equal. unfold unitArea. rewrite shoelaceSum_scaled.
  rewrite <- Rabs_mult. f_equal. field.
Qed.

Lemma sum_lat_translate (dlat dlng : R) (l : list LatLng) (a : R) :
  fold_left (fun s p => s + lat p) (translate dlat dlng l) a
  = fold_left (fun s p => s + lat p) l a + INR (length l) * dlat.
Proof.
  revert a. induction l as [| p l IH]; intros a.
  - cbn. ring.
  - cbn [translate map fold_left length]. fold (translate dlat dlng l).
    rewrite IH. cbn [lat]. rewrite S_INR.
    set (f := fold_left (fun s q => s + lat q) l).
    enough (E : f (a + (lat p + dlat)) = f (a + lat p) + dlat) by (rewrite E; ring).
    unfold f. clear. revert a. induction l as [| q l IH]; intros a.
    + cbn. ring.
    + cbn [fold_left].
      replace (a + (lat p + dlat) + lat q) with (a + lat q + (lat p + dlat)) by ring.
      replace (a + lat p + lat q) with (a + lat q + lat p) by ring.
      apply IH.
Qed.

Lemma meanLatOf_translate (dlat dlng : R) (l : list LatLng) :
  l <> [] -> meanLatOf (translate dlat dlng l) = meanLatOf l + dlat.
Proof.
  intros Hne. unfold meanLatOf. rewrite sum_lat_translate.
  unfold translate. rewrite length_map.
  assert (N : INR (length l) <> 0).
  { apply not_0_INR. destruct l; [contradiction | discriminate]. }
  field. exact N.
Qed.

Lemma unitArea_translate (dlat dlng : R) (l : list LatLng) :
  unitArea (translate dlat dlng l) = unitArea l.
Proof.
  unfold unitArea. do 2 f_equal. f_equal.
  destruct l as [| p0 rest]; [reflexivity|].
  change (hd _ (translate dlat dlng (p0 :: rest)))
    with {| lat := lat p0 + dlat; lng := lng p0 + dlng |}.
  change (hd _ (p0 :: rest)) with p0.
  unfold translate. rewrite map_map.
  apply map_ext. intros p. unfold project; cbn [lat lng]. f_equal; ring.
Qed.

Lemma calcGeodesicArea_translate (dlat dlng : R) (l : list LatLng) :
  calcGeodesicArea (translate dlat dlng l)
  = if (length l <? 3)%nat then Some 0
    else Some (Rabs (cos ((meanLatOf l + dlat) * PI / 180)) * unitArea l).
Proof.
  rewrite calcGeodesicArea_scaled. unfold translate at 1. rewrite length_map.
  destruct (length l <? 3)%nat eqn:E; [reflexivity|].
  rewrite unitArea_translate, meanLatOf_translate; [reflexivity|].
  destruct l; [discriminate | discriminate].
Qed.

(** C8, as the code has it: an offset in longitude leaves the computed area
    unchanged, exactly; an offset in latitude changes the mean latitude of
    the projection, so the two areas are in the ratio of the cosines of the
    two mean latitudes. *)
Theorem area_under_translation (dlat dlng : R) (latlngs : list LatLng) :
  exists area area',
    calcGeodesicArea latlngs = Some area /\
    calcGeodesicArea (translate dlat dlng latlngs) = Some area' /\
    area' * Rabs (cos (meanLatOf latlngs * PI / 180))
    = area * Rabs (cos ((meanLatOf latlngs + dlat) * PI / 180)) /\
    (dlat = 0 -> area' = area).
Proof.
  rewrite calcGeodesicArea_translate, calcGeodesicArea_scaled.
  destruct (length latlngs <? 3)%nat.
  - exists 0, 0. repeat split; ring.
  - eexists. eexists. split; [reflexivity|]. split; [reflexivity|]. split.
    + ring.
    + intros ->. rewrite Rplus_0_r. reflexivity.
Qed.

End TranslationFacts.

(** The triangle: its mean latitude, its unit area and its computed area at
    the equator and 60 degrees further north. *)
Lemma triangle_meanLat : CustomBuildings.meanLatOf GeoProps.triangle = 0%R.
Proof.
  unfold CustomBuildings.meanLatOf, GeoProps.triangle.
  cbn [fold_left CustomBuildings.lat length INR]. field.
Qed.

Lemma triangle_unitArea :
  GeoProps.unitArea GeoProps.triangle
  = ((PI / 180 * CustomBuildings.R_m) ^ 2 / 1000000)%R.
Proof.
  unfold GeoProps.unitArea, GeoProps.shoelaceSum, GeoProps.triangle.
  cbn [map hd length seq fold_left]. unfold GeoProps.crossStep.
  cbn [length Nat.add Nat.modulo Nat.divmod fst snd Nat.sub nth
       GeoProps.project CustomBuildings.x CustomBuildings.y
       CustomBuildings.lat CustomBuildings.lng].
  rewrite <- (Rabs_pos_eq ((PI / 180 * CustomBuildings.R_m) ^ 2 / 1000000)%R).
  - f_equal. field.
  - apply Rmult_le_pos; [apply pow2_ge_0 | lra].
Qed.

Lemma triangle_unitArea_bound : (10000 < GeoProps.unitArea GeoProps.triangle)%R.
Proof.
  rewrite triangle_unitArea. unfold CustomBuildings.R_m. pose proof PI2_3_2 as P.
  assert (K : (106183 < PI / 180 * 6371000)%R) by lra.
  nra.
Qed.

Lemma triangle_area :
  CustomBuildings.calcGeodesicArea GeoProps.triangle
  = Some (GeoProps.unitArea GeoProps.triangle).
Proof.
  rewrite calcGeodesicArea_scaled. cbn [GeoProps.triangle length Nat.ltb Nat.leb].
  fold GeoProps.triangle. rewrite triangle_meanLat.
  replace (0 * PI / 180)%R with 0%R by field.
  rewrite cos_0, Rabs_R1. f_equal. ring.
Qed.

Lemma triangle_area_north :
  CustomBuildings.calcGeodesicArea (GeoProps.translate 60 0 GeoProps.triangle)
  = Some (GeoProps.unitArea GeoProps.triangle / 2)%R.
Proof.
  rewrite calcGeodesicArea_translate. cbn [GeoProps.triangle length Nat.ltb Nat.leb].
  fold GeoProps.triangle. rewrite triangle_meanLat.
  replace ((0 + 60) * PI / 180)%R with (PI / 3)%R by field.
  rewrite cos_PI3. rewrite Rabs_pos_eq by lra. f_equal. field.
Qed.

(** C8 as stated fails: moving the triangle 60 degrees north halves its
    computed area, from more than 10,000 m2 to half of that. *)
Lemma area_translation_counterexample :
  exists area area',
    CustomBuildings.calcGeodesicArea GeoProps.triangle = Some area /\
    CustomBuildings.calcGeodesicArea (GeoProps.translate 60 0 GeoProps.triangle)
    = Some area' /\
    (area' = area / 2)%R /\ (10000 < area)%R /\ (5000 < Rabs (area' - area))%R.
Proof.
  pose proof triangle_unitArea_bound as B.
  exists (GeoProps.unitArea GeoProps.triangle).
  exists (GeoProps.unitArea GeoProps.triangle / 2)%R.
  split; [exact triangle_area|]. split; [exact triangle_area_north|].
  split; [reflexivity|]. split; [exact B|].
  replace (GeoProps.unitArea GeoProps.triangle / 2
           - GeoProps.unitArea GeoProps.triangle)%R
    with (- (GeoProps.unitArea GeoProps.triangle / 2))%R by field.
  rewrite Rabs_Ropp, Rabs_pos_eq; lra.
Qed.

(** ** The haversine formula in exact real arithmetic *)

Section HaversineFacts.

Local Open Scope R_scope.
Import CustomBuildings.


Lemma atan2_zero_iff (y x : R) :
  0 <= y -> 0 <= x -> (Math_atan2 y x = 0 <-> y = 0).
Proof.
  intros Hy Hx. unfold Math_atan2.
  destruct (Rlt_dec 0 x) as [Px | Nx].
  - split.
    + intros H. apply atan_eq0 in H.
      apply (Rmult_eq_compat_r x) in H. unfold Rdiv in H.
      rewrite Rmult_assoc, Rinv_l, Rmult_1_r, Rmult_0_l in H by lra. exact H.
    + intros ->. unfold Rdiv. rewrite Rmult_0_l. apply atan_0.
  - destruct (Rlt_dec x 0) as [Lx | _]; [lra|].
    destruct (Rlt_dec 0 y) as [Py | Ny].
    + pose proof PI_RGT_0. split; intros; lra.
    + destruct (Rlt_dec y 0) as [Ly | _]; [lra|]. split; intros; lra.
Qed.

(** The argument of both square roots lies between 0 and 1. *)
Lemma haversineA_range (lat1 lon1 lat2 lon2 : R) :
  0 <= haversineA lat1 lon1 lat2 lon2 <= 1.
Proof.
  unfold haversineA.
  set (h := (lat2 - lat1) * PI / 180 / 2).
  set (g := (lon2 - lon1) * PI / 180 / 2).
  set (f1 := lat1 * PI / 180). set (f2 := lat2 * PI / 180).
  assert (D : cos (f2 - f1) = 1 - 2 * sin h * sin h).
  { rewrite <- cos_2a_sin. f_equal. unfold h, f1, f2. field. }
  pose proof (cos_minus f2 f1) as Cm. pose proof (cos_plus f2 f1) as Cp.
  pose proof (COS_bound (f2 + f1)) as Bc.
  pose proof (SIN_bound h) as Bh. pose proof (SIN_bound g) as Bg.
  revert D Cm Cp Bc Bh Bg.
  generalize (cos (f2 - f1)) (cos (f2 + f1)) (sin h) (sin g)
    (cos f1) (cos f2) (sin f1) (sin f2).
  intros cm cp s t c1 c2 s1 s2 D Cm Cp Bc Bh Bg.
  assert (T0 : 0 <= t * t) by nra.
  assert (T1 : t * t <= 1) by nra.
  assert (S0 : 0 <= s * s) by nra.
  assert (S1 : s * s <= 1) by nra.
  assert (P0 : - (s * s) <= c1 * c2) by nra.
  assert (P1 : c1 * c2 <= 1 - s * s) by nra.
  cbn [pow]. rewrite !Rmult_1_r.
  clear D Cm Cp Bc Bh Bg.
  set (p := c1 * c2) in *. set (tt := t * t) in *. set (ss := s * s) in *.
  clearbody p tt ss.
  destruct (Rle_dec 0 p) as [Pp | Np]; split; nra.
Qed.



Lemma haversineKm_zero_iff (lat1 lon1 lat2 lon2 : R) :
  haversineKm lat1 lon1 lat2 lon2 = 0 <-> haversineA lat1 lon1 lat2 lon2 = 0.
Proof.
  unfold haversineKm. cbv zeta.
  pose proof (haversineA_range lat1 lon1 lat2 lon2) as [A0 A1].
  set (a := haversineA lat1 lon1 lat2 lon2) in *.
  pose proof (atan2_zero_iff (sqrt a) (sqrt (1 - a)) (sqrt_pos _) (sqrt_pos _))
    as Z.
  unfold R_km. split.
  - intros H. apply sqrt_eq_0; [exact A0|]. apply Z. lra.
  - intros E. rewrite E in *. rewrite sqrt_0 in *.
    assert (T : Math_atan2 0 (sqrt (1 - 0)) = 0) by (apply Z; reflexivity).
    rewrite T. ring.
Qed.




End HaversineFacts.


(** In exact real arithmetic two coordinates of the North Pole with
    different longitudes are at distance 0, and so are the two coordinates
    of one point of the antimeridian: the restriction on the latitudes and
    longitudes cannot be dropped. *)
Lemma haversineKm_zero_pole_antimeridian :
  (CustomBuildings.haversineKm 90 0 90 10 = 0%R /\
   (90%R, 0%R) <> (90%R, 10%R)) /\
  (CustomBuildings.haversineKm 0 (-180) 0 180 = 0%R /\
   (0%R, (-180)%R) <> (0%R, 180%R)).
Proof.
  split; split.
  - apply haversineKm_zero_iff. unfold CustomBuildings.haversineA.
    replace ((90 - 90) * PI / 180 / 2)%R with 0%R by field.
    replace (90 * PI / 180)%R with (PI / 2)%R by field.
    rewrite sin_0, cos_PI2. ring.
  - intros H. injection H as H. lra.
  - apply haversineKm_zero_iff. unfold CustomBuildings.haversineA.
    replace ((0 - 0) * PI / 180 / 2)%R with 0%R by field.
    replace ((180 - -180) * PI / 180 / 2)%R with PI by field.
    rewrite sin_0, sin_PI. ring.
  - intros H. injection H as H. lra.
Qed.

(** ** Adding a drawn building *)

Section AddBuildingFacts.

Local Open Scope R_scope.
Import CustomBuildings GeoProps.

Lemma same_position_eq (a b : R * R) : same_position a b = true -> a = b.
Proof.
  unfold same_position. destruct a as [a1 a2], b as [b1 b2]. cbn [fst snd].
  destruct (Req_dec_T a1 b1) as [-> |]; [|discriminate].
  destruct (Req_dec_T a2 b2) as [-> |]; [|discriminate].
  reflexivity.
Qed.

(** The ring made from at least one point is closed. *)
Lemma latlngsToGeoJSON_closed (latlngs : list LatLng) :
  latlngs <> [] ->
  exists ring first,
    coordinates (latlngsToGeoJSON latlngs) = [ring] /\
    hd_error ring = Some first /\ last ring first = first /\
    first = (lng (hd {| lat := 0; lng := 0 |} latlngs),
             lat (hd {| lat := 0; lng := 0 |} latlngs)).
Proof.
  intros Hne. destruct latlngs as [| p0 rest]; [contradiction|].
  unfold latlngsToGeoJSON. cbn [map coordinates hd].
  set (first := (lng p0, lat p0)).
  set (ring := first :: map (fun p => (lng p, lat p)) rest).
  destruct (same_position first (last ring first)) eqn:E.
  - exists ring, first. repeat split. symmetry. apply same_position_eq. exact E.
  - exists (ring ++ [(fst first, snd first)]), first. repeat split.
    rewrite last_last. reflexivity.
Qed.

(** The ring holds the positions of the drawn vertices in their order,
    followed by at most one position, and is closed. *)
Lemma latlngsToGeoJSON_ring (latlngs : list LatLng) :
  latlngs <> [] ->
  exists ring first,
    coordinates (latlngsToGeoJSON latlngs) = [ring] /\
    firstn (length latlngs) ring = map (fun p => (lng p, lat p)) latlngs /\
    (length ring <= length latlngs + 1)%nat /\
    hd_error ring = Some first /\ last ring first = first.
Proof.
  intros Hne. destruct latlngs as [| p0 rest]; [contradiction|].
  unfold latlngsToGeoJSON. cbn [map coordinates].
  set (first := (lng p0, lat p0)).
  set (ring := first :: map (fun p => (lng p, lat p)) rest).
  assert (Hl : length ring = length (p0 :: rest))
    by (unfold ring; cbn [length]; rewrite length_map; reflexivity).
  destruct (same_position first (last ring first)) eqn:E.
  - exists ring, first. repeat split.
    + rewrite <- Hl. apply firstn_all.
    + rewrite Hl. lia.
    + symmetry. apply same_position_eq. exact E.
  - exists (ring ++ [(fst first, snd first)]), first. repeat split.
    + rewrite <- Hl, firstn_app, firstn_all, Nat.sub_diag.
      cbn [firstn]. apply app_nil_r.
    + rewrite length_app, Hl. cbn [length]. lia.
    + rewrite last_last. reflexivity.
Qed.

(** What [persist] leaves for a list that is not empty. *)
Lemma persist_snoc (writable : bool) (entry : option (list CustomBuilding))
    (items : list CustomBuilding) (b : CustomBuilding) :
  persist writable entry (items ++ [b])
  = if writable then Some (items ++ [b]) else entry.
Proof.
  unfold persist. rewrite length_app. cbn [length].
  replace (0 <? length items + 1)%nat with true
    by (symmetry; apply Nat.ltb_lt; lia).
  destruct writable; reflexivity.
Qed.

(** C10: a list of fewer than three points, or one whose area is below 1 m2,
    makes [addBuilding] return null and leaves the list of the state and the
    stored entry as they were; any other list appends exactly one building to
    the list of the state, whose ring holds the drawn vertices in their
    order, followed by at most one position, and is closed (its first
    position, that of the first drawn vertex, is also its last); the entry of
    [localStorage] receives the new list when the write succeeds and stays
    as it was when the write fails; and the call never throws. *)
Theorem addBuilding_atomic (airportCenter : R * R) (newId : String.string)
    (writable : bool) (st : Store) (latlngs : list LatLng)
    (lbl : option String.string) :
  exists area, calcGeodesicArea latlngs = Some area /\
    ((length latlngs < 3)%nat \/ area < 1 ->
     addBuilding airportCenter newId writable st latlngs lbl
     = Returned None st) /\
    (~ ((length latlngs < 3)%nat \/ area < 1) ->
     exists b ring first,
       addBuilding airportCenter newId writable st latlngs lbl
       = Returned (Some b)
           {| buildings := buildings st ++ [b];
              stored := if writable then Some (buildings st ++ [b])
                        else stored st |} /\
       area_m2 b = Math_round area /\
       coordinates (geometry b) = [ring] /\
       firstn (length latlngs) ring = map (fun p => (lng p, lat p)) latlngs /\
       (length ring <= length latlngs + 1)%nat /\
       hd_error ring = Some first /\ last ring first = first).
Proof.
  pose proof (calcGeodesicArea_eq latlngs) as E.
  unfold addBuilding.
  destruct (length latlngs <? 3)%nat eqn:L.
  - exists 0. split; [exact E|]. split.
    + intros _. reflexivity.
    + intros N. exfalso. apply N. left. apply Nat.ltb_lt. exact L.
  - rewrite E. eexists. split; [reflexivity|].
    set (area := Rabs _). apply Nat.ltb_ge in L.
    destruct (Rlt_dec area 1) as [S | B]; split.
    + intros _. reflexivity.
    + intros N. exfalso. apply N. right. exact S.
    + intros [H | H]; [lia | contradiction].
    + intros _.
      assert (Hne : latlngs <> []) by (destruct latlngs; [cbn in L; lia | discriminate]).
      destruct (latlngsToGeoJSON_ring latlngs Hne)
        as (ring & first & C & H1 & H2 & H3 & H4).
      eexists. exists ring, first. split; [|split; [|split; [|split; [|split; [|split]]]]].
      * rewrite persist_snoc. reflexivity.
      * reflexivity.
      * exact C.
      * exact H1.
      * exact H2.
      * exact H3.
      * exact H4.
Qed.

End AddBuildingFacts.

(** The triangle is accepted: its area is above 1 m2, so one building is
    appended to an empty list, and stored when the write succeeds. *)
Example addBuilding_triangle (writable : bool) :
  exists b,
    CustomBuildings.addBuilding (33.6407%R, (-84.4277)%R) String.EmptyString
      writable
      {| CustomBuildings.buildings := []; CustomBuildings.stored := None |}
      GeoProps.triangle None
    = CustomBuildings.Returned (Some b)
        {| CustomBuildings.buildings := [b];
           CustomBuildings.stored := if writable then Some [b] else None |}.
Proof.
  pose proof triangle_unitArea_bound as B.
  unfold CustomBuildings.addBuilding.
  cbn [GeoProps.triangle length Nat.ltb Nat.leb]. fold GeoProps.triangle.
  rewrite triangle_area.
  destruct (Rlt_dec (GeoProps.unitArea GeoProps.triangle) 1) as [S | _]; [lra|].
  eexists. f_equal. f_equal. cbn [CustomBuildings.buildings app].
  destruct writable; reflexivity.
Qed.

(** Witness of [addBuilding_atomic]: two points are refused and leave the
    store as it was; the triangle is appended, and the write that fails
    leaves the entry absent. *)
Lemma addBuilding_atomic_witness :
  CustomBuildings.addBuilding (33.6407%R, (-84.4277)%R) String.EmptyString
    true
    {| CustomBuildings.buildings := []; CustomBuildings.stored := None |}
    (firstn 2 GeoProps.triangle) None
  = CustomBuildings.Returned None
      {| CustomBuildings.buildings := []; CustomBuildings.stored := None |} /\
  exists b,
    CustomBuildings.addBuilding (33.6407%R, (-84.4277)%R) String.EmptyString
      false
      {| CustomBuildings.buildings := []; CustomBuildings.stored := None |}
      GeoProps.triangle None
    = CustomBuildings.Returned (Some b)
        {| CustomBuildings.buildings := [b]; CustomBuildings.stored := None |}.
Proof.
  split.
  - destruct (addBuilding_atomic (33.6407%R, (-84.4277)%R) String.EmptyString
                true
                {| CustomBuildings.buildings := [];
                   CustomBuildings.stored := None |}
                (firstn 2 GeoProps.triangle) None) as (area & _ & Hnull & _).
    apply Hnull. left. cbn. lia.
  - destruct (addBuilding_atomic (33.6407%R, (-84.4277)%R) String.EmptyString
                false
                {| CustomBuildings.buildings := [];
                   CustomBuildings.stored := None |}
                GeoProps.triangle None) as (area & Ha & _ & Hadd).
    rewrite triangle_area in Ha. injection Ha as <-.
    destruct Hadd as (b & ring & first & Hb & _).
    + pose proof triangle_unitArea_bound as B.
      intros [L | L]; [cbn in L; lia | lra].
    + exists b. exact Hb.
Defined.

(** ** The set of hidden buildings *)

Section HiddenSetFacts.

Import UseHiddenBuildings HookProps.

Lemma sameKey_refl (k : Key) : HomePage.sameKey k k = true.
Proof.
  unfold HomePage.sameKey. rewrite !andb_true_iff, !Qeq_bool_iff.
  repeat split; reflexivity.
Qed.

Lemma sameKey_sym (k k' : Key) : HomePage.sameKey k k' = HomePage.sameKey k' k.
Proof.
  apply eq_iff_eq_true. unfold HomePage.sameKey.
  rewrite !andb_true_iff, !Qeq_bool_iff.
  split; intros ((H1 & H2) & H3); repeat split; symmetry; assumption.
Qed.

Lemma sameKey_trans (a b c : Key) :
  HomePage.sameKey a b = true -> HomePage.sameKey b c = true ->
  HomePage.sameKey a c = true.
Proof.
  unfold HomePage.sameKey. rewrite !andb_true_iff, !Qeq_bool_iff.
  intros ((H1 & H2) & H3) ((G1 & G2) & G3).
  repeat split; etransitivity; eassumption.
Qed.

(** Two keys that are the same key are the same key as any third one alike. *)
Lemma sameKey_congr (a b c : Key) :
  HomePage.sameKey a b = true -> HomePage.sameKey a c = HomePage.sameKey b c.
Proof.
  intros H. destruct (HomePage.sameKey b c) eqn:E.
  - eapply sameKey_trans; eassumption.
  - destruct (HomePage.sameKey a c) eqn:F; [|reflexivity].
    rewrite sameKey_sym in H. rewrite <- E. symmetry.
    eapply sameKey_trans; eassumption.
Qed.

Lemma has_app (l l' : list Key) (k : Key) : has (l ++ l') k = has l k || has l' k.
Proof. unfold has. apply existsb_app. Qed.

Lemma has_add (keys : list Key) (k k' : Key) :
  has (add keys k) k' = has keys k' || HomePage.sameKey k' k.
Proof.
  unfold add. destruct (has keys k) eqn:E.
  - destruct (HomePage.sameKey k' k) eqn:S; [|rewrite orb_false_r; reflexivity].
    rewrite orb_true_r. unfold has in *. apply existsb_exists in E.
    destruct E as (x & Hx & Sx). apply existsb_exists. exists x. split; [exact Hx|].
    eapply sameKey_trans; eassumption.
  - rewrite has_app. cbn [has existsb]. rewrite orb_false_r. reflexivity.
Qed.

Lemma has_delete (keys : list Key) (k k' : Key) :
  has (delete keys k) k' = has keys k' && negb (HomePage.sameKey k' k).
Proof.
  unfold has, delete. induction keys as [| x keys IH]; [reflexivity|].
  cbn [filter existsb]. destruct (HomePage.sameKey k x) eqn:E; cbn [negb].
  - rewrite IH. destruct (HomePage.sameKey k' x) eqn:F; cbn [orb]; [|reflexivity].
    replace (HomePage.sameKey k' k) with true; [apply andb_false_r|].
    symmetry. rewrite sameKey_sym in E. eapply sameKey_trans; eassumption.
  - cbn [existsb]. rewrite IH. destruct (HomePage.sameKey k' x) eqn:F; cbn [orb]; [|reflexivity].
    replace (HomePage.sameKey k' k) with false; [reflexivity|].
    symmetry. destruct (HomePage.sameKey k' k) eqn:G; [|reflexivity].
    exfalso. rewrite sameKey_sym in G.
    rewrite (sameKey_trans _ _ _ G F) in E. discriminate.
Qed.

Lemma delete_absent (keys : list Key) (k : Key) :
  has keys k = false -> delete keys k = keys.
Proof.
  unfold has, delete. induction keys as [| x keys IH]; [reflexivity|].
  cbn [existsb filter]. intros H. apply orb_false_iff in H. destruct H as [H1 H2].
  rewrite H1. cbn [negb]. rewrite IH by exact H2. reflexivity.
Qed.

Lemma delete_app (l l' : list Key) (k : Key) :
  delete (l ++ l') k = delete l k ++ delete l' k.
Proof. unfold delete. apply filter_app. Qed.

Lemma distinctKeys_app (l : list Key) (k : Key) :
  distinctKeys l -> has l k = false -> distinctKeys (l ++ [k]).
Proof.
  induction l as [| x l IH]; intros D H.
  - cbn. auto.
  - cbn [distinctKeys app] in *. destruct D as [Dx Dl].
    cbn [has existsb] in H. apply orb_false_iff in H. destruct H as [H1 H2].
    split; [|apply IH; assumption].
    rewrite has_app, Dx. cbn [has existsb]. rewrite sameKey_sym, H1. reflexivity.
Qed.

Lemma distinctKeys_add (l : list Key) (k : Key) :
  distinctKeys l -> distinctKeys (add l k).
Proof.
  intros D. unfold add. destruct (has l k) eqn:E; [exact D|].
  apply distinctKeys_app; assumption.
Qed.

Lemma distinctKeys_delete (l : list Key) (k : Key) :
  distinctKeys l -> distinctKeys (delete l k).
Proof.
  induction l as [| x l IH]; intros D; [exact I|].
  cbn [distinctKeys] in D. destruct D as [Dx Dl].
  unfold delete. cbn [filter]. fold (delete l k).
  destruct (HomePage.sameKey k x); cbn [negb]; [apply IH; exact Dl|].
  cbn [distinctKeys]. split; [|apply IH; exact Dl].
  rewrite has_delete, Dx. reflexivity.
Qed.

Lemma distinctKeys_fold_add (ks : list Key) (l : list Key) :
  distinctKeys l -> distinctKeys (fold_left add ks l).
Proof.
  revert l. induction ks as [| k ks IH]; intros l D; [exact D|].
  cbn [fold_left]. apply IH. apply distinctKeys_add. exact D.
Qed.

(** Building a set from the elements of a set gives the same set, in the
    same order. *)
Lemma fold_add_distinct (l acc : list Key) :
  distinctKeys (acc ++ l) -> fold_left add l acc = acc ++ l.
Proof.
  revert acc. induction l as [| k l IH]; intros acc D.
  - cbn. rewrite app_nil_r. reflexivity.
  - cbn [fold_left].
    assert (H : has acc k = false).
    { clear IH. induction acc as [| x acc IHa]; [reflexivity|].
      cbn [app distinctKeys] in D. destruct D as [Dx Dl].
      cbn [has existsb]. fold (has acc k). rewrite (IHa Dl), orb_false_r.
      rewrite has_app in Dx. apply orb_false_iff in Dx. destruct Dx as [_ Dx].
      cbn [has existsb] in Dx. apply orb_false_iff in Dx. destruct Dx as [Dx _].
      rewrite sameKey_sym. exact Dx. }
    unfold add at 2. rewrite H.
    replace (acc ++ k :: l) with ((acc ++ [k]) ++ l) in *
      by (rewrite <- app_assoc; reflexivity).
    apply IH. exact D.
Qed.

Lemma ofList_distinct (l : list Key) : distinctKeys l -> ofList l = l.
Proof. intros D. unfold ofList. apply (fold_add_distinct l []). exact D. Qed.

(** A write that succeeds leaves the keys, or no entry for the empty set;
    a write that fails leaves the entry as it was. *)
Lemma persist_written (entry : option (list Key)) (keys : list Key) :
  persist true entry keys = if (0 <? length keys)%nat then Some keys else None.
Proof. unfold persist. destruct (0 <? length keys)%nat; reflexivity. Qed.

Lemma persist_failed (entry : option (list Key)) (keys : list Key) :
  persist false entry keys = entry.
Proof. unfold persist. destruct (0 <? length keys)%nat; reflexivity. Qed.

Lemma load_persist (entry : option (list Key)) (keys : list Key) :
  distinctKeys keys -> load true (persist true entry keys) = keys.
Proof.
  intros D. rewrite persist_written. destruct keys as [| k keys]; [reflexivity|].
  cbn [length Nat.ltb Nat.leb]. unfold load, LocalStorage.getItem.
  apply ofList_distinct. exact D.
Qed.

Lemma fold_add_keys (bs : list Solar.Building) (l : list Key) :
  fold_left (fun acc b => add acc (HomePage.buildingKey b)) bs l
  = fold_left add (map HomePage.buildingKey bs) l.
Proof.
  revert l. induction bs as [| b bs IH]; intros l; [reflexivity|].
  cbn [fold_left map]. apply IH.
Qed.

(** X1: after a building is hidden, the hidden buildings are those that were
    hidden before and those with the key of that building. *)
Theorem isHidden_after_hideBuilding (writable : bool) (st : State)
    (b b' : Solar.Building) :
  isHidden (hideBuilding writable st b) b'
  = isHidden st b'
    || HomePage.sameKey (HomePage.buildingKey b') (HomePage.buildingKey b).
Proof. unfold isHidden, hideBuilding. cbn [hiddenKeys]. apply has_add. Qed.

(** X2: after a key is restored, the hidden buildings are those that were
    hidden before, except those with that key. *)
Theorem isHidden_after_restoreBuilding (writable : bool) (st : State)
    (key : Key) (b' : Solar.Building) :
  isHidden (restoreBuilding writable st key) b'
  = isHidden st b' && negb (HomePage.sameKey (HomePage.buildingKey b') key).
Proof. unfold isHidden, restoreBuilding. cbn [hiddenKeys]. apply has_delete. Qed.

(** X3: hiding a building that is not hidden and restoring its key gives
    back the set of hidden keys, in the same order, whatever became of the
    two writes.  The stored entry is the one written for that set when the
    second write succeeds; when it fails, the entry is the one that hiding
    left: the set with the key of the building when the first write
    succeeded, the entry from before when both failed. *)
Theorem restore_after_hide (w1 w2 : bool) (st : State) (b : Solar.Building) :
  isHidden st b = false ->
  let st' :=
    restoreBuilding w2 (hideBuilding w1 st b) (HomePage.buildingKey b) in
  hiddenKeys st' = hiddenKeys st /\
  stored st'
  = if w2 then persist true (stored st) (hiddenKeys st)
    else if w1 then Some (hiddenKeys st ++ [HomePage.buildingKey b])
    else stored st.
Proof.
  intros H. cbv zeta. unfold isHidden in H. unfold restoreBuilding, hideBuilding.
  cbn [hiddenKeys stored]. unfold add. rewrite H.
  rewrite delete_app, (delete_absent _ _ H).
  unfold delete. cbn [filter]. rewrite sameKey_refl. cbn [negb].
  rewrite app_nil_r. split; [reflexivity|].
  destruct w2.
  - rewrite !persist_written. reflexivity.
  - rewrite persist_failed. destruct w1.
    + rewrite persist_written, length_app. cbn [length].
      replace (0 <? length (hiddenKeys st) + 1)%nat with true; [reflexivity|].
      symmetry. apply Nat.ltb_lt. lia.
    + apply persist_failed.
Qed.

(** Hiding a building twice leaves the set that hiding it once leaves. *)
Lemma hideBuilding_idempotent (w1 w2 : bool) (st : State) (b : Solar.Building) :
  hiddenKeys (hideBuilding w2 (hideBuilding w1 st b) b)
  = hiddenKeys (hideBuilding w1 st b).
Proof.
  unfold hideBuilding. cbn [hiddenKeys].
  unfold add at 1. rewrite has_add, sameKey_refl, orb_true_r. reflexivity.
Qed.

Lemma hiddenKeys_one_by_one (bws : list (Solar.Building * bool)) (st : State) :
  hiddenKeys (fold_left (fun s bw => hideBuilding (snd bw) s (fst bw)) bws st)
  = fold_left (fun acc b => add acc (HomePage.buildingKey b)) (map fst bws)
      (hiddenKeys st).
Proof.
  revert st. induction bws as [| bw bws IH]; intros st; [reflexivity|].
  cbn [fold_left map]. rewrite IH. reflexivity.
Qed.

(** X4: hiding several buildings at once leaves the set of hidden keys that
    hiding them one after the other leaves, whatever became of the writes;
    the stored entries are the same as well when the one write of the first
    way and the last write of the second succeed. *)
Theorem hideMultiple_as_hideBuilding (writable : bool) (st : State)
    (bws : list (Solar.Building * bool)) :
  let one_by_one :=
    fold_left (fun s bw => hideBuilding (snd bw) s (fst bw)) bws st in
  let at_once := hideMultiple writable st (map fst bws) in
  hiddenKeys at_once = hiddenKeys one_by_one /\
  (writable = true ->
   (exists init b, bws = init ++ [(b, true)]) ->
   stored at_once = stored one_by_one).
Proof.
  cbv zeta. split.
  - rewrite hiddenKeys_one_by_one. reflexivity.
  - intros -> (init & b & ->).
    rewrite fold_left_app. cbn [fold_left fst snd].
    unfold hideMultiple, hideBuilding at 1. cbn [stored].
    rewrite !persist_written, hiddenKeys_one_by_one.
    rewrite map_app, fold_left_app. reflexivity.
Qed.

(** X5: from a set of distinct keys, each of the four operations leaves
    distinct keys in the state; when its write succeeds, loading the stored
    entry gives back the set of the state, and when its write fails, the
    stored entry is the one from before the operation. *)
Theorem hidden_keys_reload (writable : bool) (st : State) (b : Solar.Building)
    (bs : list Solar.Building) (key : Key) :
  distinctKeys (hiddenKeys st) ->
  let reloads st' :=
    distinctKeys (hiddenKeys st') /\
    (writable = true -> load true (stored st') = hiddenKeys st') /\
    (writable = false -> stored st' = stored st) in
  reloads (hideBuilding writable st b) /\
  reloads (hideMultiple writable st bs) /\
  reloads (restoreBuilding writable st key) /\
  reloads (restoreAll writable st).
Proof.
  intros D. cbv zeta.
  assert (R : forall keys, distinctKeys keys ->
                distinctKeys keys /\
                (writable = true ->
                 load true (persist writable (stored st) keys) = keys) /\
                (writable = false ->
                 persist writable (stored st) keys = stored st)).
  { intros keys Dk. split; [exact Dk|]. split; intros ->.
    - apply load_persist. exact Dk.
    - apply persist_failed. }
  split; [|split; [|split]].
  - apply R. apply distinctKeys_add. exact D.
  - unfold hideMultiple. cbn [hiddenKeys stored]. apply R.
    rewrite fold_add_keys. apply distinctKeys_fold_add. exact D.
  - apply R. apply distinctKeys_delete. exact D.
  - apply R. exact I.
Qed.

End HiddenSetFacts.

(** Witness of [restore_after_hide]: a third building hidden and restored;
    the first write succeeds and the second fails, so the stored entry still
    holds the three keys while the set is back to two. *)
Lemma restore_after_hide_witness :
  UseHiddenBuildings.isHidden HookProps.twoHidden Props.drawn10000 = false /\
  let st' :=
    UseHiddenBuildings.restoreBuilding false
      (UseHiddenBuildings.hideBuilding true HookProps.twoHidden Props.drawn10000)
      (HomePage.buildingKey Props.drawn10000) in
  UseHiddenBuildings.hiddenKeys st'
  = UseHiddenBuildings.hiddenKeys HookProps.twoHidden /\
  UseHiddenBuildings.stored st'
  = Some (UseHiddenBuildings.hiddenKeys HookProps.twoHidden
          ++ [HomePage.buildingKey Props.drawn10000]).
Proof.
  split; [reflexivity|].
  apply (restore_after_hide true false HookProps.twoHidden Props.drawn10000).
  reflexivity.
Defined.

(** Witness of [hideMultiple_as_hideBuilding]: two buildings at one position
    hidden at once and one after the other, the first single write failing. *)
Lemma hideMultiple_as_hideBuilding_witness :
  UseHiddenBuildings.stored
    (UseHiddenBuildings.hideMultiple true HookProps.twoHidden
       [Props.drawn10000; Props.estimated10000])
  = UseHiddenBuildings.stored
      (UseHiddenBuildings.hideBuilding true
         (UseHiddenBuildings.hideBuilding false HookProps.twoHidden
            Props.drawn10000)
         Props.estimated10000).
Proof.
  apply (proj2 (hideMultiple_as_hideBuilding true HookProps.twoHidden
                  [(Props.drawn10000, false); (Props.estimated10000, true)])).
  - reflexivity.
  - exists [(Props.drawn10000, false)], Props.estimated10000. reflexivity.
Defined.

(** Witness of [hidden_keys_reload]: the state with two hidden buildings
    and a write that succeeds. *)
Lemma hidden_keys_reload_witness :
  UseHiddenBuildings.load true
    (UseHiddenBuildings.stored
       (UseHiddenBuildings.hideBuilding true HookProps.twoHidden
          Props.drawn10000))
  = UseHiddenBuildings.hiddenKeys
      (UseHiddenBuildings.hideBuilding true HookProps.twoHidden
         Props.drawn10000).
Proof.
  assert (D : HookProps.distinctKeys
                (UseHiddenBuildings.hiddenKeys HookProps.twoHidden))
    by (repeat split; reflexivity).
  destruct (hidden_keys_reload true HookProps.twoHidden Props.drawn10000
              [] (0, 0, 0)%Q D) as ((_ & L & _) & _).
  apply L. reflexivity.
Defined.

(** ** The buildings and totals shown *)

Section DataFacts.

Local Open Scope Q_scope.

(** X6: the buildings shown are the buildings of the server that are not
    hidden, followed, when the server sent totals, by every custom building
    with its estimate; a custom building is shown whether or not its key is
    hidden. *)
Theorem data_buildings_shown (rawData : HomePage.RawData)
    (hiddenKeys : list (Q * Q * Q)) (customBuildings : list Solar.Building)
    (usablePct panelEff : Z) (elecPriceQ : Q) :
  fst (HomePage.data rawData hiddenKeys customBuildings usablePct panelEff
         elecPriceQ)
  = filter (fun b => negb (HomePage.isHidden hiddenKeys b))
      (HomePage.raw_buildings rawData)
    ++ match HomePage.raw_totals rawData with
       | Some totals =>
         map (Solar.customWithSolar (HiddenBuildings.capacity_factor totals)
                usablePct panelEff elecPriceQ) customBuildings
       | None => []
       end.
Proof.
  unfold HomePage.data. cbn [fst].
  assert (F : (if (0 <? length hiddenKeys)%nat
               then filter (fun b => negb (HomePage.isHidden hiddenKeys b))
                      (HomePage.raw_buildings rawData)
               else HomePage.raw_buildings rawData)
              = filter (fun b => negb (HomePage.isHidden hiddenKeys b))
                  (HomePage.raw_buildings rawData)).
  { destruct hiddenKeys as [| k ks]; [|reflexivity].
    cbn [length Nat.ltb Nat.leb]. symmetry.
    apply forallb_filter_id. apply forallb_forall. intros b _. reflexivity. }
  rewrite F.
  destruct customBuildings as [| cb cbs]; cbn [length Nat.ltb Nat.leb].
  - destruct (HomePage.raw_totals rawData); cbn [map]; rewrite app_nil_r; reflexivity.
  - destruct (HomePage.raw_totals rawData); [reflexivity|].
    rewrite app_nil_r. reflexivity.
Qed.

(** X7: when a building is hidden or a custom building exists, the server
    sent totals and the list shown is not empty, the totals shown count the
    buildings shown, and their capacity is the rounded sum of the capacities
    of the buildings shown. *)
Theorem data_totals_consistent (rawData : HomePage.RawData)
    (hiddenKeys : list (Q * Q * Q)) (customBuildings : list Solar.Building)
    (usablePct panelEff : Z) (elecPriceQ : Q) (ot : HiddenBuildings.Totals) :
  let d := HomePage.data rawData hiddenKeys customBuildings usablePct panelEff
             elecPriceQ in
  HomePage.raw_totals rawData = Some ot ->
  hiddenKeys <> [] \/ customBuildings <> [] ->
  fst d <> [] ->
  exists t, snd d = Some t /\
    HiddenBuildings.building_count t = inject_Z (Z.of_nat (length (fst d))) /\
    HiddenBuildings.capacity_kw t
    = Props.round1
        (HiddenBuildings.sumOver
           (HiddenBuildings.solarField Solar.capacity_kw) (fst d)).
Proof.
  cbv zeta. intros Ht Hc Hne.
  assert (S : snd (HomePage.data rawData hiddenKeys customBuildings usablePct
                     panelEff elecPriceQ)
              = HiddenBuildings.recalcTotals
                  (fst (HomePage.data rawData hiddenKeys customBuildings
                          usablePct panelEff elecPriceQ)) (Some ot)).
  { unfold HomePage.data. cbn [fst snd]. rewrite Ht.
    destruct hiddenKeys as [| k ks], customBuildings as [| cb cbs];
      cbn [length Nat.ltb Nat.leb orb]; try reflexivity.
    destruct Hc as [Hc | Hc]; contradiction. }
  rewrite S.
  destruct (recalcTotals_nonempty _ ot Hne)
    as (t & E & _ & Hn & Hk & _).
  exists t. auto.
Qed.

End DataFacts.

(** Witness of [data_totals_consistent]: the buildings of the sample share
    one key, so hiding it leaves the custom building to show. *)
Lemma data_totals_consistent_witness :
  exists t,
    snd (HomePage.data Props.rawSample
           [HomePage.buildingKey Props.estimated10000] [Props.drawn10000]
           65 200 0.12) = Some t /\
    HiddenBuildings.building_count t = 1%Q.
Proof.
  destruct (data_totals_consistent Props.rawSample
              [HomePage.buildingKey Props.estimated10000] [Props.drawn10000]
              65 200 0.12 Props.sampleTotals eq_refl)
    as (t & E & Hn & _).
  - left. discriminate.
  - discriminate.
  - exists t. split; [exact E|]. rewrite Hn. reflexivity.
Defined.

(** ** The store of custom buildings *)

Section CustomStoreFacts.

Local Open Scope R_scope.
Import CustomBuildings UseCustomBuildings.

Lemma Math_round_ge_1 (v : R) : 1 <= v -> 1 <= CustomBuildings.Math_round v.
Proof.
  intros H. unfold CustomBuildings.Math_round. apply IZR_le.
  apply Zfloor_lub. lra.
Qed.

Lemma Math_round_nonneg (v : R) : 0 <= v -> 0 <= CustomBuildings.Math_round v.
Proof.
  intros H. unfold CustomBuildings.Math_round. apply IZR_le.
  apply Zfloor_lub. lra.
Qed.

(** A write that succeeds leaves the list, or no entry for the empty list;
    a write that fails leaves the entry as it was. *)
Lemma persist_written_items (entry : option (list CustomBuilding))
    (items : list CustomBuilding) :
  persist true entry items = if (0 <? length items)%nat then Some items else None.
Proof. unfold persist. destruct (0 <? length items)%nat; reflexivity. Qed.

Lemma persist_failed_items (entry : option (list CustomBuilding))
    (items : list CustomBuilding) :
  persist false entry items = entry.
Proof. unfold persist. destruct (0 <? length items)%nat; reflexivity. Qed.

(** What [addBuilding] does when it accepts a polygon. *)
Lemma addBuilding_accepts (airportCenter : R * R) (newId : String.string)
    (writable : bool) (st : Store) (latlngs : list LatLng)
    (lbl : option String.string) (b : CustomBuilding) (st' : Store) :
  addBuilding airportCenter newId writable st latlngs lbl
  = Returned (Some b) st' ->
  exists area,
    calcGeodesicArea latlngs = Some area /\ 1 <= area /\
    (3 <= length latlngs)%nat /\
    st' = {| buildings := buildings st ++ [b];
             stored := if writable then Some (buildings st ++ [b])
                       else stored st |} /\
    CustomBuildings.id b = newId /\
    area_m2 b = CustomBuildings.Math_round area.
Proof.
  unfold addBuilding. destruct (length latlngs <? 3)%nat eqn:L; [discriminate|].
  apply Nat.ltb_ge in L.
  destruct (calcGeodesicArea latlngs) as [area |]; [|discriminate].
  destruct (Rlt_dec area 1) as [S | B]; [discriminate|].
  intros H. injection H as Hb Hs. exists area.
  split; [reflexivity|]. split; [lra|]. split; [exact L|].
  rewrite persist_snoc in Hs.
  subst b. cbn [CustomBuildings.id area_m2]. subst st'.
  repeat split.
Qed.

Lemma filter_other_ids (items : list CustomBuilding) (id0 : String.string) :
  (forall b, In b items -> CustomBuildings.id b <> id0) ->
  filter (fun b => negb (String.eqb (CustomBuildings.id b) id0)) items = items.
Proof.
  intros H. apply forallb_filter_id. apply forallb_forall. intros b Hb.
  apply negb_true_iff. apply String.eqb_neq. apply H. exact Hb.
Qed.

(** X13: when the new identifier is not in use, removing a building that
    [addBuilding] has just added gives back the list of the state, whatever
    became of the two writes.  The stored entry is the one written for that
    list when the second write succeeds; when it fails, the entry is the one
    that adding left: the list with the removed building still in it when
    the first write succeeded, the entry from before when both failed. *)
Theorem remove_after_add (airportCenter : R * R) (newId : String.string)
    (w1 w2 : bool) (st : Store) (latlngs : list LatLng)
    (lbl : option String.string) (b : CustomBuilding) (st' : Store) :
  (forall c, In c (buildings st) -> CustomBuildings.id c <> newId) ->
  addBuilding airportCenter newId w1 st latlngs lbl = Returned (Some b) st' ->
  buildings (removeBuilding w2 st' newId) = buildings st /\
  stored (removeBuilding w2 st' newId)
  = if w2 then persist true (stored st) (buildings st)
    else if w1 then Some (buildings st ++ [b])
    else stored st.
Proof.
  intros Hfresh Hadd.
  destruct (addBuilding_accepts _ _ _ _ _ _ _ _ Hadd)
    as (area & _ & _ & _ & -> & Hid & _).
  unfold removeBuilding. cbn [buildings stored].
  rewrite filter_app, (filter_other_ids _ _ Hfresh). cbn [filter].
  rewrite Hid, String.eqb_refl. cbn [negb]. rewrite app_nil_r.
  split; [reflexivity|]. destruct w2.
  - rewrite !persist_written_items. reflexivity.
  - apply persist_failed_items.
Qed.

(** X14: every building that [addBuilding] appends has an area that is a
    whole number of at least 1 m2; so a list whose buildings are such holds
    only such buildings after [addBuilding], [removeBuilding] and
    [removeAll]. *)
Theorem custom_buildings_area_at_least_1 (airportCenter : R * R)
    (newId id0 : String.string) (writable : bool) (st : Store)
    (latlngs : list LatLng) (lbl : option String.string) :
  let ok b := 1 <= area_m2 b /\ (exists z : Z, area_m2 b = IZR z) in
  Forall ok (buildings st) ->
  (forall b st', addBuilding airportCenter newId writable st latlngs lbl
                 = Returned (Some b) st' ->
                 ok b /\ Forall ok (buildings st')) /\
  Forall ok (buildings (removeBuilding writable st id0)) /\
  Forall ok (buildings (removeAll writable st)).
Proof.
  cbv zeta. intros Hok. split; [|split].
  - intros b st' Hadd.
    destruct (addBuilding_accepts _ _ _ _ _ _ _ _ Hadd)
      as (area & _ & Ha & _ & -> & _ & Hm).
    assert (Hb : 1 <= area_m2 b /\ (exists z : Z, area_m2 b = IZR z)).
    { rewrite Hm. split; [apply Math_round_ge_1; exact Ha|].
      eexists. reflexivity. }
    split; [exact Hb|]. cbn [buildings]. apply Forall_app. split; [exact Hok|].
    constructor; [exact Hb | constructor].
  - unfold removeBuilding. cbn [buildings]. apply Forall_forall.
    intros b Hb. apply filter_In in Hb. destruct Hb as [Hb _].
    rewrite Forall_forall in Hok. apply Hok. exact Hb.
  - constructor.
Qed.

(** X15: after [addBuilding] has appended a building, after [removeBuilding]
    and after [removeAll], when the write of the operation succeeds, loading
    the stored entry gives the list of the state, and the entry is absent
    exactly when the list is empty; when the write fails, the stored entry
    is the one from before the operation. *)
Theorem custom_buildings_reload (airportCenter : R * R)
    (newId id0 : String.string) (writable : bool) (st : Store)
    (latlngs : list LatLng) (lbl : option String.string) :
  let reloads st' :=
    (writable = true ->
     load true (stored st') = buildings st' /\
     (stored st' = None <-> buildings st' = [])) /\
    (writable = false -> stored st' = stored st) in
  (forall b st', addBuilding airportCenter newId writable st latlngs lbl
                 = Returned (Some b) st' -> reloads st') /\
  reloads (removeBuilding writable st id0) /\ reloads (removeAll writable st).
Proof.
  cbv zeta.
  assert (P : forall items : list CustomBuilding,
            (writable = true ->
             load true (persist writable (stored st) items) = items /\
             (persist writable (stored st) items = None <-> items = [])) /\
            (writable = false -> persist writable (stored st) items = stored st)).
  { intros items. split; intros ->.
    - rewrite persist_written_items.
      destruct items as [| b items]; cbn; split; try reflexivity;
        split; congruence.
    - apply persist_failed_items. }
  split; [|split].
  - intros b st' Hadd.
    destruct (addBuilding_accepts _ _ _ _ _ _ _ _ Hadd)
      as (area & _ & _ & _ & -> & _).
    cbn [stored buildings]. split; intros ->.
    + cbn. split; [reflexivity|].
      split; [discriminate|]. intros E. apply app_eq_nil in E.
      destruct E as [_ E]. discriminate.
    + reflexivity.
  - apply P.
  - apply P.
Qed.

End CustomStoreFacts.

(** Witness of [remove_after_add]: the triangle added to an empty store and
    removed again; the first write succeeds and the second fails, so the
    stored entry still holds the building while the list is empty. *)
Lemma remove_after_add_witness :
  exists b st',
    CustomBuildings.addBuilding (33.6407%R, (-84.4277)%R) String.EmptyString
      true
      {| CustomBuildings.buildings := []; CustomBuildings.stored := None |}
      GeoProps.triangle None
    = CustomBuildings.Returned (Some b) st' /\
    CustomBuildings.buildings
      (UseCustomBuildings.removeBuilding false st' String.EmptyString) = [] /\
    CustomBuildings.stored
      (UseCustomBuildings.removeBuilding false st' String.EmptyString)
    = Some [b].
Proof.
  destruct (addBuilding_triangle true) as (b & Hb).
  eexists. eexists. split; [exact Hb|].
  apply (remove_after_add (33.6407%R, (-84.4277)%R) String.EmptyString
           true false
           {| CustomBuildings.buildings := []; CustomBuildings.stored := None |}
           GeoProps.triangle None b _);
    [intros c [] | exact Hb].
Defined.

(** Witness of [custom_buildings_area_at_least_1]: the triangle added to an
    empty store is stored with an area of at least 1 m2. *)
Lemma custom_buildings_area_at_least_1_witness :
  exists b st',
    CustomBuildings.addBuilding (33.6407%R, (-84.4277)%R) String.EmptyString
      true
      {| CustomBuildings.buildings := []; CustomBuildings.stored := None |}
      GeoProps.triangle None
    = CustomBuildings.Returned (Some b) st' /\
    (1 <= CustomBuildings.area_m2 b)%R /\
    Forall (fun c => (1 <= CustomBuildings.area_m2 c)%R
                     /\ (exists z : Z, CustomBuildings.area_m2 c = IZR z))
      (CustomBuildings.buildings st').
Proof.
  destruct (addBuilding_triangle true) as (b & Hb).
  eexists. eexists. split; [exact Hb|].
  destruct (custom_buildings_area_at_least_1 (33.6407%R, (-84.4277)%R)
              String.EmptyString String.EmptyString true
              {| CustomBuildings.buildings := []; CustomBuildings.stored := None |}
              GeoProps.triangle None (Forall_nil _)) as (Hadd & _).
  destruct (Hadd b _ Hb) as ((Ha & _) & Hall).
  split; [exact Ha | exact Hall].
Defined.

(** ** Centroid, distance bound and drawn rectangles *)

Section GeometryMoreFacts.

Local Open Scope R_scope.
Import CustomBuildings GeoProps.

Lemma fold_sum_bounds (f : LatLng -> R) (lo hi : R) (l : list LatLng) (a : R) :
  (forall p, In p l -> lo <= f p <= hi) ->
  a + INR (length l) * lo <= fold_left (fun s p => s + f p) l a
  <= a + INR (length l) * hi.
Proof.
  revert a. induction l as [| p l IH]; intros a H.
  - cbn. lra.
  - cbn [fold_left]. change (length (p :: l)) with (S (length l)). rewrite S_INR.
    assert (Hp : lo <= f p <= hi) by (apply H; left; reflexivity).
    assert (Hl : forall q, In q l -> lo <= f q <= hi)
      by (intros q Hq; apply H; right; exact Hq).
    specialize (IH (a + f p) Hl). lra.
Qed.

Lemma mean_bounds (f : LatLng -> R) (lo hi : R) (l : list LatLng) :
  l <> [] -> (forall p, In p l -> lo <= f p <= hi) ->
  lo <= fold_left (fun s p => s + f p) l 0 / INR (length l) <= hi.
Proof.
  intros Hne H. pose proof (fold_sum_bounds f lo hi l 0 H) as [L U].
  assert (N : 0 < INR (length l)).
  { apply lt_0_INR. destruct l; [contradiction | cbn; lia]. }
  set (n := INR (length l)) in *. set (s := fold_left _ l 0) in *.
  split.
  - apply Rmult_le_reg_r with n; [exact N|].
    unfold Rdiv. rewrite Rmult_assoc, Rinv_l by lra. lra.
  - apply Rmult_le_reg_r with n; [exact N|].
    unfold Rdiv. rewrite Rmult_assoc, Rinv_l by lra. lra.
Qed.

(** In exact arithmetic the centroid of a list of points that is not empty
    lies within the range of their latitudes and within the range of their
    longitudes.  (The binary64 mean can leave the range by a rounding
    error.) *)
Lemma centroid_within_bounds (latlngs : list LatLng)
    (latMin latMax lngMin lngMax : R) :
  latlngs <> [] ->
  (forall p, In p latlngs -> latMin <= lat p <= latMax) ->
  (forall p, In p latlngs -> lngMin <= lng p <= lngMax) ->
  latMin <= lat (centroid latlngs) <= latMax /\
  lngMin <= lng (centroid latlngs) <= lngMax.
Proof.
  intros Hne Hlat Hlng. unfold centroid. cbn [lat lng]. split.
  - apply (mean_bounds lat); assumption.
  - apply (mean_bounds lng); assumption.
Qed.

Lemma fold_sum_shift (f : LatLng -> R) (g : LatLng -> LatLng) (d : R)
    (l : list LatLng) (a : R) :
  (forall p, f (g p) = f p + d) ->
  fold_left (fun s p => s + f p) (map g l) a
  = fold_left (fun s p => s + f p) l a + INR (length l) * d.
Proof.
  intros H. revert a. induction l as [| p l IH]; intros a.
  - cbn. ring.
  - cbn [map fold_left]. rewrite IH, H.
    change (length (p :: l)) with (S (length l)). rewrite S_INR.
    assert (E : forall u v, fold_left (fun s q => s + f q) l (u + v)
                            = fold_left (fun s q => s + f q) l u + v).
    { clear. induction l as [| q l IHl]; intros u v; [reflexivity|].
      cbn [fold_left]. replace (u + v + f q) with (u + f q + v) by ring.
      apply IHl. }
    replace (a + (f p + d)) with (a + f p + d) by ring. rewrite E. ring.
Qed.

(** Moving every point by the same offset moves the centroid by that
    offset. *)
Lemma centroid_translate (dlat dlng : R) (latlngs : list LatLng) :
  latlngs <> [] ->
  centroid (translate dlat dlng latlngs)
  = {| lat := lat (centroid latlngs) + dlat;
       lng := lng (centroid latlngs) + dlng |}.
Proof.
  intros Hne. unfold centroid, translate. cbn [lat lng]. rewrite length_map.
  assert (N : INR (length latlngs) <> 0).
  { apply not_0_INR. destruct latlngs; [contradiction | discriminate]. }
  rewrite (fold_sum_shift lat _ dlat) by reflexivity.
  rewrite (fold_sum_shift lng _ dlng) by reflexivity.
  f_equal; field; exact N.
Qed.

Lemma atan2_le_PI2 (y x : R) : 0 <= y -> 0 <= x -> Math_atan2 y x <= PI / 2.
Proof.
  intros Hy Hx. unfold Math_atan2. pose proof PI_RGT_0 as P.
  destruct (Rlt_dec 0 x) as [Px | Nx].
  - pose proof (atan_bound (y / x)). lra.
  - destruct (Rlt_dec x 0) as [Lx | _]; [lra|].
    destruct (Rlt_dec 0 y) as [_ | _]; [lra|].
    destruct (Rlt_dec y 0) as [_ | _]; lra.
Qed.

(** In exact arithmetic no distance exceeds half the circumference of the
    sphere of radius 6371 km. *)
Lemma haversineKm_at_most_half_turn (lat1 lon1 lat2 lon2 : R) :
  haversineKm lat1 lon1 lat2 lon2 <= 6371 * PI.
Proof.
  unfold haversineKm. cbv zeta.
  pose proof (atan2_le_PI2 _ _ (sqrt_pos (haversineA lat1 lon1 lat2 lon2))
                (sqrt_pos (1 - haversineA lat1 lon1 lat2 lon2))).
  unfold R_km. lra.
Qed.

Lemma rectangle_meanLat (s e : LatLng) :
  meanLatOf (Drawing.rectangleCorners s e) = (lat s + lat e) / 2.
Proof.
  unfold meanLatOf, Drawing.rectangleCorners.
  cbn [fold_left lat length INR]. field.
Qed.

Lemma rectangle_unitArea (s e : LatLng) :
  unitArea (Drawing.rectangleCorners s e)
  = Rabs ((lat e - lat s) * (lng e - lng s)) * (PI / 180 * R_m) ^ 2.
Proof.
  unfold unitArea, shoelaceSum, Drawing.rectangleCorners.
  cbn [map hd length seq fold_left]. unfold crossStep.
  cbn [length Nat.add Nat.modulo Nat.divmod fst snd Nat.sub nth
       project x y lat lng].
  rewrite <- (Rabs_pos_eq ((PI / 180 * R_m) ^ 2)) by apply pow2_ge_0.
  rewrite <- Rabs_mult. f_equal. field.
Qed.

(** X18: the area computed for the rectangle drawn between two clicks is
    the product of its sides in degrees, turned into metres, shrunk by the
    cosine of the latitude half way between the two clicks. *)
Theorem rectangle_area (s e : LatLng) :
  calcGeodesicArea (Drawing.rectangleCorners s e)
  = Some (Rabs ((lat e - lat s) * (lng e - lng s)) * (PI / 180 * 6371000) ^ 2
          * Rabs (cos ((lat s + lat e) / 2 * PI / 180))).
Proof.
  rewrite calcGeodesicArea_scaled.
  change (length (Drawing.rectangleCorners s e) <? 3)%nat with false.
  cbv iota. rewrite rectangle_meanLat, rectangle_unitArea.
  unfold R_m. f_equal. ring.
Qed.

(** X19: a rectangle whose two clicks share a latitude or a longitude is
    not added: [addBuilding] returns null and leaves the state as it was. *)
Theorem degenerate_rectangle_rejected (airportCenter : R * R)
    (newId : String.string) (writable : bool) (st : Store) (s e : LatLng) :
  lat s = lat e \/ lng s = lng e ->
  Drawing.handleDrawCompletePage airportCenter newId writable st
    (Drawing.rectangleCorners s e)
  = Returned None st.
Proof.
  intros H. unfold Drawing.handleDrawCompletePage, addBuilding.
  change (length (Drawing.rectangleCorners s e) <? 3)%nat with false.
  cbv iota. rewrite calcGeodesicArea_scaled.
  change (length (Drawing.rectangleCorners s e) <? 3)%nat with false.
  cbv iota. rewrite rectangle_unitArea.
  replace ((lat e - lat s) * (lng e - lng s)) with 0
    by (destruct H as [-> | ->]; ring).
  rewrite Rabs_R0.
  match goal with |- context [Rlt_dec ?a 1] => replace a with 0 by ring end.
  destruct (Rlt_dec 0 1) as [_ | N]; [reflexivity | lra].
Qed.

Lemma same_position_refl (a : R * R) : same_position a a = true.
Proof.
  unfold same_position.
  destruct (Req_dec_T (fst a) (fst a)) as [_ | N]; [|contradiction].
  destruct (Req_dec_T (snd a) (snd a)) as [_ | N]; [|contradiction].
  reflexivity.
Qed.

(** X21: the ring of the polygon starts with the positions of the
    vertices, in order, and has at most one position more; and closing a
    ring that is closed already changes nothing. *)
Theorem latlngsToGeoJSON_idempotent (latlngs : list LatLng) :
  exists ring,
    coordinates (latlngsToGeoJSON latlngs) = [ring] /\
    firstn (length latlngs) ring = map (fun p => (lng p, lat p)) latlngs /\
    (length ring <= S (length latlngs))%nat /\
    coordinates
      (latlngsToGeoJSON (map (fun c => {| lat := snd c; lng := fst c |}) ring))
    = [ring].
Proof.
  assert (Back : forall ring : list (R * R),
            map (fun p => (lng p, lat p))
              (map (fun c => {| lat := snd c; lng := fst c |}) ring) = ring).
  { intros ring. rewrite map_map. cbn [lat lng].
    rewrite <- (map_id ring) at 2. apply map_ext. intros [a b]. reflexivity. }
  assert (Closed : forall ring first, hd_error ring = Some first ->
            last ring first = first ->
            coordinates
              (latlngsToGeoJSON
                 (map (fun c => {| lat := snd c; lng := fst c |}) ring))
            = [ring]).
  { intros ring first Hh Hl. unfold latlngsToGeoJSON. rewrite Back.
    cbn [coordinates]. destruct ring as [| c ring]; [discriminate|].
    injection Hh as ->. rewrite Hl, same_position_refl. reflexivity. }
  destruct latlngs as [| p0 rest].
  - exists []. repeat split; cbn; try reflexivity. lia.
  - destruct (latlngsToGeoJSON_closed (p0 :: rest)) as (ring & first & C & H1 & H2 & _);
      [discriminate|].
    exists ring. split; [exact C|].
    unfold latlngsToGeoJSON in C. cbn [coordinates map] in C.
    set (m := (lng p0, lat p0) :: map (fun p => (lng p, lat p)) rest) in *.
    assert (Lm : length m = length (p0 :: rest))
      by (unfold m; cbn [length]; rewrite length_map; reflexivity).
    change (map (fun p => (lng p, lat p)) (p0 :: rest)) with m.
    rewrite <- Lm.
    destruct (same_position (lng p0, lat p0) (last m (lng p0, lat p0)));
      injection C as <-.
    + split; [apply firstn_all|]. split; [lia|]. apply (Closed _ _ H1 H2).
    + change ((lng p0, lat p0)
              :: map (fun p => (lng p, lat p)) rest ++ [(lng p0, lat p0)])
        with (m ++ [(lng p0, lat p0)]) in *.
      split; [rewrite firstn_app, firstn_all, Nat.sub_diag; cbn [firstn];
              apply app_nil_r|].
      split; [rewrite length_app; cbn [length]; lia|]. apply (Closed _ _ H1 H2).
Qed.

End GeometryMoreFacts.

(** Witness of [degenerate_rectangle_rejected]: two clicks on one point. *)
Lemma degenerate_rectangle_rejected_witness :
  Drawing.handleDrawCompletePage (0%R, 0%R) String.EmptyString true
    {| CustomBuildings.buildings := []; CustomBuildings.stored := None |}
    (Drawing.rectangleCorners {| CustomBuildings.lat := 0; CustomBuildings.lng := 0 |}
       {| CustomBuildings.lat := 0; CustomBuildings.lng := 0 |})
  = CustomBuildings.Returned None
      {| CustomBuildings.buildings := []; CustomBuildings.stored := None |}.
Proof.
  apply degenerate_rectangle_rejected. left. reflexivity.
Defined.

(** ** The drawing tool *)

Section DrawingFacts.

Local Open Scope R_scope.
Import CustomBuildings Drawing.

Lemma map_latlng_id (pts : list LatLng) :
  map (fun p => {| lat := lat p; lng := lng p |}) pts = pts.
Proof.
  rewrite <- (map_id pts) at 2. apply map_ext. intros [a b]. reflexivity.
Qed.

Lemma handleDrawComplete_sent (st st' : DrawState) (direct : option (list LatLng))
    (pts : list LatLng) :
  handleDrawComplete st direct = (st', Some pts) ->
  (3 <= length pts)%nat /\
  st' = {| drawMode := none; drawPoints := []; rectStart := None |} /\
  pts = match direct with Some d => d | None => drawPoints st end.
Proof.
  unfold handleDrawComplete. rewrite map_latlng_id.
  destruct (3 <=? length _)%nat eqn:L; [|discriminate].
  intros H. injection H as <- <-. apply Nat.leb_le in L. auto.
Qed.

(** X22: whenever an event of the drawing tool hands a polygon over, the
    polygon has at least three points and the tool is back at rest with no
    point kept; a second click in rectangle mode hands over the four corners
    between the two clicks; and [addBuilding] then returns null only when
    the area is below 1 m2, never for a lack of points. *)
Theorem drawing_hands_over_polygons (st st' : DrawState) (ev : Event)
    (pts : list LatLng) (airportCenter : R * R) (newId : String.string)
    (writable : bool) (store : Store) :
  step st ev = (st', Some pts) ->
  (3 <= length pts)%nat /\
  st' = {| drawMode := none; drawPoints := []; rectStart := None |} /\
  (drawMode st = rectangle ->
   exists start latlng,
     rectStart st = Some start /\ ev = Click latlng /\
     pts = rectangleCorners start latlng) /\
  exists area,
    calcGeodesicArea pts = Some area /\
    (handleDrawCompletePage airportCenter newId writable store pts
     = Returned None store
     <-> area < 1).
Proof.
  intros H.
  assert (A : (3 <= length pts)%nat /\
              st' = {| drawMode := none; drawPoints := []; rectStart := None |} /\
              (drawMode st = rectangle ->
               exists start latlng,
                 rectStart st = Some start /\ ev = Click latlng /\
                 pts = rectangleCorners start latlng)).
  { unfold step in H.
    destruct (drawMode st) eqn:M, ev; try discriminate;
      try (destruct (3 <=? length (drawPoints st))%nat eqn:L; [|discriminate]);
      try (destruct (length (drawPoints st) <? 3)%nat eqn:L; [discriminate|]);
      try (destruct (rectStart st) as [start |] eqn:S; [|discriminate]);
      apply handleDrawComplete_sent in H; destruct H as (H1 & H2 & H3);
      (split; [exact H1|]); (split; [exact H2|]);
      try (intros; discriminate).
    intros _. exists start, latlng. auto. }
  destruct A as (A1 & A2 & A3). split; [exact A1|]. split; [exact A2|].
  split; [exact A3|].
  unfold handleDrawCompletePage, addBuilding.
  replace (length pts <? 3)%nat with false
    by (symmetry; apply Nat.ltb_ge; exact A1).
  rewrite calcGeodesicArea_eq.
  replace (length pts <? 3)%nat with false
    by (symmetry; apply Nat.ltb_ge; exact A1).
  eexists. split; [reflexivity|].
  destruct (Rlt_dec _ 1) as [S | B].
  - split; [intros _; exact S | reflexivity].
  - split; [discriminate | intros C; contradiction].
Qed.

End DrawingFacts.

(** Witness of [drawing_hands_over_polygons]: the second click of a
    rectangle. *)
Lemma drawing_hands_over_polygons_witness :
  (3 <= length
          (Drawing.rectangleCorners
             {| CustomBuildings.lat := 0; CustomBuildings.lng := 0 |}
             {| CustomBuildings.lat := 1; CustomBuildings.lng := 1 |}))%nat.
Proof.
  exact (proj1 (drawing_hands_over_polygons
    {| Drawing.drawMode := Drawing.rectangle;
       Drawing.drawPoints := [{| CustomBuildings.lat := 0; CustomBuildings.lng := 0 |}];
       Drawing.rectStart := Some {| CustomBuildings.lat := 0; CustomBuildings.lng := 0 |} |}
    _ (Drawing.Click {| CustomBuildings.lat := 1; CustomBuildings.lng := 1 |})
    _ (0%R, 0%R) String.EmptyString true
    {| CustomBuildings.buildings := []; CustomBuildings.stored := None |}
    eq_refl)).
Defined.

(** ** Payback: closed form, panel and estimate *)

Section PaybackMoreFacts.

Local Open Scope Q_scope.

Lemma net_closed_form (area cf usable eff price : Q) :
  Solar.annualRevenue area cf usable eff price - Solar.annualOm area usable eff
  == Solar.capacityKw area usable eff * (8760 * cf * price - 15).
Proof. unfold Solar.annualRevenue, Solar.annualOm, Solar.annualKwh. ring. Qed.

Lemma installCost_closed_form (area usable eff : Q) :
  Solar.installCost area usable eff == Solar.capacityKw area usable eff * 980.
Proof.
  unfold Solar.installCost, Solar.itcSavings, Solar.grossCost. field.
Qed.

(** X11: in exact arithmetic the payback of a building of positive capacity
    has a closed form in which the area, the usable fraction and the panel
    efficiency do not occur: it is [980 / (8760 * cf * price - 15)] when a kW
    earns more than its 15 USD of O&M a year, and 999 otherwise.  (The
    binary64 quotient approximates this closed form, and its last digits can
    differ from one area to another.) *)
Theorem payback_scale_free (area cf usable eff price : Q) :
  0 < Solar.capacityKw area usable eff ->
  JS.num_eq (Solar.payback area cf usable eff price)
    (if Qlt_le_dec 15 (8760 * cf * price)
     then Some (980 / (8760 * cf * price - 15))
     else Some 999).
Proof.
  intros Hc. unfold Solar.payback.
  pose proof (net_closed_form area cf usable eff price) as N.
  pose proof (installCost_closed_form area usable eff) as I.
  set (c := Solar.capacityKw area usable eff) in *.
  set (m := 8760 * cf * price) in *.
  destruct (Qlt_le_dec 0 _) as [L | L]; destruct (Qlt_le_dec 15 m) as [M | M].
  - rewrite div_pos by exact L. cbn [JS.num_eq]. rewrite N, I. field.
    split; lra.
  - exfalso. rewrite N in L. assert (c * (m - 15) <= 0) by nra. lra.
  - exfalso. rewrite N in L. assert (0 < c * (m - 15)) by nra. lra.
  - reflexivity.
Qed.


(** For a selection of more than one building, the totals that
    [recalcTotals] gives for the same buildings are the figures of the
    selection panel after rounding: the same sums, and the payback derived
    from them by the same rule. *)
Lemma panel_agrees_with_totals (buildings : list Solar.Building)
    (ot : HiddenBuildings.Totals) :
  (1 < length buildings)%nat ->
  exists c t,
    BuildingDetailPanel.combined buildings = Some c /\
    HiddenBuildings.recalcTotals buildings (Some ot) = Some t /\
    HiddenBuildings.building_count t
    = inject_Z (Z.of_nat (BuildingDetailPanel.count c)) /\
    HiddenBuildings.total_roof_area_m2 t
    = JS.Math_round (BuildingDetailPanel.area_m2 c) /\
    HiddenBuildings.capacity_kw t
    = Props.round1 (BuildingDetailPanel.capacity_kw c) /\
    HiddenBuildings.annual_mwh t
    = Props.round1 (BuildingDetailPanel.annual_mwh c) /\
    HiddenBuildings.annual_revenue t
    = JS.Math_round (BuildingDetailPanel.annual_revenue c) /\
    HiddenBuildings.install_cost t
    = JS.Math_round (BuildingDetailPanel.install_cost c) /\
    HiddenBuildings.annual_om t
    = JS.Math_round (BuildingDetailPanel.annual_om c) /\
    HiddenBuildings.homes_powered t
    = JS.Math_round (BuildingDetailPanel.homes_powered c) /\
    HiddenBuildings.payback_years t
    = option_map Props.round1 (BuildingDetailPanel.payback c).
Proof.
  intros H. unfold BuildingDetailPanel.combined.
  replace (1 <? length buildings)%nat with true
    by (symmetry; apply Nat.ltb_lt; exact H).
  destruct buildings as [| b rest]; [cbn in H; lia|].
  unfold HiddenBuildings.recalcTotals. cbn [length Nat.eqb].
  eexists. eexists. split; [reflexivity|]. split; [reflexivity|].
  repeat split; reflexivity.
Qed.

End PaybackMoreFacts.

(** Witness of [payback_scale_free]: the 10,000 m2 building with the default
    parameters. *)
Lemma payback_scale_free_witness :
  JS.num_eq (Solar.payback 10000 0.168 0.65 200 0.12)
    (Some (980 / (8760 * 0.168 * 0.12 - 15)))%Q.
Proof.
  exact (payback_scale_free 10000 0.168 0.65 200 0.12 eq_refl).
Defined.


(** ** Selecting buildings *)

Section SelectionFacts.

Import UseHiddenBuildings Selection.

Lemma has_fold_add (l acc : list Key) (k : Key) :
  has (fold_left add l acc) k = has acc k || existsb (HomePage.sameKey k) l.
Proof.
  revert acc. induction l as [| x l IH]; intros acc.
  - cbn. rewrite orb_false_r. reflexivity.
  - cbn [fold_left existsb]. rewrite IH, has_add, orb_assoc. reflexivity.
Qed.

Lemma has_ofList (l : list Key) (k : Key) :
  has (ofList l) k = existsb (HomePage.sameKey k) l.
Proof. unfold ofList. rewrite has_fold_add. reflexivity. Qed.

(** Whether a key is selected. *)
Lemma has_selectedKeys (sel : list Solar.Building) (k : Key) :
  has (selectedKeys sel) k
  = existsb (fun b => HomePage.sameKey (HomePage.buildingKey b) k) sel.
Proof.
  unfold selectedKeys. rewrite has_ofList. induction sel as [| b sel IH]; [reflexivity|].
  cbn [map existsb]. rewrite IH, (sameKey_sym k). reflexivity.
Qed.

Lemma existsb_filter_other (sel : list Solar.Building) (key k : Key) :
  existsb (fun b => HomePage.sameKey (HomePage.buildingKey b) k)
    (filter (fun b => negb (HomePage.sameKey (HomePage.buildingKey b) key)) sel)
  = existsb (fun b => HomePage.sameKey (HomePage.buildingKey b) k) sel
    && negb (HomePage.sameKey k key).
Proof.
  induction sel as [| b sel IH]; [reflexivity|].
  cbn [filter existsb].
  destruct (HomePage.sameKey (HomePage.buildingKey b) key) eqn:E; cbn [negb].
  - rewrite IH.
    destruct (HomePage.sameKey (HomePage.buildingKey b) k) eqn:F; cbn [orb];
      [|reflexivity].
    replace (HomePage.sameKey k key) with true; [apply andb_false_r|].
    symmetry. rewrite sameKey_sym in F. eapply sameKey_trans; eassumption.
  - cbn [existsb]. rewrite IH.
    destruct (HomePage.sameKey (HomePage.buildingKey b) k) eqn:F; cbn [orb];
      [|reflexivity].
    replace (HomePage.sameKey k key) with false; [reflexivity|].
    symmetry. destruct (HomePage.sameKey k key) eqn:G; [|reflexivity].
    exfalso. rewrite (sameKey_trans _ _ _ F G) in E. discriminate.
Qed.

(** X23: toggling a building selects it when it was not selected and
    unselects it when it was; the buildings with another key stay as they
    were. *)
Theorem toggle_select_law (prev : list Solar.Building) (b : Solar.Building)
    (k : Key) :
  has (selectedKeys (handleToggleSelect prev b)) k
  = if HomePage.sameKey k (HomePage.buildingKey b)
    then negb (has (selectedKeys prev) (HomePage.buildingKey b))
    else has (selectedKeys prev) k.
Proof.
  rewrite !has_selectedKeys. unfold handleToggleSelect.
  set (key := HomePage.buildingKey b).
  destruct (existsb (fun c => HomePage.sameKey (HomePage.buildingKey c) key) prev)
    eqn:E.
  - rewrite existsb_filter_other.
    destruct (HomePage.sameKey k key) eqn:S; cbn [negb].
    + apply andb_false_r.
    + apply andb_true_r.
  - rewrite existsb_app. cbn [existsb]. rewrite orb_false_r. fold key.
    rewrite (sameKey_sym key k).
    destruct (HomePage.sameKey k key) eqn:S; cbn [negb].
    + apply orb_true_r.
    + apply orb_false_r.
Qed.

(** X24: toggling twice a building whose key is not selected gives back the
    selection, in the same order. *)
Theorem toggle_select_twice (prev : list Solar.Building) (b : Solar.Building) :
  has (selectedKeys prev) (HomePage.buildingKey b) = false ->
  handleToggleSelect (handleToggleSelect prev b) b = prev.
Proof.
  rewrite has_selectedKeys. intros H. unfold handleToggleSelect at 2. rewrite H.
  unfold handleToggleSelect. rewrite existsb_app. cbn [existsb].
  rewrite sameKey_refl, orb_true_r. rewrite filter_app. cbn [filter].
  rewrite sameKey_refl. cbn [negb]. rewrite app_nil_r.
  apply forallb_filter_id. apply forallb_forall. intros c Hc.
  apply negb_true_iff.
  destruct (HomePage.sameKey (HomePage.buildingKey c) (HomePage.buildingKey b))
    eqn:S; [|reflexivity].
  assert (T : existsb (fun c => HomePage.sameKey (HomePage.buildingKey c)
                                  (HomePage.buildingKey b)) prev = true)
    by (apply existsb_exists; exists c; auto).
  congruence.
Qed.

Lemma forallb_has_app (page sel extra : list Solar.Building) :
  (forall c, In c page ->
     has (selectedKeys sel) (HomePage.buildingKey c) = false -> In c extra) ->
  forallb (fun c => has (selectedKeys (sel ++ extra)) (HomePage.buildingKey c)) page
  = true.
Proof.
  intros H. apply forallb_forall. intros c Hc. rewrite has_selectedKeys.
  rewrite existsb_app. rewrite <- has_selectedKeys.
  destruct (has (selectedKeys sel) (HomePage.buildingKey c)) eqn:E; [reflexivity|].
  cbn [orb]. apply existsb_exists. exists c. split; [apply H; assumption|].
  apply sameKey_refl.
Qed.

(** X25: the checkbox of a page selects every building of the page when not
    all are selected and unselects every one of them when all are; so on a
    page that is not empty a click flips "all selected". *)
Theorem select_page_flips (prev paged : list Solar.Building) :
  let click :=
    handleSelectPage prev paged
      (negb (DataTable.pageAllSelected paged (selectedKeys prev))) in
  forallb (fun c => has (selectedKeys (handleSelectPage prev paged true))
                      (HomePage.buildingKey c)) paged = true /\
  existsb (fun c => has (selectedKeys (handleSelectPage prev paged false))
                      (HomePage.buildingKey c)) paged = false /\
  (paged <> [] ->
   DataTable.pageAllSelected paged (selectedKeys click)
   = negb (DataTable.pageAllSelected paged (selectedKeys prev))).
Proof.
  cbv zeta.
  assert (A : forallb (fun c => has (selectedKeys (handleSelectPage prev paged true))
                                  (HomePage.buildingKey c)) paged = true).
  { unfold handleSelectPage. apply forallb_has_app. intros c Hc E.
    apply filter_In. split; [exact Hc|]. apply negb_true_iff.
    rewrite has_ofList, <- (has_ofList (map HomePage.buildingKey prev)).
    exact E. }
  assert (B : existsb (fun c => has (selectedKeys (handleSelectPage prev paged false))
                                  (HomePage.buildingKey c)) paged = false).
  { unfold handleSelectPage.
    destruct (existsb _ paged) eqn:E; [|reflexivity]. exfalso.
    apply existsb_exists in E. destruct E as (c & Hc & E).
    rewrite has_selectedKeys in E. apply existsb_exists in E.
    destruct E as (d & Hd & S). apply filter_In in Hd. destruct Hd as [_ Hd].
    apply negb_true_iff in Hd. rewrite has_ofList in Hd.
    assert (T : existsb (HomePage.sameKey (HomePage.buildingKey d))
                  (map HomePage.buildingKey paged) = true).
    { apply existsb_exists. exists (HomePage.buildingKey c).
      split; [apply in_map; exact Hc | exact S]. }
    congruence. }
  split; [exact A|]. split; [exact B|].
  intros Hne.
  assert (L : (0 <? length paged)%nat = true)
    by (destruct paged; [contradiction | reflexivity]).
  destruct (DataTable.pageAllSelected paged (selectedKeys prev)); cbn [negb].
  - unfold DataTable.pageAllSelected. rewrite L. cbn [andb].
    destruct paged as [| c paged]; [contradiction|].
    cbn [existsb] in B. apply orb_false_iff in B. destruct B as [B _].
    cbn [forallb]. rewrite B. reflexivity.
  - unfold DataTable.pageAllSelected. rewrite L, A. reflexivity.
Qed.

End SelectionFacts.

(** Witness of [toggle_select_twice]: the 10,000 m2 building toggled in an
    empty selection. *)
Lemma toggle_select_twice_witness :
  Selection.handleToggleSelect
    (Selection.handleToggleSelect [] Props.estimated10000) Props.estimated10000
  = [].
Proof.
  apply (toggle_select_twice [] Props.estimated10000).
  reflexivity.
Defined.

(** ** The table of buildings: order and pages *)

Section TableFacts.

Local Open Scope Q_scope.
Import DataTable.

Variables (field : SortField) (direction : SortDirection).

(** The order that the comparator stands for. *)
Let before (a b : Solar.Building) : Prop :=
  match direction with
  | asc => sortValue field a <= sortValue field b
  | desc => sortValue field b <= sortValue field a
  end.

Lemma compare_before (a b : Solar.Building) :
  Qle_bool (compare field direction a b) 0 = true <-> before a b.
Proof.
  unfold compare, before. rewrite Qle_bool_iff. destruct direction; split; lra.
Qed.

Lemma before_total (a b : Solar.Building) :
  Qle_bool (compare field direction a b) 0 = false -> before b a.
Proof.
  intros H. unfold before. destruct (Qle_bool _ 0) eqn:E; [discriminate|].
  assert (N : ~ compare field direction a b <= 0)
    by (intros C; apply Qle_bool_iff in C; congruence).
  unfold compare in N. destruct direction; lra.
Qed.

Lemma before_trans (a b c : Solar.Building) : before a b -> before b c -> before a c.
Proof. unfold before. destruct direction; lra. Qed.

Lemma insert_perm (v : Solar.Building) (l : list Solar.Building) :
  Permutation (insert (compare field direction) v l) (v :: l).
Proof.
  induction l as [| w l IH]; [reflexivity|].
  cbn [insert]. destruct (Qle_bool _ 0); [reflexivity|].
  rewrite IH. apply perm_swap.
Qed.

Lemma insert_sorted (v : Solar.Building) (l : list Solar.Building) :
  StronglySorted before l ->
  StronglySorted before (insert (compare field direction) v l).
Proof.
  induction 1 as [| w l Hs IH Hw]; [repeat constructor|].
  cbn [insert]. destruct (Qle_bool _ 0) eqn:E.
  - apply compare_before in E. constructor; [constructor; assumption|].
    constructor; [exact E|]. rewrite Forall_forall in *. intros c Hc.
    eapply before_trans; [exact E | apply Hw; exact Hc].
  - apply before_total in E. constructor; [exact IH|].
    rewrite Forall_forall in *. intros c Hc.
    apply (Permutation_in _ (insert_perm v l)) in Hc.
    destruct Hc as [<- | Hc]; [exact E | apply Hw; exact Hc].
Qed.

Lemma insert_filter (v : Solar.Building) (l : list Solar.Building) (x : Q) :
  filter (fun b => Qeq_bool (sortValue field b) x)
    (insert (compare field direction) v l)
  = filter (fun b => Qeq_bool (sortValue field b) x) (v :: l).
Proof.
  induction l as [| w l IH]; [reflexivity|].
  cbn [insert]. destruct (Qle_bool _ 0) eqn:E; [reflexivity|].
  cbn [filter] in *. rewrite IH.
  destruct (Qeq_bool (sortValue field v) x) eqn:V; [|reflexivity].
  destruct (Qeq_bool (sortValue field w) x) eqn:W; [|reflexivity].
  exfalso. apply Qeq_bool_iff in V. apply Qeq_bool_iff in W.
  assert (C : compare field direction v w <= 0)
    by (unfold compare; destruct direction; lra).
  apply Qle_bool_iff in C. congruence.
Qed.

(** X26: the rows of the table are the buildings, each once, in the order
    of the chosen column and direction; buildings with equal values stay in
    the order in which they came. *)
Theorem sortedBuildings_sorted (buildings : list Solar.Building) :
  let sorted := sortedBuildings buildings field direction in
  Permutation sorted buildings /\
  StronglySorted
    (fun a b => match direction with
                | asc => sortValue field a <= sortValue field b
                | desc => sortValue field b <= sortValue field a
                end) sorted /\
  forall x, filter (fun b => Qeq_bool (sortValue field b) x) sorted
            = filter (fun b => Qeq_bool (sortValue field b) x) buildings.
Proof.
  cbv zeta. unfold sortedBuildings, sort.
  induction buildings as [| v l (P & S & F)]; cbn [fold_right].
  - repeat split; constructor.
  - split; [|split].
    + rewrite insert_perm. constructor. exact P.
    + apply insert_sorted. exact S.
    + intros x. rewrite insert_filter. cbn [filter]. rewrite F. reflexivity.
Qed.

End TableFacts.

Section PageFacts.

Import DataTable.

Lemma totalPages_div (sorted : list Solar.Building) :
  totalPages sorted = ((Z.of_nat (length sorted) + 24) / 25)%Z.
Proof.
  unfold totalPages, Qceiling, PAGE_SIZE.
  set (n := Z.of_nat (length sorted)).
  assert (E : (- (inject_Z n / inject_Z 25) == inject_Z (- n) / inject_Z 25)%Q).
  { rewrite inject_Z_opp. field. }
  rewrite (Qfloor_comp _ _ E), <- Zdiv_Qdiv.
  pose proof (Z.div_mod (- n) 25). pose proof (Z.mod_pos_bound (- n) 25).
  pose proof (Z.div_mod (n + 24) 25). pose proof (Z.mod_pos_bound (n + 24) 25).
  lia.
Qed.

Lemma pagedBuildings_nat (sorted : list Solar.Building) (k : nat) :
  pagedBuildings sorted (Z.of_nat k) = firstn 25 (skipn (25 * k) sorted).
Proof.
  unfold pagedBuildings, slice, PAGE_SIZE.
  set (len := Z.of_nat (length sorted)).
  replace (Z.of_nat k * 25 <? 0)%Z with false by (symmetry; apply Z.ltb_ge; lia).
  replace ((Z.of_nat k + 1) * 25 <? 0)%Z with false
    by (symmetry; apply Z.ltb_ge; lia).
  destruct (Z_le_gt_dec len (Z.of_nat k * 25)) as [Big | Small].
  - rewrite !Z.min_r by lia. rewrite Z.sub_diag. cbn [Z.to_nat firstn].
    rewrite skipn_all2 by (unfold len in Big; lia). reflexivity.
  - rewrite (Z.min_l (Z.of_nat k * 25)) by lia.
    replace (Z.to_nat (Z.of_nat k * 25)) with (25 * k)%nat by lia.
    destruct (Z_le_gt_dec len ((Z.of_nat k + 1) * 25)) as [Last | Full].
    + rewrite Z.min_r by lia.
      rewrite firstn_all2 by (rewrite length_skipn; unfold len in *; lia).
      rewrite firstn_all2 by (rewrite length_skipn; unfold len in *; lia).
      reflexivity.
    + rewrite Z.min_l by lia. f_equal. lia.
Qed.

Lemma pages_concat (m : nat) (l : list Solar.Building) :
  (length l <= 25 * m)%nat ->
  concat (map (fun k => firstn 25 (skipn (25 * k) l)) (seq 0 m)) = l.
Proof.
  revert l. induction m as [| m IH]; intros l H.
  - destruct l; [reflexivity | cbn in H; lia].
  - cbn [seq map concat]. replace (25 * 0)%nat with 0%nat by lia. cbn [skipn].
    rewrite <- seq_shift, map_map.
    transitivity (firstn 25 l ++ skipn 25 l); [|apply firstn_skipn]. f_equal.
    transitivity
      (concat (map (fun k => firstn 25 (skipn (25 * k) (skipn 25 l))) (seq 0 m)));
      [|apply IH; rewrite length_skipn; lia].
    f_equal. apply map_ext. intros k. rewrite skipn_skipn.
    f_equal. f_equal. lia.
Qed.

(** X27: the pages cut the rows into consecutive pieces of at most 25 rows:
    put one after the other in order they give the rows again; a page below
    [totalPages] is not empty and a page from [totalPages] on is empty. *)
Theorem pages_partition (sorted : list Solar.Building) :
  concat (map (fun k => pagedBuildings sorted (Z.of_nat k))
            (seq 0 (Z.to_nat (totalPages sorted)))) = sorted /\
  (forall page, (length (pagedBuildings sorted page) <= 25)%nat) /\
  (forall page, (0 <= page < totalPages sorted)%Z ->
                pagedBuildings sorted page <> []) /\
  (forall page, (totalPages sorted <= page)%Z -> pagedBuildings sorted page = []).
Proof.
  rewrite totalPages_div. set (n := length sorted).
  split; [|split; [|split]].
  - rewrite (map_ext _ _ (pagedBuildings_nat sorted)).
    apply pages_concat. fold n.
    pose proof (Z.div_mod (Z.of_nat n + 24) 25).
    pose proof (Z.mod_pos_bound (Z.of_nat n + 24) 25). lia.
  - intros page. unfold pagedBuildings, slice. rewrite length_firstn.
    unfold PAGE_SIZE. fold n.
    destruct (page * 25 <? 0)%Z eqn:A, ((page + 1) * 25 <? 0)%Z eqn:B;
      try apply Z.ltb_lt in A; try apply Z.ltb_ge in A;
      try apply Z.ltb_lt in B; try apply Z.ltb_ge in B; lia.
  - intros page [P0 P1].
    rewrite <- (Z2Nat.id page P0), pagedBuildings_nat.
    intros E. apply (f_equal (@length _)) in E.
    rewrite length_firstn, length_skipn in E. cbn [length] in E. fold n in E.
    pose proof (Z.div_mod (Z.of_nat n + 24) 25).
    pose proof (Z.mod_pos_bound (Z.of_nat n + 24) 25). lia.
  - intros page P.
    assert (P0 : (0 <= page)%Z).
    { pose proof (Z.div_mod (Z.of_nat n + 24) 25).
      pose proof (Z.mod_pos_bound (Z.of_nat n + 24) 25). lia. }
    rewrite <- (Z2Nat.id page P0), pagedBuildings_nat.
    rewrite skipn_all2; [reflexivity|]. fold n.
    pose proof (Z.div_mod (Z.of_nat n + 24) 25).
    pose proof (Z.mod_pos_bound (Z.of_nat n + 24) 25). lia.
Qed.

(** X28: from a page of the table, the buttons "previous" and "next" and
    every numbered button lead to a page of the table, and the current page
    is among the numbered buttons. *)
Theorem page_buttons_in_range (total page : Z) :
  (0 <= page < total)%Z ->
  (0 <= previousPage page < total)%Z /\
  (0 <= nextPage total page < total)%Z /\
  Forall (fun p => 0 <= p < total)%Z (pageButtons total page) /\
  In page (pageButtons total page).
Proof.
  intros [P0 P1]. unfold previousPage, nextPage, pageButtons.
  split; [lia|]. split; [lia|]. split.
  - apply Forall_forall. intros p Hp. apply in_map_iff in Hp.
    destruct Hp as (i & <- & Hi). apply in_seq in Hi. unfold pageNum.
    destruct (total <=? 7)%Z eqn:A; [apply Z.leb_le in A; lia|].
    apply Z.leb_gt in A.
    destruct (page <? 4)%Z eqn:B; [lia|]. apply Z.ltb_ge in B.
    destruct (total - 4 <? page)%Z eqn:C; [lia|]. apply Z.ltb_ge in C. lia.
  - apply in_map_iff. unfold pageNum.
    destruct (total <=? 7)%Z eqn:A.
    + apply Z.leb_le in A. exists (Z.to_nat page).
      split; [lia | apply in_seq; lia].
    + apply Z.leb_gt in A. destruct (page <? 4)%Z eqn:B.
      * apply Z.ltb_lt in B. exists (Z.to_nat page).
        split; [lia | apply in_seq; lia].
      * apply Z.ltb_ge in B. destruct (total - 4 <? page)%Z eqn:C.
        -- apply Z.ltb_lt in C. exists (Z.to_nat (page - total + 7)).
           split; [lia | apply in_seq; lia].
        -- exists 3%nat. split; [lia | apply in_seq; lia].
Qed.

End PageFacts.

(** Witness of [page_buttons_in_range]: page 5 of 12. *)
Lemma page_buttons_in_range_witness : In 5%Z (DataTable.pageButtons 12 5).
Proof.
  destruct (page_buttons_in_range 12 5) as (_ & _ & _ & H); [lia | exact H].
Defined.

(** ** The airports to compare *)

Section CompareFacts.

Import String Ascii.
Import CompareCodes TextProps.

Lemma split_not_nil (s : String.string) : split s <> [].
Proof.
  destruct s as [| c rest]; [discriminate|]. cbn [split].
  destruct (Ascii.eqb c _); [discriminate|]. destruct (split rest); discriminate.
Qed.

Lemma split_commaFree (s : String.string) : commaFree s = true -> split s = [s].
Proof.
  induction s as [| c rest IH]; [reflexivity|].
  cbn [commaFree split]. intros H.
  apply andb_true_iff in H. destruct H as [Hc Hr].
  apply negb_true_iff in Hc. rewrite Hc, (IH Hr). reflexivity.
Qed.

Lemma split_append_comma (c rest : String.string) :
  commaFree c = true ->
  split (String.append c (String.String ","%char rest)) = c :: split rest.
Proof.
  induction c as [| ch c IH]; intros H.
  - cbn [String.append split]. rewrite Ascii.eqb_refl. reflexivity.
  - cbn [commaFree] in H.
    apply andb_true_iff in H. destruct H as [Hc Hr].
    apply negb_true_iff in Hc. cbn [String.append split].
    rewrite Hc, (IH Hr). reflexivity.
Qed.

Lemma split_join (arr : list String.string) :
  arr <> [] -> Forall (fun c => commaFree c = true) arr -> split (join arr) = arr.
Proof.
  induction arr as [| c arr IH]; [contradiction|]. intros _ H.
  inversion H as [| ? ? Hc Ha]; subst.
  destruct arr as [| d arr].
  - cbn [join]. apply split_commaFree. exact Hc.
  - change (join (c :: d :: arr))
      with (String.append c (String.String ","%char (join (d :: arr)))).
    rewrite split_append_comma by exact Hc.
    rewrite IH; [reflexivity | discriminate | exact Ha].
Qed.

Lemma join_not_empty (arr : list String.string) :
  arr <> [] -> Forall (fun c => c <> String.EmptyString) arr ->
  join arr <> String.EmptyString.
Proof.
  destruct arr as [| c arr]; [contradiction|]. intros _ H.
  inversion H as [| ? ? Hc Ha]; subst.
  destruct arr as [| d arr]; [exact Hc|].
  change (join (c :: d :: arr))
    with (String.append c (String.String ","%char (join (d :: arr)))).
  destruct c; [contradiction | discriminate].
Qed.

(** X29: codes that are not empty, hold no comma and are left alone by
    trimming and upper-casing come back from the URL parameter as they were
    written to it, in the same order. *)
Theorem compare_codes_round_trip (normalize : String.string -> String.string)
    (arr : list String.string) :
  Forall (plainCode normalize) arr ->
  compareArray normalize (setCompareArray arr) = arr.
Proof.
  intros H. unfold compareArray, setCompareArray.
  destruct arr as [| c arr]; [reflexivity|].
  assert (Hne : Forall (fun c => c <> String.EmptyString) (c :: arr))
    by (eapply Forall_impl; [|exact H]; intros a (A & _); exact A).
  assert (Hcf : Forall (fun c => commaFree c = true) (c :: arr))
    by (eapply Forall_impl; [|exact H]; intros a (_ & A & _); exact A).
  assert (Hn : Forall (fun c => normalize c = c) (c :: arr))
    by (eapply Forall_impl; [|exact H]; intros a (_ & _ & A); exact A).
  replace (String.eqb (join (c :: arr)) String.EmptyString) with false
    by (symmetry; apply String.eqb_neq; apply join_not_empty;
        [discriminate | exact Hne]).
  rewrite split_join by (try discriminate; exact Hcf).
  rewrite forallb_filter_id.
  - rewrite <- (map_id (c :: arr)) at 2. apply map_ext_in.
    rewrite Forall_forall in Hn. exact Hn.
  - apply forallb_forall. rewrite Forall_forall in Hne. intros a Ha.
    apply negb_true_iff. apply String.eqb_neq. apply Hne. exact Ha.
Qed.

End CompareFacts.

Section MultiSelectFacts.

Import MultiSelect.

Lemma includes_In (values : list String.string) (v : String.string) :
  includes values v = true <-> In v values.
Proof.
  unfold includes. rewrite existsb_exists. split.
  - intros (w & Hw & E). apply String.eqb_eq in E. subst. exact Hw.
  - intros H. exists v. split; [exact H | apply String.eqb_refl].
Qed.

Lemma NoDup_snoc (values : list String.string) (v : String.string) :
  NoDup values -> ~ In v values -> NoDup (values ++ [v]).
Proof.
  intros N H. apply NoDup_rev in N. rewrite <- (rev_involutive (values ++ [v])).
  apply NoDup_rev. rewrite rev_app_distr. cbn [rev app].
  constructor; [rewrite <- in_rev; exact H | exact N].
Qed.

Lemma NoDup_removelast (values : list String.string) :
  NoDup values -> NoDup (removelast values).
Proof.
  intros N. destruct values as [| v values] using rev_ind; [exact N|].
  rewrite removelast_last. apply NoDup_remove_1 in N.
  rewrite app_nil_r in N. exact N.
Qed.

(** X30: a list of at most [max] distinct values stays one under the three
    handlers.  The options offered never hold a value that is selected;
    adding an offered value appends it when the list is below [max] and
    changes nothing at [max]; removing a value keeps exactly the other
    values; and Backspace drops the last value, and only it, when the search
    is empty and the list is not, and changes nothing otherwise. *)
Theorem multiselect_keeps_distinct_values
    (containsIgnoringCase : String.string -> String.string -> bool)
    (options : list Option_) (search v : String.string)
    (values : list String.string) (max : nat) :
  (length values <= max)%nat -> NoDup values ->
  (forall o, In o (filteredOptions containsIgnoringCase options search values) ->
             ~ In (value o) values /\
             let next := after values (handleAdd values max (value o)) in
             (length next <= max)%nat /\ NoDup next /\
             ((length values < max)%nat -> next = values ++ [value o]) /\
             (length values = max -> next = values)) /\
  (let next := after values (handleRemove values v) in
   (length next <= max)%nat /\ NoDup next /\
   (forall w, In w next <-> In w values /\ w <> v)) /\
  (let next := after values (handleBackspace values search) in
   (length next <= max)%nat /\ NoDup next /\
   (search = String.EmptyString -> values <> [] ->
    exists w, values = next ++ [w]) /\
   (search <> String.EmptyString \/ values = [] -> next = values)).
Proof.
  intros L N. cbv zeta. split; [|split].
  - intros o Ho. unfold filteredOptions in Ho. apply filter_In in Ho.
    destruct Ho as [_ Ho]. apply andb_true_iff in Ho. destruct Ho as [_ Ho].
    apply negb_true_iff in Ho.
    assert (Hn : ~ In (value o) values).
    { intros C. apply includes_In in C. congruence. }
    split; [exact Hn|]. unfold handleAdd.
    destruct (length values <? max)%nat eqn:E; cbn [after].
    + apply Nat.ltb_lt in E. split; [|split; [|split]].
      * rewrite length_app. cbn [length]. lia.
      * apply NoDup_snoc; assumption.
      * reflexivity.
      * lia.
    + apply Nat.ltb_ge in E. split; [|split; [|split]]; try assumption.
      * lia.
      * reflexivity.
  - unfold handleRemove. cbn [after]. split; [|split].
    + pose proof (filter_length_le (fun w => negb (String.eqb w v)) values). lia.
    + apply NoDup_filter. exact N.
    + intros w. rewrite filter_In, negb_true_iff, String.eqb_neq. reflexivity.
  - unfold handleBackspace.
    destruct (String.eqb search String.EmptyString) eqn:S;
      [apply String.eqb_eq in S | apply String.eqb_neq in S].
    + destruct values as [| w values] using rev_ind.
      * cbn [length Nat.ltb Nat.leb andb after].
        split; [exact L|]. split; [exact N|]. split.
        -- intros _ C. contradiction.
        -- reflexivity.
      * clear IHvalues. rewrite length_app. cbn [length andb].
        replace (0 <? length values + 1)%nat with true
          by (symmetry; apply Nat.ltb_lt; lia).
        cbn [after]. rewrite removelast_last.
        rewrite length_app in L. cbn [length] in L.
        split; [lia|]. split; [|split].
        -- apply NoDup_remove_1 in N. rewrite app_nil_r in N. exact N.
        -- intros _ _. exists w. reflexivity.
        -- intros [C | C]; [contradiction|].
           apply app_eq_nil in C. destruct C as [_ C]. discriminate.
    + cbn [andb after]. split; [exact L|]. split; [exact N|]. split.
      * intros C. contradiction.
      * reflexivity.
Qed.

(** When the list is below [max], Backspace on an empty search undoes
    an addition, and so does removing the added value when it was not in the
    list. *)
Lemma multiselect_add_undone (values : list String.string) (max : nat)
    (v : String.string) :
  (length values < max)%nat ->
  exists next,
    handleAdd values max v = Some next /\
    handleBackspace next String.EmptyString = Some values /\
    (~ In v values -> handleRemove next v = Some values).
Proof.
  intros L. unfold handleAdd.
  replace (length values <? max)%nat with true by (symmetry; apply Nat.ltb_lt; exact L).
  eexists. split; [reflexivity|]. split.
  - unfold handleBackspace. rewrite String.eqb_refl, length_app. cbn [length andb].
    replace (0 <? length values + 1)%nat with true
      by (symmetry; apply Nat.ltb_lt; lia).
    rewrite removelast_last. reflexivity.
  - intros H. unfold handleRemove. f_equal. rewrite filter_app. cbn [filter].
    rewrite String.eqb_refl. cbn [negb]. rewrite app_nil_r.
    apply forallb_filter_id. apply forallb_forall. intros w Hw.
    apply negb_true_iff. apply String.eqb_neq. intros ->. contradiction.
Qed.

End MultiSelectFacts.

(** Witness of [compare_codes_round_trip]: two airport codes, with the
    identity for trimming and upper-casing, which leaves them alone. *)
Lemma compare_codes_round_trip_witness :
  let ATL := String.String (Ascii.Ascii true false false false false false true false)
               (String.String (Ascii.Ascii false false true false true false true false)
                  (String.String (Ascii.Ascii false false true true false false true false)
                     String.EmptyString)) in
  let JFK := String.String (Ascii.Ascii false true false true false false true false)
               (String.String (Ascii.Ascii false true true false false false true false)
                  (String.String (Ascii.Ascii true true false true false false true false)
                     String.EmptyString)) in
  CompareCodes.compareArray (fun c => c) (CompareCodes.setCompareArray [ATL; JFK])
  = [ATL; JFK].
Proof.
  cbv zeta. apply compare_codes_round_trip.
  repeat constructor; discriminate.
Defined.

(** Witness of [multiselect_keeps_distinct_values]: with ATL selected and
    JFK offered, adding JFK appends it, and Backspace on the empty search
    drops ATL, the last value. *)
Lemma multiselect_keeps_distinct_values_witness :
  MultiSelect.after [TextProps.ATL]
    (MultiSelect.handleAdd [TextProps.ATL] 8 TextProps.JFK)
  = [TextProps.ATL; TextProps.JFK] /\
  exists w,
    [TextProps.ATL]
    = MultiSelect.after [TextProps.ATL]
        (MultiSelect.handleBackspace [TextProps.ATL] String.EmptyString)
      ++ [w].
Proof.
  assert (L : (length [TextProps.ATL] <= 8)%nat) by (cbn; lia).
  assert (N : NoDup [TextProps.ATL]) by (repeat constructor; intros []).
  destruct (multiselect_keeps_distinct_values (fun _ _ => true)
              [TextProps.optionJFK] String.EmptyString String.EmptyString
              [TextProps.ATL] 8 L N) as (A & _ & (_ & _ & B & _)).
  split.
  - destruct (A TextProps.optionJFK) as (_ & _ & _ & Hadd & _).
    + left. reflexivity.
    + apply Hadd. cbn. lia.
  - apply B; [reflexivity | discriminate].
Defined.

(** ** The order of the vertices *)

Section VertexOrderFacts.

Local Open Scope R_scope.
Import CustomBuildings GeoProps PolygonProps.

Lemma skipn_nth (P : list Pt) (s : nat) :
  (s < length P)%nat -> skipn s P = nth s P origin :: skipn (S s) P.
Proof.
  revert s. induction P as [| a P IH]; intros s H; [cbn in H; lia|].
  destruct s as [| s]; [reflexivity|].
  cbn [skipn nth]. rewrite IH by (cbn in H; lia). reflexivity.
Qed.

Lemma pathSum_indices (P : list Pt) (m s : nat) (a : R) :
  (s + m + 1 = length P)%nat ->
  fold_left (fun acc i => acc + cross (nth i P origin) (nth (S i) P origin))
    (seq s m) a
  = a + pathSum (skipn s P).
Proof.
  revert s a. induction m as [| m IH]; intros s a H.
  - cbn [seq fold_left]. rewrite (skipn_nth P s) by lia.
    rewrite skipn_all2 by lia. cbn [pathSum]. ring.
  - cbn [seq fold_left]. rewrite IH by lia.
    rewrite (skipn_nth P s) by lia. rewrite (skipn_nth P (S s)) by lia.
    cbn [pathSum]. ring.
Qed.

Lemma fold_left_ext_in {A B : Type} (f g : A -> B -> A) (l : list B) (a : A) :
  (forall acc b, In b l -> f acc b = g acc b) ->
  fold_left f l a = fold_left g l a.
Proof.
  revert a. induction l as [| b l IH]; intros a H; [reflexivity|].
  cbn [fold_left]. rewrite H by (left; reflexivity).
  apply IH. intros acc c Hc. apply H. right. exact Hc.
Qed.

(** The shoelace loop sums the cross products along the closed path. *)
Lemma shoelaceSum_pathSum (pts : list Pt) :
  shoelaceSum pts = pathSum (closedPath pts).
Proof.
  destruct pts as [| p rest]; [reflexivity|].
  unfold shoelaceSum. set (pts := p :: rest). set (n := length pts).
  rewrite (fold_left_ext_in _
             (fun acc i => acc + cross (nth i (closedPath pts) origin)
                                   (nth (S i) (closedPath pts) origin))).
  - rewrite pathSum_indices; [cbn [skipn]; ring|].
    unfold closedPath, pts. cbn [length]. rewrite length_app. cbn [length].
    unfold n, pts. cbn [length]. lia.
  - intros acc i Hi. apply in_seq in Hi. unfold crossStep, cross. fold n.
    change (closedPath pts) with (pts ++ [p]).
    rewrite (app_nth1 pts [p] origin) by (fold n; lia).
    assert (J : nth ((i + 1) mod n) pts origin = nth (S i) (pts ++ [p]) origin).
    { destruct (Nat.eq_dec (S i) n) as [E | E].
      - replace (i + 1)%nat with n by lia. rewrite Nat.Div0.mod_same.
        rewrite app_nth2 by (fold n; lia). fold n. rewrite E, Nat.sub_diag.
        reflexivity.
      - rewrite Nat.mod_small by lia. rewrite app_nth1 by (fold n; lia).
        f_equal. lia. }
    rewrite J. ring.
Qed.

Lemma pathSum_snoc (P : list Pt) (a b : Pt) :
  pathSum ((P ++ [a]) ++ [b]) = pathSum (P ++ [a]) + cross a b.
Proof.
  induction P as [| c P IH].
  - cbn. ring.
  - destruct P as [| d P].
    + cbn. ring.
    + change (pathSum (((c :: d :: P) ++ [a]) ++ [b]))
        with (cross c d + pathSum (((d :: P) ++ [a]) ++ [b])).
      change (pathSum ((c :: d :: P) ++ [a]))
        with (cross c d + pathSum ((d :: P) ++ [a])).
      rewrite IH. ring.
Qed.

Lemma pathSum_rot1 (pts : list Pt) :
  pathSum (closedPath (rot1 pts)) = pathSum (closedPath pts).
Proof.
  destruct pts as [| p0 [| p1 rest]]; [reflexivity | reflexivity |].
  change (closedPath (rot1 (p0 :: p1 :: rest)))
    with (((p1 :: rest) ++ [p0]) ++ [p1]).
  rewrite pathSum_snoc.
  change (closedPath (p0 :: p1 :: rest)) with (p0 :: (p1 :: rest) ++ [p0]).
  change (pathSum (p0 :: (p1 :: rest) ++ [p0]))
    with (cross p0 p1 + pathSum ((p1 :: rest) ++ [p0])).
  ring.
Qed.

Lemma last_cons (rest : list Pt) (b a : Pt) : last (b :: rest) a = last rest b.
Proof.
  revert a b. induction rest as [| c rest IH]; intros a b; [reflexivity|].
  change (last (b :: c :: rest) a) with (last (c :: rest) a).
  rewrite IH. symmetry. apply IH.
Qed.

Lemma pathSum_shift (v a : Pt) (rest : list Pt) :
  pathSum (map (shift v) (a :: rest))
  = pathSum (a :: rest) + cross (last rest a) v - cross a v.
Proof.
  revert a. induction rest as [| b rest IH]; intros a.
  - cbn. ring.
  - change (pathSum (map (shift v) (a :: b :: rest)))
      with (cross (shift v a) (shift v b) + pathSum (map (shift v) (b :: rest))).
    rewrite IH.
    change (pathSum (a :: b :: rest)) with (cross a b + pathSum (b :: rest)).
    rewrite (last_cons rest b a).
    unfold cross, shift. cbn [x y]. ring.
Qed.

Lemma pathSum_closed_shift (v : Pt) (pts : list Pt) :
  pathSum (closedPath (map (shift v) pts)) = pathSum (closedPath pts).
Proof.
  destruct pts as [| p rest]; [reflexivity|].
  change (closedPath (map (shift v) (p :: rest)))
    with (shift v p :: map (shift v) rest ++ [shift v p]).
  replace (shift v p :: map (shift v) rest ++ [shift v p])
    with (map (shift v) (p :: rest ++ [p]))
    by (cbn [map]; rewrite map_app; reflexivity).
  rewrite pathSum_shift. rewrite last_last. unfold closedPath. ring.
Qed.

Lemma pathSum_rev (P : list Pt) : pathSum (rev P) = - pathSum P.
Proof.
  induction P as [| a P IH]; [cbn; ring|].
  destruct P as [| b P]; [cbn; ring|].
  change (rev (a :: b :: P)) with ((rev P ++ [b]) ++ [a]).
  rewrite pathSum_snoc. change (rev P ++ [b]) with (rev (b :: P)).
  rewrite IH. change (pathSum (a :: b :: P)) with (cross a b + pathSum (b :: P)).
  unfold cross. ring.
Qed.

Lemma fold_sum_acc (f : LatLng -> R) (l : list LatLng) (u v : R) :
  fold_left (fun s q => s + f q) l (u + v) = fold_left (fun s q => s + f q) l u + v.
Proof.
  revert u. induction l as [| q l IH]; intros u; [reflexivity|].
  cbn [fold_left]. replace (u + v + f q) with (u + f q + v) by ring. apply IH.
Qed.

Lemma meanLatOf_rot1 (l : list LatLng) : meanLatOf (rot1 l) = meanLatOf l.
Proof.
  destruct l as [| p rest]; [reflexivity|]. unfold meanLatOf, rot1.
  rewrite fold_left_app, length_app. cbn [fold_left length].
  rewrite fold_sum_acc. replace (length rest + 1)%nat with (S (length rest)) by lia.
  reflexivity.
Qed.

Lemma meanLatOf_rev (l : list LatLng) : meanLatOf (rev l) = meanLatOf l.
Proof.
  unfold meanLatOf. rewrite length_rev. f_equal. generalize 0.
  induction l as [| p l IH]; intros a; [reflexivity|].
  cbn [rev fold_left]. rewrite fold_left_app. cbn [fold_left].
  rewrite IH, fold_sum_acc. reflexivity.
Qed.

Lemma project_shift (p0 p1 p : LatLng) :
  project p1 1 p = shift (project p0 1 p1) (project p0 1 p).
Proof. unfold project, shift. cbn [x y]. f_equal; ring. Qed.

Lemma unitArea_rot1 (l : list LatLng) : unitArea (rot1 l) = unitArea l.
Proof.
  destruct l as [| p0 [| p1 rest]]; [reflexivity | reflexivity |].
  unfold unitArea. do 2 f_equal. rewrite !shoelaceSum_pathSum.
  change (hd _ (rot1 (p0 :: p1 :: rest))) with p1.
  change (hd _ (p0 :: p1 :: rest)) with p0.
  replace (map (project p1 1) (rot1 (p0 :: p1 :: rest)))
    with (rot1 (map (project p1 1) (p0 :: p1 :: rest)))
    by (cbn [rot1 map]; rewrite map_app; reflexivity).
  rewrite pathSum_rot1.
  rewrite (map_ext _ _ (project_shift p0 p1)), <- map_map.
  apply pathSum_closed_shift.
Qed.

Lemma unitArea_rev (l : list LatLng) : unitArea (rev l) = unitArea l.
Proof.
  destruct l as [| p0 rest]; [reflexivity|].
  change (rev (p0 :: rest)) with (rot1 (p0 :: rev rest)).
  rewrite unitArea_rot1. unfold unitArea. cbn [hd].
  rewrite !shoelaceSum_pathSum.
  replace (closedPath (map (project p0 1) (p0 :: rev rest)))
    with (rev (closedPath (map (project p0 1) (p0 :: rest)))).
  - rewrite pathSum_rev.
    replace (- pathSum (closedPath (map (project p0 1) (p0 :: rest))) / 2)
      with (- (pathSum (closedPath (map (project p0 1) (p0 :: rest))) / 2))
      by field.
    apply Rabs_Ropp.
  - cbn [map closedPath rev]. rewrite rev_app_distr. cbn [rev app].
    rewrite map_rev. reflexivity.
Qed.

Lemma length_rot1 {A : Type} (l : list A) : length (rot1 l) = length l.
Proof.
  destruct l as [| p rest]; [reflexivity|]. cbn [rot1 length].
  rewrite length_app. cbn [length]. lia.
Qed.

(** X20: in exact real arithmetic the area does not depend on the vertex
    from which the polygon is drawn, nor on the direction in which it is
    drawn.  (The binary64 results of two orders can differ in their last
    digits.) *)
Theorem area_independent_of_vertex_order (latlngs : list LatLng) (k : nat) :
  calcGeodesicArea (Nat.iter k rot1 latlngs) = calcGeodesicArea latlngs /\
  calcGeodesicArea (rev latlngs) = calcGeodesicArea latlngs.
Proof.
  split.
  - induction k as [| k IH]; [reflexivity|].
    change (Nat.iter (S k) rot1 latlngs) with (rot1 (Nat.iter k rot1 latlngs)).
    rewrite <- IH. generalize (Nat.iter k rot1 latlngs).
    intros l. rewrite !calcGeodesicArea_scaled.
    rewrite length_rot1, meanLatOf_rot1, unitArea_rot1. reflexivity.
  - rewrite !calcGeodesicArea_scaled.
    rewrite length_rev, meanLatOf_rev, unitArea_rev. reflexivity.
Qed.

End VertexOrderFacts.

(** ** More on the estimate and the totals *)

Section EstimateMoreFacts.

Local Open Scope Q_scope.

Lemma Math_round_nonneg_Q (v : Q) : 0 <= v -> 0 <= JS.Math_round v.
Proof.
  intros H. unfold JS.Math_round. change 0 with (inject_Z 0).
  rewrite <- Zle_Qle. change 0%Z with (Qfloor 0). apply Qfloor_resp_le. lra.
Qed.

Lemma round_div_nonneg (v : Q) : 0 <= v -> 0 <= JS.Math_round v / 10.
Proof.
  intros H. pose proof (Math_round_nonneg_Q v H) as R. revert R.
  generalize (JS.Math_round v). intros r R. q_consts. lra.
Qed.

(** X10: the estimate of a building is never negative: for an area, a
    capacity factor and parameters between 0 and 10^9, no reported metric is
    negative and the payback is a number that is not negative.  (The upper
    bounds keep the products of the estimate far below the largest binary64
    number; the exact numbers of the proof do not need them.) *)
Theorem estimate_nonnegative (area cf usable eff price : Q) :
  0 <= area <= 1000000000 -> 0 <= cf <= 1000000000 ->
  0 <= usable <= 1000000000 -> 0 <= eff <= 1000000000 ->
  0 <= price <= 1000000000 ->
  let s := Solar.solarOf area cf usable eff price in
  0 <= Solar.usable_area_m2 s /\ 0 <= Solar.capacity_kw s /\
  0 <= Solar.capacity_mw s /\ 0 <= Solar.annual_kwh s /\
  0 <= Solar.annual_mwh s /\ 0 <= Solar.annual_revenue s /\
  0 <= Solar.gross_install_cost s /\ 0 <= Solar.itc_savings s /\
  0 <= Solar.install_cost s /\ 0 <= Solar.annual_om s /\
  0 <= Solar.co2_avoided_tons s /\ 0 <= Solar.co2_avoided_lifetime_tons s /\
  0 <= Solar.homes_powered s /\ 0 <= Solar.lifetime_mwh s /\
  exists p, Solar.payback_years s = Some p /\ 0 <= p.
Proof.
  intros [Ha _] [Hc _] [Hu _] [He _] [Hp _]. cbv zeta.
  assert (U : 0 <= Solar.usableArea area usable)
    by (unfold Solar.usableArea; apply Qmult_le_0_compat; assumption).
  assert (C : 0 <= Solar.capacityKw area usable eff).
  { unfold Solar.capacityKw. q_consts.
    assert (0 <= Solar.usableArea area usable * eff)
      by (apply Qmult_le_0_compat; assumption).
    lra. }
  assert (K : 0 <= Solar.annualKwh area cf usable eff).
  { unfold Solar.annualKwh.
    assert (0 <= Solar.capacityKw area usable eff * 8760) by lra.
    apply Qmult_le_0_compat; assumption. }
  assert (V : 0 <= Solar.annualRevenue area cf usable eff price)
    by (unfold Solar.annualRevenue; apply Qmult_le_0_compat; assumption).
  assert (G : 0 <= Solar.grossCost area usable eff) by (unfold Solar.grossCost; lra).
  assert (T : 0 <= Solar.itcSavings area usable eff) by (unfold Solar.itcSavings; lra).
  assert (I : 0 <= Solar.installCost area usable eff)
    by (unfold Solar.installCost, Solar.itcSavings; lra).
  assert (O : 0 <= Solar.annualOm area usable eff) by (unfold Solar.annualOm; lra).
  unfold Solar.solarOf;
    cbn [Solar.usable_area_m2 Solar.capacity_kw Solar.capacity_mw Solar.annual_kwh
         Solar.annual_mwh Solar.annual_revenue Solar.gross_install_cost
         Solar.itc_savings Solar.install_cost Solar.annual_om
         Solar.co2_avoided_tons Solar.co2_avoided_lifetime_tons
         Solar.homes_powered Solar.lifetime_mwh Solar.payback_years].
  repeat match goal with |- _ /\ _ => split end;
    try (apply round_div_nonneg); try (apply Math_round_nonneg_Q);
    try assumption;
    try (revert K C; unfold Solar.co2Rate; q_consts;
         generalize (Solar.annualKwh area cf usable eff)
                    (Solar.capacityKw area usable eff); intros; lra).
  unfold Solar.payback.
  destruct (Qlt_le_dec 0 _) as [L | L].
  - rewrite div_pos by exact L. eexists. split; [reflexivity|].
    apply round_div_nonneg.
    assert (0 <= Solar.installCost area usable eff
                 / (Solar.annualRevenue area cf usable eff price
                    - Solar.annualOm area usable eff)).
    { apply Qle_shift_div_l; [exact L|]. lra. }
    lra.
  - eexists. split; [reflexivity|]. vm_compute. discriminate.
Qed.

Lemma sumOver_cons (g : Solar.Building -> Q) (b : Solar.Building)
    (l : list Solar.Building) :
  HiddenBuildings.sumOver g (b :: l) == g b + HiddenBuildings.sumOver g l.
Proof.
  unfold HiddenBuildings.sumOver. cbn [fold_left].
  assert (E : forall a, fold_left (fun s c => s + g c) l a
                        == a + fold_left (fun s c => s + g c) l 0).
  { induction l as [| c l IH]; intros a; cbn [fold_left]; [ring|].
    rewrite (IH (a + g c)), (IH (0 + g c)). ring. }
  rewrite E. ring.
Qed.

Lemma sumOver_perm (g : Solar.Building -> Q) (l l' : list Solar.Building) :
  Permutation l l' -> HiddenBuildings.sumOver g l == HiddenBuildings.sumOver g l'.
Proof.
  induction 1 as [| b l l' P IH | a b l | l l' l'' P1 IH1 P2 IH2].
  - reflexivity.
  - rewrite !sumOver_cons, IH. reflexivity.
  - rewrite !sumOver_cons. ring.
  - rewrite IH1. exact IH2.
Qed.

Lemma paybackOf_round_eq (i i' n n' : Q) :
  i == i' -> n == n' ->
  option_map (fun p => JS.Math_round (p * 10) / 10) (HiddenBuildings.paybackOf i n)
  = option_map (fun p => JS.Math_round (p * 10) / 10) (HiddenBuildings.paybackOf i' n').
Proof.
  intros Ei En. destruct (Qlt_le_dec 0 n) as [L | L].
  - rewrite !paybackOf_pos by (try rewrite <- En; exact L). cbn [option_map].
    rewrite (Math_round_eq (i / n * 10) (i' / n' * 10)); [reflexivity|].
    rewrite Ei, En. reflexivity.
  - rewrite !paybackOf_nonpos by (try rewrite <- En; exact L). reflexivity.
Qed.

(** In exact arithmetic the totals do not depend on the order of the
    buildings.  (The code adds binary64 numbers in the order of the list, and
    two orders can give sums that differ in their last digit.) *)
Lemma recalcTotals_order_independent (buildings buildings' : list Solar.Building)
    (originalTotals : option HiddenBuildings.Totals) :
  Permutation buildings buildings' ->
  HiddenBuildings.recalcTotals buildings originalTotals
  = HiddenBuildings.recalcTotals buildings' originalTotals.
Proof.
  intros P. pose proof (Permutation_length P) as L.
  unfold HiddenBuildings.recalcTotals. rewrite <- L.
  destruct (Nat.eqb (length buildings) 0); [reflexivity|].
  destruct originalTotals as [ot |]; [|reflexivity].
  assert (S : forall g, HiddenBuildings.sumOver g buildings
                        == HiddenBuildings.sumOver g buildings')
    by (intros g; apply sumOver_perm; exact P).
  f_equal.
  rewrite (Math_round_eq _ _ (S (fun b => JS.or_default (Solar.area_m2 b) 0))).
  repeat match goal with
  | |- context [JS.Math_round (HiddenBuildings.sumOver ?g buildings)] =>
    rewrite (Math_round_eq (HiddenBuildings.sumOver g buildings)
               (HiddenBuildings.sumOver g buildings')) by apply S
  | |- context [JS.Math_round (HiddenBuildings.sumOver ?g buildings * 10)] =>
    rewrite (Math_round_eq (HiddenBuildings.sumOver g buildings * 10)
               (HiddenBuildings.sumOver g buildings' * 10))
      by (rewrite (S g); reflexivity)
  | |- context [JS.Math_round (HiddenBuildings.sumOver ?g buildings / 100)] =>
    rewrite (Math_round_eq (HiddenBuildings.sumOver g buildings / 100)
               (HiddenBuildings.sumOver g buildings' / 100))
      by (rewrite (S g); reflexivity)
  end.
  rewrite (paybackOf_round_eq
             (HiddenBuildings.sumOver (HiddenBuildings.solarField Solar.install_cost)
                buildings)
             (HiddenBuildings.sumOver (HiddenBuildings.solarField Solar.install_cost)
                buildings')
             (HiddenBuildings.sumOver (HiddenBuildings.solarField Solar.annual_revenue)
                buildings
              - HiddenBuildings.sumOver (HiddenBuildings.solarField Solar.annual_om)
                  buildings)
             (HiddenBuildings.sumOver (HiddenBuildings.solarField Solar.annual_revenue)
                buildings'
              - HiddenBuildings.sumOver (HiddenBuildings.solarField Solar.annual_om)
                  buildings'))
    by (try apply S; rewrite !S; reflexivity).
  reflexivity.
Qed.

(** X8: when every building of the server has been hidden and no custom
    building exists, the list shown is empty and the totals shown are the
    totals of the server, unchanged. *)
Theorem all_hidden_shows_original_totals (rawData : HomePage.RawData)
    (writable : bool) (st : UseHiddenBuildings.State)
    (usablePct panelEff : Z) (elecPriceQ : Q) :
  HomePage.raw_buildings rawData <> [] ->
  HomePage.data rawData
    (UseHiddenBuildings.hiddenKeys
       (UseHiddenBuildings.hideMultiple writable st
          (HomePage.raw_buildings rawData)))
    [] usablePct panelEff elecPriceQ
  = ([], HomePage.raw_totals rawData).
Proof.
  intros Hne. unfold UseHiddenBuildings.hideMultiple.
  cbn [UseHiddenBuildings.hiddenKeys]. rewrite fold_add_keys.
  set (keys := fold_left UseHiddenBuildings.add _ _).
  assert (Hid : forall b, In b (HomePage.raw_buildings rawData) ->
                          HomePage.isHidden keys b = true).
  { intros b Hb. change (HomePage.isHidden keys b)
      with (UseHiddenBuildings.has keys (HomePage.buildingKey b)).
    unfold keys. rewrite has_fold_add. apply orb_true_iff. right.
    apply existsb_exists. exists (HomePage.buildingKey b).
    split; [apply in_map; exact Hb | apply sameKey_refl]. }
  assert (Hk : (0 <? @length (Q * Q * Q) keys)%nat = true).
  { destruct (HomePage.raw_buildings rawData) as [| b bs] eqn:E; [contradiction|].
    specialize (Hid b (or_introl eq_refl)).
    destruct keys; [discriminate | reflexivity]. }
  unfold HomePage.data. cbv zeta. rewrite Hk. cbn [length Nat.ltb Nat.leb orb].
  assert (F : forall l, (forall b, In b l -> HomePage.isHidden keys b = true) ->
                filter (fun b => negb (HomePage.isHidden keys b)) l = []).
  { intros l. induction l as [| b bs IH]; intros H; [reflexivity|].
    cbn [filter]. rewrite (H b (or_introl eq_refl)). cbn [negb].
    apply IH. intros c Hc. apply H. right. exact Hc. }
  rewrite (F _ Hid). destruct (HomePage.raw_totals rawData); reflexivity.
Qed.

End EstimateMoreFacts.

(** Witness of [estimate_nonnegative]: the 10,000 m2 building. *)
Lemma estimate_nonnegative_witness :
  (0 <= Solar.capacity_kw (Solar.solarOf 10000 0.168 0.65 200 0.12))%Q.
Proof.
  apply (estimate_nonnegative 10000 0.168 0.65 200 0.12);
    split; unfold Qle; cbn; lia.
Defined.

(** Witness of [all_hidden_shows_original_totals]: the two buildings of the
    sample hidden. *)
Lemma all_hidden_shows_original_totals_witness :
  HomePage.data Props.rawSample
    (UseHiddenBuildings.hiddenKeys
       (UseHiddenBuildings.hideMultiple true
          {| UseHiddenBuildings.hiddenKeys := []; UseHiddenBuildings.stored := None |}
          (HomePage.raw_buildings Props.rawSample)))
    [] 65 200 0.12
  = ([], Some Props.sampleTotals).
Proof.
  apply (all_hidden_shows_original_totals Props.rawSample). discriminate.
Defined.

(** ** Further instances *)

(** Witness of [custom_buildings_reload]: the triangle added to an empty
    store with a write that succeeds is what the stored entry loads back
    to. *)
Lemma custom_buildings_reload_witness :
  exists b st',
    CustomBuildings.addBuilding (33.6407%R, (-84.4277)%R) String.EmptyString
      true
      {| CustomBuildings.buildings := []; CustomBuildings.stored := None |}
      GeoProps.triangle None
    = CustomBuildings.Returned (Some b) st' /\
    UseCustomBuildings.load true (CustomBuildings.stored st')
    = CustomBuildings.buildings st'.
Proof.
  destruct (addBuilding_triangle true) as (b & Hb).
  eexists. eexists. split; [exact Hb|].
  destruct (custom_buildings_reload (33.6407%R, (-84.4277)%R)
              String.EmptyString String.EmptyString true
              {| CustomBuildings.buildings := [];
                 CustomBuildings.stored := None |}
              GeoProps.triangle None) as (Hadd & _).
  destruct (Hadd b _ Hb) as (Hw & _).
  exact (proj1 (Hw eq_refl)).
Defined.

(** Witness of [select_page_flips]: a page of one building, nothing
    selected; the click on the header checkbox selects the page. *)
Lemma select_page_flips_witness :
  DataTable.pageAllSelected [Props.estimated10000]
    (Selection.selectedKeys
       (Selection.handleSelectPage [] [Props.estimated10000]
          (negb (DataTable.pageAllSelected [Props.estimated10000]
                   (Selection.selectedKeys [])))))
  = negb (DataTable.pageAllSelected [Props.estimated10000]
            (Selection.selectedKeys [])).
Proof.
  destruct (select_page_flips [] [Props.estimated10000]) as (_ & _ & Hclick).
  apply Hclick. discriminate.
Defined.

(** Witness of [pages_partition]: the first page of a table of one
    building is not empty. *)
Lemma pages_partition_witness :
  DataTable.pagedBuildings [Props.estimated10000] 0 <> [].
Proof.
  destruct (pages_partition [Props.estimated10000]) as (_ & _ & Hpage & _).
  apply Hpage. vm_compute. split; [discriminate | reflexivity].
Defined.
